(** * Dynamodel: index key construction, expression compiler, query
      executor and transactional write pipeline

    A shallow embedding of [src/utils.ts] and [src/db_model.ts].

    Conventions of the embedding.
    - A JavaScript string is a [string]; [+:+] is concatenation.
    - A JavaScript object used as a record ([Document], [IndexFieldsMap],
      the objects built with spread syntax) is the list of its own
      enumerable entries in [Object.entries] order; property names are
      assumed not to be canonical array indices (those would be listed
      first by the engine) nor [__proto__]. Reading a field of a
      resource under a name taken from a template, [resource[name]],
      falls back on [Object.prototype]; the other reads are by key
      attribute names and by error keys, which are taken not to be
      inherited names (for error keys this is proved).
    - [this.errorPayloads], only ever written and probed by key, is a
      [gmap string exn].
    - Numbers are integers ([Z]); [String(n)] is their decimal rendering.
    - Code that can throw lives in the monad [M] (state [this.items] and
      [this.errorPayloads], result [Ok] or [Throw]).
    - The store client, [JSON], [Buffer] and the clock are parameters. *)

From Stdlib Require Import ZArith String Ascii List Bool Lia.
From Stdlib Require Import DecimalString DecimalPos DecimalZ.
From stdpp Require Import gmap strings list fin_maps.
Import ListNotations.

Local Open Scope string_scope.
Local Open Scope Z_scope.
Local Open Scope list_scope.

(** ** JavaScript strings *)

Module JsString.

Definition lbrace : ascii := "{"%char.
Definition rbrace : ascii := "}"%char.
Definition dollar : ascii := "$"%char.

(** [s.includes(c)] for a one-character needle. *)
Fixpoint includes_char (c : ascii) (s : string) : bool :=
  match s with
  | EmptyString => false
  | String a rest => if Ascii.eqb a c then true else includes_char c rest
  end.

(** [s.split(c)[0]]: the part of [s] before the first [c], all of [s]
    when [c] does not occur. *)
Fixpoint split_head (c : ascii) (s : string) : string :=
  match s with
  | EmptyString => EmptyString
  | String a rest => if Ascii.eqb a c then EmptyString else String a (split_head c rest)
  end.

(** [s.substring(n)]. *)
Fixpoint drop (n : nat) (s : string) : string :=
  match n, s with
  | O, _ => s
  | S _, EmptyString => EmptyString
  | S k, String _ rest => drop k rest
  end.

(** [l.join(sep)]. *)
Definition join (sep : string) (l : list string) : string := String.concat sep l.

(** [s.startsWith(p)]. *)
Definition startsWith (p s : string) : bool := String.prefix p s.

(** ECMAScript GetSubstitution for a pattern without capture groups:
    [$$] is a dollar sign, [$&] the matched text, [$`] the text before
    the match, [$'] the text after it; every other character, a lone
    dollar sign and a dollar sign followed by digits or [<] included,
    stands for itself. *)
Fixpoint get_substitution (matched before after template : string) : string :=
  match template with
  | EmptyString => EmptyString
  | String c rest =>
      if Ascii.eqb c dollar then
        match rest with
        | String d rest' =>
            if Ascii.eqb d dollar then String dollar (get_substitution matched before after rest')
            else if Ascii.eqb d "&"%char then matched +:+ get_substitution matched before after rest'
            else if Ascii.eqb d "`"%char then before +:+ get_substitution matched before after rest'
            else if Ascii.eqb d "'"%char then after +:+ get_substitution matched before after rest'
            else String c (get_substitution matched before after rest)
        | EmptyString => String c EmptyString
        end
      else String c (get_substitution matched before after rest)
  end.

(** [s.replace(pat, repl)] with a string pattern: the first occurrence
    of [pat] is replaced by the expansion of [repl]; [before] is the
    text already passed over. *)
Fixpoint replace_from (pat repl before s : string) : string :=
  if String.prefix pat s then
    let after := drop (String.length pat) s in
    get_substitution pat before after repl +:+ after
  else
    match s with
    | EmptyString => EmptyString
    | String c rest => String c (replace_from pat repl (before +:+ String c EmptyString) rest)
    end.

Definition replace (pat repl s : string) : string := replace_from pat repl EmptyString s.

(** Splits at the first closing brace: [Some (before, after)]. *)
Fixpoint until_rbrace (s : string) : option (string * string) :=
  match s with
  | EmptyString => None
  | String c rest =>
      if Ascii.eqb c rbrace then Some (EmptyString, rest)
      else match until_rbrace rest with
           | Some (name, after) => Some (String c name, after)
           | None => None
           end
  end.

(** All matches of the global regular expression [/\{([^}]+)\}/g] in
    [s], left to right, as produced by calling [exec] until it returns
    [null]: each match is the pair of the matched text and its capture
    group. [skip] counts the characters of the previous match that are
    still to be passed over ([lastIndex] lies that far ahead). *)
Fixpoint exec_all_from (skip : nat) (s : string) : list (string * string) :=
  match s with
  | EmptyString => []
  | String c rest =>
      match skip with
      | S k => exec_all_from k rest
      | O =>
          if Ascii.eqb c lbrace then
            match until_rbrace rest with
            | Some (String n name, _) =>
                let field := String n name in
                (String lbrace (field +:+ String rbrace EmptyString), field)
                  :: exec_all_from (S (String.length field)) rest
            | _ => exec_all_from O rest
            end
          else exec_all_from O rest
      end
  end.

Definition exec_all (s : string) : list (string * string) := exec_all_from O s.

(** Decimal rendering of an integer, as a template literal or
    [String(n)] prints it. *)
Definition of_Z (z : Z) : string := NilZero.string_of_int (Z.to_int z).

End JsString.

(** ** JavaScript values and records *)

(** The values a [Document] field can hold: [undefined], [null],
    booleans, integers, strings and plain objects; and the functions
    that every object inherits. *)
#[warnings="-register-all"]
Inductive jsval : Type :=
| JUndefined
| JNull
| JBool (b : bool)
| JNum (n : Z)
| JStr (s : string)
| JObj (fields : list (string * jsval))
| JFunction (name : string).

(** [if (v)]: truthiness. *)
Definition js_truthy (v : jsval) : bool :=
  match v with
  | JUndefined | JNull => false
  | JBool b => b
  | JNum n => negb (n =? 0)
  | JStr s => negb (String.eqb s "")
  | JObj _ => true
  | JFunction _ => true
  end.

(** [String(v)]. *)
Definition js_String (v : jsval) : string :=
  match v with
  | JUndefined => "undefined"
  | JNull => "null"
  | JBool true => "true"
  | JBool false => "false"
  | JNum n => JsString.of_Z n
  | JStr s => s
  | JObj _ => "[object Object]"
  | JFunction name => "function " +:+ name +:+ "() { [native code] }"
  end.

(** [v === undefined]. *)
Definition is_undefined (v : jsval) : bool :=
  match v with JUndefined => true | _ => false end.

(** A record with values in [V]: its entries in [Object.entries] order. *)
Definition JsRecord (V : Type) : Type := list (string * V).

Module Obj.

Definition keys {V} (o : JsRecord V) : list string := map fst o.

(** Own-property lookup. *)
Fixpoint lookup {V} (o : JsRecord V) (k : string) : option V :=
  match o with
  | [] => None
  | (k', v) :: rest => if String.eqb k' k then Some v else lookup rest k
  end.

(** [k in o] for own properties. *)
Definition has {V} (o : JsRecord V) (k : string) : bool :=
  match lookup o k with Some _ => true | None => false end.

(** [o[k] = v]: an existing property keeps its place, a new one is
    added last. *)
Fixpoint set {V} (o : JsRecord V) (k : string) (v : V) : JsRecord V :=
  match o with
  | [] => [(k, v)]
  | (k', v') :: rest => if String.eqb k' k then (k', v) :: rest else (k', v') :: set rest k v
  end.

(** [delete o[k]]. *)
Definition remove {V} (o : JsRecord V) (k : string) : JsRecord V :=
  List.filter (fun e => negb (String.eqb (fst e) k)) o.

(** [Object.assign(target, source)], the meaning of one spread. *)
Definition assign {V} (target source : JsRecord V) : JsRecord V :=
  fold_left (fun acc e => set acc (fst e) (snd e)) source target.

(** [Object.fromEntries(l)]. *)
Definition fromEntries {V} (l : list (string * V)) : JsRecord V := assign [] l.

(** [{ ...a, ...b }]. *)
Definition spread {V} (a b : JsRecord V) : JsRecord V := assign (assign [] a) b.

(** The function-valued properties of [Object.prototype]. *)
Definition prototype_functions : list string :=
  ["__defineGetter__"; "__defineSetter__"; "hasOwnProperty"; "__lookupGetter__";
   "__lookupSetter__"; "isPrototypeOf"; "propertyIsEnumerable"; "toString";
   "valueOf"; "toLocaleString"].

(** What a plain object inherits under the name [k]. *)
Definition inherited (k : string) : jsval :=
  if String.eqb k "constructor" then JFunction "Object"
  else if String.eqb k "__proto__" then JObj []
  else if existsb (String.eqb k) prototype_functions then JFunction k
  else JUndefined.

(** [o[k]] on a document: the own property, or else what the object
    inherits, [undefined] for most names. *)
Definition get (o : JsRecord jsval) (k : string) : jsval :=
  match lookup o k with Some v => v | None => inherited k end.

(** No name twice. *)
Fixpoint distinct (l : list string) : bool :=
  match l with
  | [] => true
  | k :: rest => negb (existsb (String.eqb k) rest) && distinct rest
  end.

(** The representation invariant of a record: no property twice. *)
Definition wf {V} (o : JsRecord V) : bool := distinct (keys o).

End Obj.

Definition Document : Type := JsRecord jsval.
Definition IndexFieldsMap : Type := JsRecord (list string).

Record DbIndex : Type := mkDbIndex {
  tableName : string;
  indexName : option string;
  partitionKey : string;
  sortKey : string;
}.

Inductive SkMatch : Type :=
| exact
| begins_with
| greater_than
| less_than
| greater_than_or_equal
| less_than_or_equal.

Inductive SortOrder : Type := asc | desc.

(** ** utils.ts *)

(** [arr.reduce((acc, x, index) => f acc x index, init)], counting from
    [index]. *)
Fixpoint reduce_from {A B} (f : B -> A -> nat -> B) (index : nat) (l : list A) (acc : B) : B :=
  match l with
  | [] => acc
  | x :: rest => reduce_from f (S index) rest (f acc x index)
  end.

Definition reduce {A B} (f : B -> A -> nat -> B) (l : list A) (init : B) : B :=
  reduce_from f O l init.

Definition RESERVED_KEYWORDS : list string := [
  "ABORT"; "ABSOLUTE"; "ACTION"; "ADD"; "AFTER"; "AGENT"; "AGGREGATE"; "ALL";
  "ALLOCATE"; "ALTER"; "ANALYZE"; "AND"; "ANY"; "ARCHIVE"; "ARE"; "ARRAY";
  "AS"; "ASC"; "ASCII"; "ASENSITIVE"; "ASSERTION"; "ASYMMETRIC"; "AT";
  "ATOMIC"; "ATTACH"; "ATTRIBUTE"; "AUTH"; "AUTHORIZATION"; "AUTHORIZE";
  "AUTO"; "AVG"; "BACK"; "BACKUP"; "BASE"; "BATCH"; "BEFORE"; "BEGIN";
  "BETWEEN"; "BIGINT"; "BINARY"; "BIT"; "BLOB"; "BLOCK"; "BOOLEAN"; "BOTH";
  "BREADTH"; "BUCKET"; "BULK"; "BY"; "BYTE"; "CALL"; "CALLED"; "CALLING";
  "CAPACITY"; "CASCADE"; "CASCADED"; "CASE"; "CAST"; "CATALOG"; "CHAR";
  "CHARACTER"; "CHECK"; "CLASS"; "CLOB"; "CLOSE"; "CLUSTER"; "CLUSTERED";
  "CLUSTERING"; "CLUSTERS"; "COALESCE"; "COLLATE"; "COLLATION"; "COLLECTION";
  "COLUMN"; "COLUMNS"; "COMBINE"; "COMMENT"; "COMMIT"; "COMPACT"; "COMPILE";
  "COMPRESS"; "CONDITION"; "CONFLICT"; "CONNECT"; "CONNECTION";
  "CONSISTENCY"; "CONSISTENT"; "CONSTRAINT"; "CONSTRAINTS"; "CONSTRUCTOR";
  "CONSUMED"; "CONTINUE"; "CONVERT"; "COPY"; "CORRESPONDING"; "COUNT";
  "COUNTER"; "CREATE"; "CROSS"; "CUBE"; "CURRENT"; "CURSOR"; "CYCLE"; "DATA";
  "DATABASE"; "DATE"; "DATETIME"; "DAY"; "DEALLOCATE"; "DEC"; "DECIMAL";
  "DECLARE"; "DEFAULT"; "DEFERRABLE"; "DEFERRED"; "DEFINE"; "DEFINED";
  "DEFINITION"; "DELETE"; "DELIMITED"; "DEPTH"; "DEREF"; "DESC"; "DESCRIBE";
  "DESCRIPTOR"; "DETACH"; "DETERMINISTIC"; "DIAGNOSTICS"; "DIRECTORIES";
  "DISABLE"; "DISCONNECT"; "DISTINCT"; "DISTRIBUTE"; "DO"; "DOMAIN";
  "DOUBLE"; "DROP"; "DUMP"; "DURATION"; "DYNAMIC"; "EACH"; "ELEMENT"; "ELSE";
  "ELSEIF"; "EMPTY"; "ENABLE"; "END"; "EQUAL"; "EQUALS"; "ERROR"; "ESCAPE";
  "ESCAPED"; "EVAL"; "EVALUATE"; "EXCEEDED"; "EXCEPT"; "EXCEPTION";
  "EXCEPTIONS"; "EXCLUSIVE"; "EXEC"; "EXECUTE"; "EXISTS"; "EXIT"; "EXPLAIN";
  "EXPLODE"; "EXPORT"; "EXPRESSION"; "EXTENDED"; "EXTERNAL"; "EXTRACT";
  "FAIL"; "FALSE"; "FAMILY"; "FETCH"; "FIELDS"; "FILE"; "FILTER";
  "FILTERING"; "FINAL"; "FINISH"; "FIRST"; "FIXED"; "FLATTERN"; "FLOAT";
  "FOR"; "FORCE"; "FOREIGN"; "FORMAT"; "FORWARD"; "FOUND"; "FREE"; "FROM";
  "FULL"; "FUNCTION"; "FUNCTIONS"; "GENERAL"; "GENERATE"; "GET"; "GLOB";
  "GLOBAL"; "GO"; "GOTO"; "GRANT"; "GREATER"; "GROUP"; "GROUPING"; "HANDLER";
  "HASH"; "HAVE"; "HAVING"; "HEAP"; "HIDDEN"; "HOLD"; "HOUR"; "IDENTIFIED";
  "IDENTITY"; "IF"; "IGNORE"; "IMMEDIATE"; "IMPORT"; "IN"; "INCLUDING";
  "INCLUSIVE"; "INCREMENT"; "INCREMENTAL"; "INDEX"; "INDEXED"; "INDEXES";
  "INDICATOR"; "INFINITE"; "INITIALLY"; "INLINE"; "INNER"; "INNTER"; "INOUT";
  "INPUT"; "INSENSITIVE"; "INSERT"; "INSTEAD"; "INT"; "INTEGER"; "INTERSECT";
  "INTERVAL"; "INTO"; "INVALIDATE"; "IS"; "ISOLATION"; "ITEM"; "ITEMS";
  "ITERATE"; "JOIN"; "KEY"; "KEYS"; "LAG"; "LANGUAGE"; "LARGE"; "LAST";
  "LATERAL"; "LEAD"; "LEADING"; "LEAVE"; "LEFT"; "LENGTH"; "LESS"; "LEVEL";
  "LIKE"; "LIMIT"; "LIMITED"; "LINES"; "LIST"; "LOAD"; "LOCAL"; "LOCALTIME";
  "LOCALTIMESTAMP"; "LOCATION"; "LOCATOR"; "LOCK"; "LOCKS"; "LOG"; "LOGED";
  "LONG"; "LOOP"; "LOWER"; "MAP"; "MATCH"; "MATERIALIZED"; "MAX"; "MAXLEN";
  "MEMBER"; "MERGE"; "METHOD"; "METRICS"; "MIN"; "MINUS"; "MINUTE";
  "MISSING"; "MOD"; "MODE"; "MODIFIES"; "MODIFY"; "MODULE"; "MONTH"; "MULTI";
  "MULTISET"; "NAME"; "NAMES"; "NATIONAL"; "NATURAL"; "NCHAR"; "NCLOB";
  "NEW"; "NEXT"; "NO"; "NONE"; "NOT"; "NULL"; "NULLIF"; "NUMBER"; "NUMERIC";
  "OBJECT"; "OF"; "OFFLINE"; "OFFSET"; "OLD"; "ON"; "ONLINE"; "ONLY";
  "OPAQUE"; "OPEN"; "OPERATOR"; "OPTION"; "OR"; "ORDER"; "ORDINALITY";
  "OTHER"; "OTHERS"; "OUT"; "OUTER"; "OUTPUT"; "OVER"; "OVERLAPS";
  "OVERRIDE"; "OWNER"; "PAD"; "PARALLEL"; "PARAMETER"; "PARAMETERS";
  "PARTIAL"; "PARTITION"; "PARTITIONED"; "PARTITIONS"; "PATH"; "PERCENT";
  "PERCENTILE"; "PERMISSION"; "PERMISSIONS"; "PIPE"; "PIPELINED"; "PLAN";
  "POOL"; "POSITION"; "PRECISION"; "PREPARE"; "PRESERVE"; "PRIMARY"; "PRIOR";
  "PRIVATE"; "PRIVILEGES"; "PROCEDURE"; "PROCESSED"; "PROJECT"; "PROJECTION";
  "PROPERTY"; "PROVISIONING"; "PUBLIC"; "PUT"; "QUERY"; "QUIT"; "QUORUM";
  "RAISE"; "RANDOM"; "RANGE"; "RANK"; "RAW"; "READ"; "READS"; "REAL";
  "REBUILD"; "RECORD"; "RECURSIVE"; "REDUCE"; "REF"; "REFERENCE";
  "REFERENCES"; "REFERENCING"; "REGEXP"; "REGION"; "REINDEX"; "RELATIVE";
  "RELEASE"; "REMAINDER"; "RENAME"; "REPEAT"; "REPLACE"; "REQUEST"; "RESET";
  "RESIGNAL"; "RESOURCE"; "RESPONSE"; "RESTORE"; "RESTRICT"; "RESULT";
  "RETURN"; "RETURNING"; "RETURNS"; "REVERSE"; "REVOKE"; "RIGHT"; "ROLE";
  "ROLES"; "ROLLBACK"; "ROLLUP"; "ROUTINE"; "ROW"; "ROWS"; "RULE"; "RULES";
  "SAMPLE"; "SATISFIES"; "SAVE"; "SAVEPOINT"; "SCAN"; "SCHEMA"; "SCOPE";
  "SCROLL"; "SEARCH"; "SECOND"; "SECTION"; "SEGMENT"; "SEGMENTS"; "SELECT";
  "SELF"; "SEMI"; "SENSITIVE"; "SEPARATE"; "SEQUENCE"; "SERIALIZABLE";
  "SESSION"; "SET"; "SETS"; "SHARD"; "SHARE"; "SHARED"; "SHORT"; "SHOW";
  "SIGNAL"; "SIMILAR"; "SIZE"; "SKEWED"; "SMALLINT"; "SNAPSHOT"; "SOME";
  "SOURCE"; "SPACE"; "SPACES"; "SPARSE"; "SPECIFIC"; "SPECIFICTYPE"; "SPLIT";
  "SQL"; "SQLCODE"; "SQLERROR"; "SQLEXCEPTION"; "SQLSTATE"; "SQLWARNING";
  "START"; "STATE"; "STATIC"; "STATUS"; "STORAGE"; "STORE"; "STORED";
  "STREAM"; "STRING"; "STRUCT"; "STYLE"; "SUB"; "SUBMULTISET";
  "SUBPARTITION"; "SUBSTRING"; "SUBTYPE"; "SUM"; "SUPER"; "SYMMETRIC";
  "SYNONYM"; "SYSTEM"; "TABLE"; "TABLESAMPLE"; "TEMP"; "TEMPORARY";
  "TERMINATED"; "TEXT"; "THAN"; "THEN"; "THROUGHPUT"; "TIME"; "TIMESTAMP";
  "TIMEZONE"; "TINYINT"; "TO"; "TOKEN"; "TOTAL"; "TOUCH"; "TRAILING";
  "TRANSACTION"; "TRANSFORM"; "TRANSLATE"; "TRANSLATION"; "TREAT"; "TRIGGER";
  "TRIM"; "TRUE"; "TRUNCATE"; "TTL"; "TUPLE"; "TYPE"; "UNDER"; "UNDO";
  "UNION"; "UNIQUE"; "UNIT"; "UNKNOWN"; "UNLOGGED"; "UNNEST"; "UNPROCESSED";
  "UNSIGNED"; "UNTIL"; "UPDATE"; "UPPER"; "URL"; "USAGE"; "USE"; "USER";
  "USERS"; "USING"; "UUID"; "VACUUM"; "VALUE"; "VALUED"; "VALUES"; "VARCHAR";
  "VARIABLE"; "VARIANCE"; "VARINT"; "VARYING"; "VIEW"; "VIEWS"; "VIRTUAL";
  "VOID"; "WAIT"; "WHEN"; "WHENEVER"; "WHERE"; "WHILE"; "WINDOW"; "WITH";
  "WITHIN"; "WITHOUT"; "WORK"; "WRAPPED"; "WRITE"; "YEAR"; "ZONE"
].

Definition RESERVED_KEYWORD_PREFIX : string := "#reserved_".

(** [c.toUpperCase()] on one ASCII character. *)
Definition upper_ascii (c : ascii) : ascii :=
  let n := nat_of_ascii c in
  if andb (Nat.leb 97 n) (Nat.leb n 122) then ascii_of_nat (n - 32) else c.

Fixpoint toUpperCase (s : string) : string :=
  match s with
  | EmptyString => EmptyString
  | String c rest => String (upper_ascii c) (toUpperCase rest)
  end.

Definition isReservedKey (key : string) : bool :=
  existsb (String.eqb (toUpperCase key)) RESERVED_KEYWORDS.

(** The attribute name alias used in expressions for [key]. *)
Definition mappedKey (prefix key : string) : string :=
  if isReservedKey key then RESERVED_KEYWORD_PREFIX +:+ key else prefix +:+ key.

(** [unmarshall] is the SDK's; items are taken in their unmarshalled
    form. *)
Definition unmarshallReservedKeys (data : Document) : Document :=
  fold_left
    (fun acc e =>
       let key := fst e in
       let mapped :=
         if JsString.startsWith RESERVED_KEYWORD_PREFIX key
         then JsString.replace RESERVED_KEYWORD_PREFIX "" key
         else key in
       Obj.set acc mapped (snd e))
    data [].

Definition getExpressionAttributeNames (payload : Document) (prefix : string)
  : option (JsRecord string) :=
  let attributeNames :=
    fold_left
      (fun acc e =>
         if is_undefined (snd e) then acc
         else Obj.set acc (mappedKey prefix (fst e)) (fst e))
      payload [] in
  match attributeNames with [] => None | _ => Some attributeNames end.

(** The callback that [getUpdateExpression] passes to [reduce]. *)
Definition updateExpressionStep (keyPrefix valuePrefix : string)
    (acc : string) (e : string * jsval) (index : nat) : string :=
  if is_undefined (snd e) then acc
  else
    let mk := mappedKey keyPrefix (fst e) in
    if Nat.eqb index 0 then "SET " +:+ mk +:+ " = " +:+ valuePrefix +:+ fst e
    else acc +:+ ", " +:+ mk +:+ " = " +:+ valuePrefix +:+ fst e.

Definition getUpdateExpression (payload : Document) (keyPrefix valuePrefix : string)
  : option string :=
  let expression := reduce (updateExpressionStep keyPrefix valuePrefix) payload "" in
  if String.eqb expression "" then None else Some expression.

Definition getConditionExpression (payload : Document) (keyPrefix valuePrefix : string)
  : option string :=
  let expression :=
    reduce
      (fun acc e index =>
         if is_undefined (snd e) then acc
         else
           let mk := mappedKey keyPrefix (fst e) in
           if Nat.eqb index 0 then mk +:+ " = " +:+ valuePrefix +:+ fst e
           else acc +:+ " AND " +:+ mk +:+ " = " +:+ valuePrefix +:+ fst e)
      payload "" in
  if String.eqb expression "" then None else Some expression.

(** The [default] branch of the source is unreachable for a [SkMatch]. *)
Definition getKeyConditionExpression (queryIndex : DbIndex) (skMatch : SkMatch)
    (valuePrefix : string) : string :=
  let pk := partitionKey queryIndex in
  let sk := sortKey queryIndex in
  match skMatch with
  | exact => pk +:+ " = " +:+ valuePrefix +:+ "pk AND " +:+ sk +:+ " = " +:+ valuePrefix +:+ "sk"
  | begins_with =>
      pk +:+ " = " +:+ valuePrefix +:+ "pk AND begins_with(" +:+ sk +:+ ", " +:+ valuePrefix +:+ "sk)"
  | greater_than => pk +:+ " = " +:+ valuePrefix +:+ "pk AND " +:+ sk +:+ " > " +:+ valuePrefix +:+ "sk"
  | less_than => pk +:+ " = " +:+ valuePrefix +:+ "pk AND " +:+ sk +:+ " < " +:+ valuePrefix +:+ "sk"
  | greater_than_or_equal =>
      pk +:+ " = " +:+ valuePrefix +:+ "pk AND " +:+ sk +:+ " >= " +:+ valuePrefix +:+ "sk"
  | less_than_or_equal =>
      pk +:+ " = " +:+ valuePrefix +:+ "pk AND " +:+ sk +:+ " <= " +:+ valuePrefix +:+ "sk"
  end.

Definition removeUndefined (o : Document) : Document :=
  Obj.fromEntries (List.filter (fun e => negb (is_undefined (snd e))) o).

Definition mergeResources (resources : list Document) : Document :=
  fold_left (fun acc resource => Obj.spread acc (removeUndefined resource)) resources [].

Definition replaceFieldWithValue (field : string) (resource : Document) : string :=
  fold_left
    (fun result m =>
       let matchedPattern := fst m in
       let requiredField := snd m in
       let fieldValue := Obj.get resource requiredField in
       if js_truthy fieldValue
       then JsString.replace matchedPattern (js_String fieldValue) result
       else result)
    (JsString.exec_all field) field.

Definition removeIndexProperties (resource : Document) (indexFieldsMap : IndexFieldsMap)
  : Document :=
  let forbiddenFields := Obj.keys indexFieldsMap in
  Obj.fromEntries
    (List.filter (fun e => existsb (String.eqb (fst e)) forbiddenFields) resource).

(** ** Errors and results *)

Record CancellationReason : Type := mkReason {
  Code : option string;
  Message : option string;
}.

(** What the code throws. Messages that interpolate [JSON.stringify] of
    a value carry that value instead of the text. *)
Inductive exn : Type :=
(** the SDK's exception for an aborted [TransactWriteItems] *)
| TransactionCanceledException (CancellationReasons : option (list CancellationReason))
(** any other exception of the SDK client (network, throttling, ...) *)
| SdkException (name : string)
(** [marshall] on an [undefined] value without [removeUndefinedValues]:
    [Pass options.removeUndefinedValues=true to remove undefined values
    from map/array/set.] *)
| MarshallError
(** [marshall] on a number outside the safe integers: [Number ${n} is
    greater than Number.MAX_SAFE_INTEGER. Use BigInt.], or [lesser than
    Number.MIN_SAFE_INTEGER] *)
| MarshallNumberError (n : Z)
(** [marshall] on a function that is not the value of a property:
    [Unsupported type passed: ${data}. ...] *)
| MarshallUnsupportedType (name : string)
(** [JSON.parse] on text that is not JSON *)
| SyntaxError
(** [Failed to query for resources ${JSON.stringify(response)}] *)
| Error_QueryFailed (httpStatusCode : Z)
(** [Found more than one resource for ${JSON.stringify(queryIndexValues)}] *)
| Error_MoreThanOne (queryIndexValues : Document)
(** [Failed to insert resource ${entityName}] *)
| Error_InsertFailed (entityName : string)
(** [Failed to update resource ${entityName}] *)
| Error_UpdateFailed (entityName : string)
(** [new ConditionCheckError(`Failed to delete resource ${entityName} ${JSON.stringify(filter)}`)] *)
| ConditionCheckError (entityName : string) (filter : Document)
(** [new UniqueContraintError(`Failed to insert unique constraint for one of [${values.join(', ')}]`)] *)
| UniqueContraintError (values : list jsval)
(** [Failed to delete unique constraint for ${entityName} ${values.join(' ')}] *)
| Error_RemoveConstraintFailed (entityName : string) (values : list jsval)
(** [Failed to execute transactions ${JSON.stringify(response)}] *)
| Error_TransactionFailed (httpStatusCode : Z)
(** [A conditional check error has not been handled ${index} ${JSON.stringify(reason)}] *)
| Error_Unhandled (index : Z) (reason : CancellationReason).

Inductive result (A : Type) : Type :=
| Ok (a : A)
| Throw (e : exn).

Arguments Ok {A} a.
Arguments Throw {A} e.

Definition result_bind {A B} (r : result A) (k : A -> result B) : result B :=
  match r with
  | Ok a => k a
  | Throw e => Throw e
  end.

(** [try { body } catch { handler }] without state. *)
Definition result_catch {A} (body : result A) (handler : exn -> result A) : result A :=
  match body with
  | Ok a => Ok a
  | Throw e => handler e
  end.

(** ** [marshall] of [@aws-sdk/util-dynamodb]

    The attribute values it builds are taken in their unmarshalled
    form: the value that [unmarshall] gives back for them. Numbers being
    integers, [NaN] and the infinities, which it refuses too, do not
    arise. A record is a plain object, which it recognises by the
    inherited [constructor]: no own property is taken to have that
    name. *)

Definition MAX_SAFE_INTEGER : Z := 9007199254740991.

(** [typeof v === 'function']. *)
Definition is_function (v : jsval) : bool :=
  match v with JFunction _ => true | _ => false end.

(** What the conversion of a map leaves out: a function-valued property,
    and an [undefined] one when those are to be removed. *)
Definition skipped (removeUndefinedValues : bool) (v : jsval) : bool :=
  is_function v || (is_undefined v && removeUndefinedValues).

(** The properties that are not left out, converted in order; the first
    exception ends the conversion. *)
Fixpoint convertEntries (skip : jsval -> bool) (convert : jsval -> result jsval)
    (l : list (string * jsval)) : result (list (string * jsval)) :=
  match l with
  | [] => Ok []
  | e :: rest =>
      if skip (snd e) then convertEntries skip convert rest
      else
        result_bind (convert (snd e)) (fun attr =>
        result_bind (convertEntries skip convert rest) (fun map =>
        Ok ((fst e, attr) :: map)))
  end.

(** [convertToAttr(data, { removeUndefinedValues })]: [undefined], a
    number outside the safe integers and a function are refused; a map
    is converted property by property. *)
Fixpoint convertToAttr (removeUndefinedValues : bool) (data : jsval) : result jsval :=
  match data with
  | JUndefined => Throw MarshallError
  | JNull => Ok JNull
  | JBool b => Ok (JBool b)
  | JNum n =>
      if (MAX_SAFE_INTEGER <? n) || (n <? - MAX_SAFE_INTEGER)
      then Throw (MarshallNumberError n)
      else Ok (JNum n)
  | JStr s => Ok (JStr s)
  | JObj fields =>
      result_bind
        (convertEntries (skipped removeUndefinedValues)
           (convertToAttr removeUndefinedValues) fields)
        (fun map => Ok (JObj map))
  | JFunction name => Throw (MarshallUnsupportedType name)
  end.

(** [marshall(data, { removeUndefinedValues })] on a record. *)
Definition marshall (data : Document) (removeUndefinedValues : bool) : result Document :=
  convertEntries (skipped removeUndefinedValues) (convertToAttr removeUndefinedValues) data.

(** [marshall(value, { convertTopLevelContainer: true,
    removeUndefinedValues: true })] on one value. *)
Definition marshall_value (value : jsval) : result jsval := convertToAttr true value.

(** The callback that [getExpressionAttributeValues] passes to
    [reduce]; an exception of [marshall] ends the reduction. *)
Definition attributeValuesStep (prefix : string) (acc : result Document)
    (e : string * jsval) : result Document :=
  result_bind acc (fun acc =>
    if is_undefined (snd e) then Ok acc
    else result_bind (marshall_value (snd e)) (fun attr =>
         Ok (Obj.set acc (prefix +:+ fst e) attr))).

Definition getExpressionAttributeValues (payload : Document) (prefix : string)
  : result (option Document) :=
  result_bind (fold_left (attributeValuesStep prefix) payload (Ok []))
    (fun attributeValues =>
       match attributeValues with
       | [] => Ok None
       | _ => Ok (Some attributeValues)
       end).

(** ** The store and the runtime *)

Record PutInput : Type := mkPut {
  put_TableName : string;
  put_ConditionExpression : string;
  put_Item : Document;
}.

Record UpdateInput : Type := mkUpdate {
  upd_TableName : string;
  upd_Key : Document;
  upd_ConditionExpression : option string;
  upd_UpdateExpression : option string;
  upd_ExpressionAttributeNames : JsRecord string;
  upd_ExpressionAttributeValues : Document;
}.

Record DeleteInput : Type := mkDelete {
  del_TableName : string;
  del_Key : Document;
  del_ConditionExpression : option string;
  del_ExpressionAttributeNames : option (JsRecord string);
  del_ExpressionAttributeValues : option Document;
}.

Inductive TransactWriteItem : Type :=
| Put (input : PutInput)
| Update (input : UpdateInput)
| Delete (input : DeleteInput).

Record QueryCommandInput : Type := mkQueryInput {
  q_TableName : string;
  q_IndexName : option string;
  q_KeyConditionExpression : string;
  q_ExpressionAttributeValues : Document;
  q_Limit : option Z;
  q_ExclusiveStartKey : jsval;
  q_ScanIndexForward : bool;
}.

Record QueryCommandOutput : Type := mkQueryOutput {
  q_httpStatusCode : Z;
  q_Items : option (list Document);
  q_LastEvaluatedKey : jsval;
}.

(** What the code takes from outside: the SDK client ([send] of a
    [QueryCommand] and of a [TransactWriteItemsCommand], returning the
    response or throwing), [JSON] and [Buffer]. *)
Record Runtime : Type := mkRuntime {
  send_query : QueryCommandInput -> result QueryCommandOutput;
  (** the response's [$metadata.httpStatusCode] *)
  send_transact : list TransactWriteItem -> result Z;
  JSON_stringify : jsval -> string;
  JSON_parse : string -> result jsval;
  (** [Buffer.from(s).toString('base64')] *)
  Buffer_to_base64 : string -> string;
  (** [Buffer.from(s, 'base64').toString('utf-8')] *)
  Buffer_from_base64 : string -> string;
}.

Definition encodeLastEvaluatedKey (rt : Runtime) (lastEvaluatedKey : jsval) : option string :=
  if negb (js_truthy lastEvaluatedKey) then None
  else Some (Buffer_to_base64 rt (JSON_stringify rt lastEvaluatedKey)).

Definition decodeLastEvaluatedKey (rt : Runtime) (lastEvaluatedKey : string) : result jsval :=
  result_catch
    (JSON_parse rt (Buffer_from_base64 rt lastEvaluatedKey))
    (fun _ => Ok JUndefined).

(** ** The transaction scratch state and its monad *)

Record Scratch : Type := mkScratch {
  items : list TransactWriteItem;
  errorPayloads : gmap string exn;
}.

Definition M (A : Type) : Type := Scratch -> result A * Scratch.

Definition ret {A} (a : A) : M A := fun s => (Ok a, s).

Definition throw {A} (e : exn) : M A := fun s => (Throw e, s).

Definition bind {A B} (m : M A) (k : A -> M B) : M B :=
  fun s =>
    match m s with
    | (Ok a, s') => k a s'
    | (Throw e, s') => (Throw e, s')
    end.

Definition lift {A} (r : result A) : M A := fun s => (r, s).

Definition get_scratch : M Scratch := fun s => (Ok s, s).

Definition put_scratch (s' : Scratch) : M unit := fun _ => (Ok tt, s').

Notation "'let*' x ':=' m 'in' k" := (bind m (fun x => k))
  (at level 10, x name, m at level 100, k at level 200).
Notation "m ';;;' k" := (bind m (fun _ => k))
  (at level 100, k at level 200, right associativity).

(** [try { body } catch (e) { handler e } finally { finalizer }]: the
    finalizer runs on every path; when it completes normally the
    completion of the [try]/[catch] part stands. *)
Definition try_catch_finally {A} (body : M A) (handler : exn -> M A) (finalizer : M unit) : M A :=
  fun s =>
    let (r1, s1) := body s in
    let (r2, s2) := match r1 with
                    | Ok a => (Ok a, s1)
                    | Throw e => handler e s1
                    end in
    match finalizer s2 with
    | (Ok _, s3) => (r2, s3)
    | (Throw e, s3) => (Throw e, s3)
    end.

(** [arr.forEach((x, index) => f x index)], counting from [index]; an
    exception thrown by the callback ends the loop. *)
Fixpoint forEach_from {A} (f : A -> Z -> M unit) (index : Z) (l : list A) : M unit :=
  match l with
  | [] => ret tt
  | x :: rest => f x index ;;; forEach_from f (index + 1) rest
  end.

Definition forEach {A} (f : A -> Z -> M unit) (l : list A) : M unit := forEach_from f 0 l.

(** ** db_model.ts *)

Record BuildIndexesConfig : Type := mkBuildConfig {
  truncateAtFirstEmpty : bool;
  onlyFields : option (list string);
}.

Record QueryConfig : Type := mkQueryConfig {
  skMatch : SkMatch;
  limit : option Z;
  lastId : option string;
  sort : option SortOrder;
}.

Record QueryOneConfig : Type := mkQueryOneConfig {
  one_skMatch : SkMatch;
  one_sort : option SortOrder;
}.

Record PaginatedDbResult : Type := mkPage {
  data : list Document;
  page_lastId : option string;
}.

(** The read-only fields of a [DbModel] instance. *)
Record DbModel : Type := mkDbModel {
  tenantId : string;
  entityName : string;
  writeIndex : DbIndex;
  indexFieldsMap : IndexFieldsMap;
}.

Definition indexValueSeparator : string := "#".
Definition uniqueSortKeyValue : string := "Unique".

(** The key of [errorPayloads]: [`${reason}-${index}`]. *)
Definition errorKey (reason : string) (index : Z) : string :=
  reason +:+ "-" +:+ JsString.of_Z index.

Definition trxSetErrorHandler (reason : string) (payload : exn) : M unit :=
  let* s := get_scratch in
  let index := Z.of_nat (List.length (items s)) - 1 in
  put_scratch (mkScratch (items s) (<[errorKey reason index := payload]> (errorPayloads s))).

(** [`${reason.Code}`]. *)
Definition code_text (reason : CancellationReason) : string :=
  match Code reason with
  | Some c => c
  | None => "undefined"
  end.

(** [reason.Code === 'None']. *)
Definition code_is_None (reason : CancellationReason) : bool :=
  match Code reason with
  | Some c => String.eqb c "None"
  | None => false
  end.

(** The callback that [trxHandleError] passes to [forEach]. *)
Definition handle_reason (reason : CancellationReason) (index : Z) : M unit :=
  if code_is_None reason then ret tt
  else
    let key := errorKey (code_text reason) index in
    let* s := get_scratch in
    match errorPayloads s !! key with
    | Some payload => throw payload
    | None => throw (Error_Unhandled index reason)
    end.

Definition trxHandleError (error : exn) : M unit :=
  match error with
  | TransactionCanceledException (Some reasons) => forEach handle_reason reasons
  | _ => ret tt
  end.

(** The error for the entry [reason] at position [index]: the one
    registered under that code and position, or else the unclassified
    error that names the position and the entry. *)
Definition raised_for (s : Scratch) (reason : CancellationReason) (index : Z) : exn :=
  match errorPayloads s !! errorKey (code_text reason) index with
  | Some payload => payload
  | None => Error_Unhandled index reason
  end.

(** One assignment of an update expression. *)
Definition setClause (keyPrefix valuePrefix : string) (e : string * jsval) : string :=
  mappedKey keyPrefix (fst e) +:+ " = " +:+ valuePrefix +:+ fst e.

(** [v !== undefined] on the value of an entry. *)
Definition defined_entry (e : string * jsval) : bool := negb (is_undefined (snd e)).

(** The entry of the name map for a payload entry, and that of the
    value map. *)
Definition nameEntry (prefix : string) (e : string * jsval) : string * string :=
  (mappedKey prefix (fst e), fst e).

Definition valueEntry (prefix : string) (e : string * jsval) : string * jsval :=
  (prefix +:+ fst e, snd e).

(** The value computed for one entry of the index configuration. *)
Definition buildIndexValue (self : DbModel) (resource : Document) (indexConfig : list string)
  : string :=
  let indexValue := JsString.join indexValueSeparator (tenantId self :: indexConfig) in
  let indexValue := replaceFieldWithValue indexValue resource in
  if JsString.includes_char JsString.lbrace indexValue
  then JsString.split_head JsString.lbrace indexValue
  else indexValue.

(** [config.onlyFields === undefined || config.onlyFields.includes(key)]. *)
Definition selected (config : BuildIndexesConfig) (key : string) : bool :=
  match onlyFields config with
  | None => true
  | Some fields => existsb (String.eqb key) fields
  end.

Definition buildIndexes (self : DbModel) (resource : Document) (indexConfig : IndexFieldsMap)
    (config : BuildIndexesConfig) : JsRecord string :=
  fold_left
    (fun indexValues e => Obj.set indexValues (fst e) (buildIndexValue self resource (snd e)))
    (List.filter (fun e => selected config (fst e)) indexConfig)
    [].

(** [indexValues[k]] as a value: the string, or [undefined]. *)
Definition index_value (indexValues : JsRecord string) (k : string) : jsval :=
  match Obj.lookup indexValues k with
  | Some v => JStr v
  | None => JUndefined
  end.

(** [if (s)] on an optional string. *)
Definition string_truthy (s : option string) : bool :=
  match s with
  | Some v => negb (String.eqb v "")
  | None => false
  end.

Definition query (rt : Runtime) (self : DbModel) (queryIndexValues : Document)
    (queryIndex : DbIndex) (config : QueryConfig) : result PaginatedDbResult :=
  let indexValues :=
    buildIndexes self queryIndexValues (indexFieldsMap self)
      (mkBuildConfig
         (match skMatch config with exact => false | _ => true end)
         (Some [partitionKey queryIndex; sortKey queryIndex])) in
  let keyConditionExpression := getKeyConditionExpression queryIndex (skMatch config) ":" in
  result_bind
    (marshall
       [(":pk", index_value indexValues (partitionKey queryIndex));
        (":sk", index_value indexValues (sortKey queryIndex))]
       false)
    (fun expressionAttributeValues =>
       result_bind
         (if string_truthy (lastId config)
          then decodeLastEvaluatedKey rt (default "" (lastId config))
          else Ok JUndefined)
         (fun exclusiveStartKey =>
            let command :=
              mkQueryInput
                (tableName queryIndex)
                (indexName queryIndex)
                keyConditionExpression
                expressionAttributeValues
                (limit config)
                exclusiveStartKey
                (match sort config with Some desc => false | _ => true end) in
            result_bind (send_query rt command)
              (fun response =>
                 if negb (q_httpStatusCode response =? 200)
                 then Throw (Error_QueryFailed (q_httpStatusCode response))
                 else
                   match q_Items response with
                   | None | Some [] => Ok (mkPage [] None)
                   | Some its =>
                       let lastId := encodeLastEvaluatedKey rt (q_LastEvaluatedKey response) in
                       let items :=
                         map (fun data => removeIndexProperties data (indexFieldsMap self))
                           (map unmarshallReservedKeys its) in
                       Ok (mkPage items lastId)
                   end))).

(** [null] is [None]. *)
Definition queryOne (rt : Runtime) (self : DbModel) (queryIndexValues : Document)
    (queryIndex : DbIndex) (config : QueryOneConfig) : result (option Document) :=
  result_bind
    (query rt self queryIndexValues queryIndex
       (mkQueryConfig (one_skMatch config) (Some 1) None (one_sort config)))
    (fun results =>
       if Nat.eqb (List.length (data results)) 0 then Ok None
       else if Nat.ltb 1 (List.length (data results))
            then Throw (Error_MoreThanOne queryIndexValues)
            else Ok (nth_error (data results) 0)).

(** [this.items.push(item)]. *)
Definition push_item (item : TransactWriteItem) : M unit :=
  let* s := get_scratch in
  put_scratch (mkScratch (items s ++ [item]) (errorPayloads s)).

(** A record of strings read as a document. *)
Definition strings_as_document (o : JsRecord string) : Document :=
  map (fun e => (fst e, JStr (snd e))) o.

(** [`attribute_not_exists(${pk}) AND attribute_not_exists(${sk})`]. *)
Definition notExistsCondition (index : DbIndex) : string :=
  "attribute_not_exists(" +:+ partitionKey index +:+ ") AND attribute_not_exists("
    +:+ sortKey index +:+ ")".

(** The three fields returned by [trxInsertOne]. *)
Record Inserted : Type := mkInserted {
  ins_id : string;
  ins_createdAt : jsval;
  ins_updatedAt : jsval;
}.

(** [id] is the result of [generateUUID()], [now] that of
    [Date.now() / 1000]. *)
Definition trxInsertOne (self : DbModel) (id : string) (now : jsval) (data : Document)
  : M Inserted :=
  let baseData :=
    Obj.assign (Obj.assign [] data)
      [("id", JStr id); ("createdAt", now); ("updatedAt", now)] in
  let indexFields :=
    buildIndexes self baseData (indexFieldsMap self) (mkBuildConfig false None) in
  let createData := Obj.spread baseData (strings_as_document indexFields) in
  let* item := lift (marshall createData true) in
  push_item
    (Put (mkPut (tableName (writeIndex self)) (notExistsCondition (writeIndex self)) item)) ;;;
  trxSetErrorHandler "ConditionalCheckFailed" (Error_InsertFailed (entityName self)) ;;;
  ret (mkInserted id now now).

(** [{ ...a, ...b }] where either operand may be [undefined]. *)
Definition spread_optional {V} (a b : option (JsRecord V)) : JsRecord V :=
  Obj.spread (default [] a) (default [] b).

(** [{ ...removeUndefined(data), updatedAt: now }]. *)
Definition updateBaseData (now : Z) (data : Document) : Document :=
  Obj.assign (Obj.assign [] (removeUndefined data)) [("updatedAt", JNum now)].

(** The index attributes recomputed from the old resource merged with
    the new data. *)
Definition updateIndexFields (self : DbModel) (baseData oldResource : Document)
  : JsRecord string :=
  let resource := mergeResources [oldResource; baseData] in
  buildIndexes self resource (indexFieldsMap self) (mkBuildConfig false None).

(** The rest of [const { [pk]: pkValue, [sk]: skValue, ...rest } = o]. *)
Definition restWithout {V} (pk sk : string) (o : JsRecord V) : JsRecord V :=
  List.filter
    (fun e => negb (String.eqb (fst e) pk) && negb (String.eqb (fst e) sk))
    o.

(** [updateData]: what the update expression and its name and value
    maps are compiled from. *)
Definition updateDataOf (self : DbModel) (baseData : Document) (indexFields : JsRecord string)
  : Document :=
  let queryIndexes :=
    restWithout (partitionKey (writeIndex self)) (sortKey (writeIndex self)) indexFields in
  Obj.spread baseData (strings_as_document queryIndexes).

(** [clock] is the result of [Date.now()]. *)
Definition trxUpdateOne (self : DbModel) (clock : Z) (data oldResource filter : Document)
  : M unit :=
  let now := Z.quot clock 1000 in
  let baseData := updateBaseData now data in
  let indexFields := updateIndexFields self baseData oldResource in
  let pkValue := index_value indexFields (partitionKey (writeIndex self)) in
  let skValue := index_value indexFields (sortKey (writeIndex self)) in
  let updateData := updateDataOf self baseData indexFields in
  let updateExpression := getUpdateExpression updateData "#" ":" in
  let updateExpressionNames := getExpressionAttributeNames updateData "#" in
  let* updateExpressionValues := lift (getExpressionAttributeValues updateData ":") in
  let filterExpression := getConditionExpression filter "fn" "fv" in
  let filterExpressionNames := getExpressionAttributeNames filter "fn" in
  let* filterExpressionValues := lift (getExpressionAttributeValues filter "fv") in
  let expressionAttributeNames := spread_optional updateExpressionNames filterExpressionNames in
  let expressionAttributeValues := spread_optional updateExpressionValues filterExpressionValues in
  let* key :=
    lift (marshall
            (Obj.set (Obj.set [] (partitionKey (writeIndex self)) pkValue)
               (sortKey (writeIndex self)) skValue)
            false) in
  push_item
    (Update
       (mkUpdate (tableName (writeIndex self)) key filterExpression updateExpression
          expressionAttributeNames expressionAttributeValues)) ;;;
  trxSetErrorHandler "ConditionalCheckFailed" (Error_UpdateFailed (entityName self)).

Definition trxDeleteOne (self : DbModel) (oldResource filter : Document) : M unit :=
  let writeIndexes :=
    buildIndexes self oldResource (indexFieldsMap self)
      (mkBuildConfig false
         (Some [partitionKey (writeIndex self); sortKey (writeIndex self)])) in
  let* key := lift (marshall (strings_as_document writeIndexes) false) in
  let* expressionAttributeValues := lift (getExpressionAttributeValues filter ":") in
  push_item
    (Delete
       (mkDelete (tableName (writeIndex self)) key
          (getConditionExpression filter "#" ":")
          (getExpressionAttributeNames filter "#")
          expressionAttributeValues)) ;;;
  trxSetErrorHandler "ConditionalCheckFailed" (ConditionCheckError (entityName self) filter).

(** How [Array.prototype.join] prints one element. *)
Definition join_element (v : jsval) : string :=
  match v with
  | JUndefined | JNull => ""
  | _ => js_String v
  end.

(** The synthetic row of a unique constraint. *)
Definition constraintRow (self : DbModel) (values : list jsval) : Document :=
  Obj.set
    (Obj.set [] (partitionKey (writeIndex self))
       (JStr (JsString.join indexValueSeparator
                (tenantId self :: entityName self :: map join_element values))))
    (sortKey (writeIndex self)) (JStr uniqueSortKeyValue).

Definition trxInsertUniqueConstraint (self : DbModel) (values : list jsval) : M unit :=
  let* item := lift (marshall (constraintRow self values) true) in
  push_item
    (Put (mkPut (tableName (writeIndex self)) (notExistsCondition (writeIndex self)) item)) ;;;
  trxSetErrorHandler "ConditionalCheckFailed" (UniqueContraintError values).

Definition trxRemoveUniqueConstraint (self : DbModel) (values : list jsval) : M unit :=
  let* key := lift (marshall (constraintRow self values) false) in
  push_item (Delete (mkDelete (tableName (writeIndex self)) key None None None)) ;;;
  trxSetErrorHandler "ConditionalCheckFailed"
    (Error_RemoveConstraintFailed (entityName self) values).

Definition emptyScratch : Scratch := mkScratch [] ∅.

Definition trxExecute (rt : Runtime) : M unit :=
  try_catch_finally
    (let* s := get_scratch in
     let* httpStatusCode := lift (send_transact rt (items s)) in
     if negb (httpStatusCode =? 200)
     then throw (Error_TransactionFailed httpStatusCode)
     else ret tt)
    (fun error => trxHandleError error ;;; throw error)
    (put_scratch emptyScratch).

(** ** Templates as the specification describes them

    A template is a list of pieces, literal text or a placeholder for a
    field; [render] gives the text the code works on, [interpret] is the
    left-to-right evaluation with truncation at the first placeholder
    that has no truthy value. *)

Inductive piece : Type :=
| Lit (text : string)
| Hole (field : string).

Definition render_piece (p : piece) : string :=
  match p with
  | Lit text => text
  | Hole field => String JsString.lbrace (field +:+ String JsString.rbrace EmptyString)
  end.

Fixpoint render (ps : list piece) : string :=
  match ps with
  | [] => EmptyString
  | p :: rest => render_piece p +:+ render rest
  end.

(** A literal has no opening brace; a field name is not empty, has no
    brace and is not the name of something every object inherits. *)
Definition wf_piece (p : piece) : bool :=
  match p with
  | Lit text => negb (JsString.includes_char JsString.lbrace text)
  | Hole field =>
      negb (String.eqb field "")
      && negb (JsString.includes_char JsString.lbrace field)
      && negb (JsString.includes_char JsString.rbrace field)
      && is_undefined (Obj.inherited field)
  end.

(** A value whose text has no opening brace and no dollar sign. *)
Definition plain_value (v : jsval) : bool :=
  negb (JsString.includes_char JsString.lbrace (js_String v))
  && negb (JsString.includes_char JsString.dollar (js_String v)).

(** The truthy values that the placeholders of a template read are
    plain. *)
Definition plain_hole (resource : Document) (p : piece) : bool :=
  match p with
  | Lit _ => true
  | Hole field =>
      if js_truthy (Obj.get resource field) then plain_value (Obj.get resource field) else true
  end.

(** Every placeholder of the template reads a truthy plain value. *)
Definition resolved_piece (resource : Document) (p : piece) : bool :=
  match p with
  | Lit _ => true
  | Hole field => js_truthy (Obj.get resource field) && plain_value (Obj.get resource field)
  end.


(** The text a resolved piece stands for. *)
Definition piece_text (resource : Document) (p : piece) : string :=
  match p with
  | Lit text => text
  | Hole field => js_String (Obj.get resource field)
  end.

Fixpoint interpret (resource : Document) (ps : list piece) : string :=
  match ps with
  | [] => EmptyString
  | Lit text :: rest => text +:+ interpret resource rest
  | Hole field :: rest =>
      if js_truthy (Obj.get resource field)
      then js_String (Obj.get resource field) +:+ interpret resource rest
      else EmptyString
  end.

(** The pieces of [[tenantId, ...segments].join('#')]. *)
Definition keyTemplate (tenant : string) (segments : list piece) : list piece :=
  Lit tenant :: flat_map (fun p => [Lit indexValueSeparator; p]) segments.

(** The fields named by the placeholders, in order. *)
Definition holes (ps : list piece) : list string :=
  flat_map (fun p => match p with Lit _ => [] | Hole field => [field] end) ps.

(** The key built from a template whose first placeholders are resolved
    and whose next one is not: the texts of the first pieces, joined,
    and the separator that precedes the unresolved placeholder. *)
Definition keyPrefix (self : DbModel) (resource : Document) (pre : list piece) : string :=
  JsString.join indexValueSeparator (tenantId self :: map (piece_text resource) pre)
    +:+ indexValueSeparator.

(** The truncation property for a given reading [good] of "the entity
    supplies a value for this placeholder": the template of the key
    attribute [attr] is [pre], a placeholder [f] and [post]; the
    placeholders of [pre] are supplied, [f] and those of [post] are not
    properties of the entity. *)
Definition truncation_statement (good : Document -> piece -> bool) : Prop :=
  forall (self : DbModel) (entity : Document) (cfg : IndexFieldsMap)
         (config : BuildIndexesConfig) (attr : string) (pre : list piece) (f : string)
         (post : list piece),
    Obj.wf cfg = true ->
    Obj.lookup cfg attr = Some (map render_piece (pre ++ Hole f :: post)) ->
    selected config attr = true ->
    JsString.includes_char JsString.lbrace (tenantId self) = false ->
    forallb wf_piece (pre ++ Hole f :: post) = true ->
    forallb (good entity) pre = true ->
    forallb (fun g => negb (Obj.has entity g)) (holes (Hole f :: post)) = true ->
    Obj.lookup (buildIndexes self entity cfg config) attr = Some (keyPrefix self entity pre).


(** One step of substitution on a piece: a placeholder with a truthy
    value becomes that value's text. *)
Definition subst_piece (resource : Document) (p : piece) : piece :=
  match p with
  | Lit text => Lit text
  | Hole field =>
      if js_truthy (Obj.get resource field)
      then Lit (js_String (Obj.get resource field))
      else Hole field
  end.

(** A piece that no later replacement can touch: text without an opening
    brace, or a well-formed placeholder that has no truthy value. *)
Definition settled (resource : Document) (p : piece) : bool :=
  match p with
  | Lit text => negb (JsString.includes_char JsString.lbrace text)
  | Hole field => wf_piece (Hole field) && negb (js_truthy (Obj.get resource field))
  end.

(** The match that [exec] reports for a placeholder. *)
Definition match_of (field : string) : string * string := (render_piece (Hole field), field).

(** One iteration of the loop of [replaceFieldWithValue]. *)
Definition replace_step (resource : Document) (result : string) (m : string * string) : string :=
  if js_truthy (Obj.get resource (snd m))
  then JsString.replace (fst m) (js_String (Obj.get resource (snd m))) result
  else result.

(** ** A runtime for the examples

    A base64 codec over the bytes of a text and a small JSON printer
    and reader, enough to run the cursor codec on the keys this library
    writes. *)

Module Base64.

Local Open Scope nat_scope.

(** The 64 digits. *)
Definition alphabet : string :=
  "ABCDEFGHIJKLMNOPQRSTUVWXYZabcdefghijklmnopqrstuvwxyz0123456789+/".

Definition sextet_char (n : nat) : ascii :=
  match String.get n alphabet with Some c => c | None => "="%char end.

Fixpoint index_of (c : ascii) (s : string) : option nat :=
  match s with
  | EmptyString => None
  | String a rest => if Ascii.eqb a c then Some O else option_map S (index_of c rest)
  end.

(** Three bytes give four digits; the last group is padded. *)
Fixpoint encode_bytes (bytes : list nat) : list ascii :=
  match bytes with
  | [] => []
  | [a] =>
      [sextet_char (a / 4); sextet_char ((a mod 4) * 16); "="%char; "="%char]
  | [a; b] =>
      [sextet_char (a / 4); sextet_char ((a mod 4) * 16 + b / 16);
       sextet_char ((b mod 16) * 4); "="%char]
  | a :: b :: c :: rest =>
      sextet_char (a / 4) :: sextet_char ((a mod 4) * 16 + b / 16)
        :: sextet_char ((b mod 16) * 4 + c / 64) :: sextet_char (c mod 64)
        :: encode_bytes rest
  end.

(** Four digits give three bytes; characters that are not digits are
    passed over beforehand. *)
Fixpoint decode_sextets (sextets : list nat) : list nat :=
  match sextets with
  | a :: b :: c :: d :: rest =>
      (a * 4 + b / 16) :: ((b mod 16) * 16 + c / 4) :: ((c mod 4) * 64 + d)
        :: decode_sextets rest
  | [a; b; c] => [a * 4 + b / 16; (b mod 16) * 16 + c / 4]
  | [a; b] => [a * 4 + b / 16]
  | _ => []
  end.

Definition bytes_of (s : string) : list nat := map nat_of_ascii (list_ascii_of_string s).
Definition text_of (bytes : list nat) : string := string_of_list_ascii (map ascii_of_nat bytes).

Definition to_base64 (s : string) : string := string_of_list_ascii (encode_bytes (bytes_of s)).

Definition from_base64 (s : string) : string :=
  text_of
    (decode_sextets
       (flat_map (fun c => match index_of c alphabet with Some n => [n] | None => [] end)
          (list_ascii_of_string s))).
End Base64.

Module Json.

Local Open Scope nat_scope.

Definition quote : ascii := ascii_of_nat 34.
Definition backslash : ascii := ascii_of_nat 92.

Fixpoint escape (s : string) : string :=
  match s with
  | EmptyString => EmptyString
  | String c rest =>
      if Ascii.eqb c quote || Ascii.eqb c backslash
      then String backslash (String c (escape rest))
      else String c (escape rest)
  end.

Definition quoted (s : string) : string :=
  String quote (escape s +:+ String quote EmptyString).

(** [undefined] has no text, and a field that holds it is left out. *)
Fixpoint stringify (v : jsval) : option string :=
  match v with
  | JUndefined => None
  | JNull => Some "null"
  | JBool true => Some "true"
  | JBool false => Some "false"
  | JNum n => Some (JsString.of_Z n)
  | JStr s => Some (quoted s)
  | JFunction _ => None
  | JObj fields =>
      let members :=
        (fix members (fs : list (string * jsval)) : list string :=
           match fs with
           | [] => []
           | (k, v') :: rest =>
               match stringify v' with
               | Some text => (quoted k +:+ ":" +:+ text) :: members rest
               | None => members rest
               end
           end) fields in
      Some ("{" +:+ JsString.join "," members +:+ "}")
  end.

(** The characters of a string literal up to its closing quote. *)
Fixpoint read_string (s : string) : option (string * string) :=
  match s with
  | EmptyString => None
  | String c rest =>
      if Ascii.eqb c quote then Some (EmptyString, rest)
      else if Ascii.eqb c backslash then
        match rest with
        | String d rest' =>
            match read_string rest' with
            | Some (text, after) => Some (String d text, after)
            | None => None
            end
        | EmptyString => None
        end
      else
        match read_string rest with
        | Some (text, after) => Some (String c text, after)
        | None => None
        end
  end.

Definition is_digit (c : ascii) : bool :=
  let n := nat_of_ascii c in Nat.leb 48 n && Nat.leb n 57.

Fixpoint read_digits (s : string) : string * string :=
  match s with
  | String c rest =>
      if is_digit c then let (ds, after) := read_digits rest in (String c ds, after)
      else (EmptyString, s)
  | EmptyString => (EmptyString, EmptyString)
  end.

Definition read_number (s : string) : option (Z * string) :=
  match s with
  | String c rest =>
      let negative := Ascii.eqb c "-"%char in
      let (ds, after) := read_digits (if negative then rest else s) in
      match NilZero.uint_of_string ds with
      | Some d =>
          if String.eqb ds "" then None
          else Some (if negative then Z.opp (Z.of_uint d) else Z.of_uint d, after)
      | None => None
      end
  | EmptyString => None
  end.

(** One value and the text after it; [fuel] bounds the nesting and the
    number of members. *)
Fixpoint read_value (fuel : nat) (s : string) : option (jsval * string) :=
  match fuel with
  | O => None
  | S fuel' =>
      match s with
      | EmptyString => None
      | String c rest =>
          if Ascii.eqb c " "%char then read_value fuel' rest
          else if Ascii.eqb c quote then
            match read_string rest with
            | Some (text, after) => Some (JStr text, after)
            | None => None
            end
          else if Ascii.eqb c "{"%char then
            (fix members (n : nat) (acc : list (string * jsval)) (s : string)
               : option (jsval * string) :=
               match n with
               | O => None
               | S n' =>
                   match s with
                   | String d rest' =>
                       if Ascii.eqb d "}"%char then Some (JObj acc, rest')
                       else if Ascii.eqb d ","%char || Ascii.eqb d " "%char
                       then members n' acc rest'
                       else if Ascii.eqb d quote then
                         match read_string rest' with
                         | Some (k, String e after) =>
                             if Ascii.eqb e ":"%char then
                               match read_value fuel' after with
                               | Some (v, after') => members n' (acc ++ [(k, v)]) after'
                               | None => None
                               end
                             else None
                         | _ => None
                         end
                       else None
                   | EmptyString => None
                   end
               end) fuel' [] rest
          else if JsString.startsWith "true" s then Some (JBool true, JsString.drop 4 s)
          else if JsString.startsWith "false" s then Some (JBool false, JsString.drop 5 s)
          else if JsString.startsWith "null" s then Some (JNull, JsString.drop 4 s)
          else
            match read_number s with
            | Some (n, after) => Some (JNum n, after)
            | None => None
            end
      end
  end.

Definition parse (s : string) : result jsval :=
  match read_value (S (String.length s)) s with
  | Some (v, EmptyString) => Ok v
  | _ => Throw SyntaxError
  end.

End Json.

(** ** The model of the README, used for the examples *)

Module Sample.

Definition primary : DbIndex := mkDbIndex "main" None "PK" "SK".

Definition gsi1 : DbIndex := mkDbIndex "main" (Some "GSI1") "GSI1PK" "GSI1SK".

Definition fields : IndexFieldsMap :=
  [("PK", ["User"; "{id}"]);
   ("SK", ["User"]);
   ("GSI1PK", ["User"]);
   ("GSI1SK", ["User"; "{email}"; "{nationalId}"])].

Definition users : DbModel := mkDbModel "acme" "User" primary fields.


Definition all_fields : BuildIndexesConfig := mkBuildConfig false None.

Definition noop : CancellationReason := mkReason (Some "None") None.

Definition failed : CancellationReason :=
  mkReason (Some "ConditionalCheckFailed") (Some "The conditional request failed").

Definition conflict : CancellationReason := mkReason (Some "TransactionConflict") None.

(** A store that aborts every transaction with the given report and
    answers every query with the given items. *)
Definition store (reasons : list CancellationReason) (found : list Document) : Runtime :=
  mkRuntime
    (fun _ => Ok (mkQueryOutput 200 (Some found) JUndefined))
    (fun _ => Throw (TransactionCanceledException (Some reasons)))
    (fun v => default "undefined" (Json.stringify v))
    Json.parse
    Base64.to_base64
    Base64.from_base64.

(** The last key of a page of [GSI1]. *)
Definition position : jsval :=
  JObj
    [("GSI1PK", JObj [("S", JStr "acme#User")]);
     ("GSI1SK", JObj [("S", JStr "acme#User#a@b.com#")]);
     ("PK", JObj [("S", JStr "acme#User#7")]);
     ("SK", JObj [("S", JStr "acme#User")])].

(** An entity as the application sees it. *)
Definition entity : Document :=
  [("id", JStr "7"); ("email", JStr "a@b.com");
   ("createdAt", JNum 1600); ("updatedAt", JNum 1600)].

(** An item as the store holds it. *)
Definition stored : Document :=
  [("PK", JStr "acme#User#7"); ("SK", JStr "acme#User");
   ("GSI1PK", JStr "acme#User"); ("GSI1SK", JStr "acme#User#a@b.com#");
   ("id", JStr "7"); ("email", JStr "a@b.com");
   ("createdAt", JNum 1700); ("updatedAt", JNum 1700)].

(** An insert and its unique constraint, staged. *)
Definition staged : Scratch :=
  snd ((trxInsertOne users "id-1" (JNum 1700) [("email", JStr "a@b.com")] ;;;
        trxInsertUniqueConstraint users [JStr "a@b.com"]) emptyScratch).

End Sample.

(** ** Names for what the remaining properties speak of *)

(** The shape shared by the callbacks of [getUpdateExpression] and
    [getConditionExpression]: [head] opens the expression at index 0,
    [sep] joins a later assignment to what came before. *)
Definition expressionStep (head sep keyPrefix valuePrefix : string)
    (acc : string) (e : string * jsval) (index : nat) : string :=
  if is_undefined (snd e) then acc
  else
    if Nat.eqb index 0 then head +:+ setClause keyPrefix valuePrefix e
    else acc +:+ sep +:+ setClause keyPrefix valuePrefix e.

(** The assignments of the defined fields after the first entry, each
    led by the separator. *)
Definition laterClauses (sep keyPrefix valuePrefix : string) (payload : Document) : string :=
  String.concat ""
    (map (fun e => sep +:+ setClause keyPrefix valuePrefix e)
       (List.filter defined_entry payload)).

(** [key.startsWith(RESERVED_KEYWORD_PREFIX)] fails for every key. *)
Definition no_alias_key (data : Document) : bool :=
  forallb (fun e => negb (JsString.startsWith RESERVED_KEYWORD_PREFIX (fst e))) data.

(** ** Transaction scripts

    The staging calls that a client makes on one model before
    [trxExecute], each with its arguments. *)
Inductive TrxCall : Type :=
| CallInsertOne (id : string) (now : jsval) (data : Document)
| CallUpdateOne (clock : Z) (data oldResource filter : Document)
| CallDeleteOne (oldResource filter : Document)
| CallInsertUniqueConstraint (values : list jsval)
| CallRemoveUniqueConstraint (values : list jsval).

Definition stage (self : DbModel) (c : TrxCall) : M unit :=
  match c with
  | CallInsertOne id now data => trxInsertOne self id now data ;;; ret tt
  | CallUpdateOne clock data oldResource filter =>
      trxUpdateOne self clock data oldResource filter
  | CallDeleteOne oldResource filter => trxDeleteOne self oldResource filter
  | CallInsertUniqueConstraint values => trxInsertUniqueConstraint self values
  | CallRemoveUniqueConstraint values => trxRemoveUniqueConstraint self values
  end.

Fixpoint stage_all (self : DbModel) (cs : list TrxCall) : M unit :=
  match cs with
  | [] => ret tt
  | c :: rest => stage self c ;;; stage_all self rest
  end.

(** The error that each call registers for a failed condition of the
    item it stages. *)
Definition registered_error (self : DbModel) (c : TrxCall) : exn :=
  match c with
  | CallInsertOne _ _ _ => Error_InsertFailed (entityName self)
  | CallUpdateOne _ _ _ _ => Error_UpdateFailed (entityName self)
  | CallDeleteOne _ filter => ConditionCheckError (entityName self) filter
  | CallInsertUniqueConstraint values => UniqueContraintError values
  | CallRemoveUniqueConstraint values =>
      Error_RemoveConstraintFailed (entityName self) values
  end.

Definition is_update (c : TrxCall) : bool :=
  match c with CallUpdateOne _ _ _ _ => true | _ => false end.

(** The scratch state after an item and its handler are added. *)
Definition with_item (s : Scratch) (item : TransactWriteItem) (payload : exn) : Scratch :=
  mkScratch (items s ++ [item])
    (<[errorKey "ConditionalCheckFailed" (Z.of_nat (List.length (items s))) := payload]>
       (errorPayloads s)).

(** The [baseData] of [trxInsertOne]. *)
Definition insertBaseData (id : string) (now : jsval) (data : Document) : Document :=
  Obj.assign (Obj.assign [] data)
    [("id", JStr id); ("createdAt", now); ("updatedAt", now)].

(** ** Names for the statements on values, templates and updates *)

(** A value that [marshall] gives back as it is: [null], a boolean, a
    string, a safe integer. *)
Definition flat_value (v : jsval) : bool :=
  match v with
  | JNull | JBool _ | JStr _ => true
  | JNum n => negb ((MAX_SAFE_INTEGER <? n) || (n <? - MAX_SAFE_INTEGER))
  | _ => false
  end.

(** The shape of a piece of a template: a literal has no opening brace;
    a field name is not empty and has no brace. *)
Definition shape_piece (p : piece) : bool :=
  match p with
  | Lit text => negb (JsString.includes_char JsString.lbrace text)
  | Hole field =>
      negb (String.eqb field "")
      && negb (JsString.includes_char JsString.lbrace field)
      && negb (JsString.includes_char JsString.rbrace field)
  end.

(** The second character of a replacement pattern of
    [String.prototype.replace]: [$$], [$&], [$`] and [$']. *)
Definition pattern_char (d : ascii) : bool :=
  Ascii.eqb d JsString.dollar || Ascii.eqb d "&"%char || Ascii.eqb d "`"%char
  || Ascii.eqb d "'"%char.

(** The text holds no replacement pattern. *)
Fixpoint no_replacement_pattern (t : string) : bool :=
  match t with
  | EmptyString => true
  | String c rest =>
      if Ascii.eqb c JsString.dollar then
        match rest with
        | String d _ => negb (pattern_char d) && no_replacement_pattern rest
        | EmptyString => true
        end
      else no_replacement_pattern rest
  end.

(** A value that the replacement inserts as it is, and that brings no
    opening brace into the key. *)
Definition verbatim_value (v : jsval) : bool :=
  negb (JsString.includes_char JsString.lbrace (js_String v))
  && no_replacement_pattern (js_String v).

(** The entity supplies the placeholder: the value read under the name
    of the field is truthy and verbatim. *)
Definition supplied_piece (resource : Document) (p : piece) : bool :=
  match p with
  | Lit _ => true
  | Hole field =>
      js_truthy (Obj.get resource field) && verbatim_value (Obj.get resource field)
  end.

(** A placeholder that is not substituted: well shaped, and the value
    read under its name is falsy. A literal is brace-free text. *)
Definition unresolved_piece (resource : Document) (p : piece) : bool :=
  match p with
  | Lit text => negb (JsString.includes_char JsString.lbrace text)
  | Hole field => shape_piece (Hole field) && negb (js_truthy (Obj.get resource field))
  end.

(** The text by which a supplied piece is replaced. *)
Definition supplied_text (resource : Document) (p : piece) : piece :=
  Lit (piece_text resource p).

(** The statement that a field holding a falsy value is treated exactly
    like a field that the entity does not have. *)
Definition falsy_as_absent_statement : Prop :=
  forall (self : DbModel) (resource : Document) (cfg : IndexFieldsMap)
         (config : BuildIndexesConfig) (f : string) (v : jsval),
    Obj.wf cfg = true ->
    Obj.lookup resource f = Some v ->
    js_truthy v = false ->
    buildIndexes self resource cfg config
    = buildIndexes self (Obj.remove resource f) cfg config.

(** The statement that no staged update has, among the value
    placeholders of its update expression, one for a key attribute of
    the write index. *)
Definition update_body_statement : Prop :=
  forall (self : DbModel) (clock : Z) (data oldResource filter : Document)
         (s s' : Scratch) (input : UpdateInput),
    Obj.wf (indexFieldsMap self) = true ->
    trxUpdateOne self clock data oldResource filter s = (Ok tt, s') ->
    items s' = items s ++ [Update input] ->
    Obj.has (upd_ExpressionAttributeValues input) (":" +:+ partitionKey (writeIndex self))
    = false
    /\ Obj.has (upd_ExpressionAttributeValues input) (":" +:+ sortKey (writeIndex self))
       = false.

(** An exception of [marshall]. *)
Definition is_marshall_error (e : exn) : bool :=
  match e with
  | MarshallError | MarshallNumberError _ | MarshallUnsupportedType _ => true
  | _ => false
  end.

(** The two calls that stage the row of a unique constraint. *)
Definition is_constraint (c : TrxCall) : bool :=
  match c with
  | CallInsertUniqueConstraint _ | CallRemoveUniqueConstraint _ => true
  | _ => false
  end.

(** * Properties *)

#[local] Arguments String.append : simpl nomatch.

(** ** The embedding at work *)

(** The keys of the README's user model. *)
Example readme_keys :
  buildIndexes Sample.users Sample.entity Sample.fields Sample.all_fields
  = [("PK", "acme#User#7"); ("SK", "acme#User");
     ("GSI1PK", "acme#User"); ("GSI1SK", "acme#User#a@b.com#")].
Proof. reflexivity. Qed.

Example readme_key_condition :
  getKeyConditionExpression Sample.gsi1 begins_with ":"
  = "GSI1PK = :pk AND begins_with(GSI1SK, :sk)".
Proof. reflexivity. Qed.

(** The three shapes the regular expression meets: a placeholder, an
    empty pair of braces, a name with an opening brace. *)
Example exec_all_shapes :
  JsString.exec_all "t#User#{id}#{}#{a{b}" = [("{id}", "id"); ("{a{b}", "a{b")].
Proof. reflexivity. Qed.

(** The replacement text of [replace] is a template. *)
Example replace_expands_dollar :
  JsString.replace "{x}" "a$&b$$c" "k#{x}#" = "k#a{x}b$c#".
Proof. reflexivity. Qed.

(** A placeholder that names something every object inherits is
    substituted although the entity has no such field. *)
Example inherited_field :
  replaceFieldWithValue "acme#{toString}" [] = "acme#function toString() { [native code] }"
  /\ buildIndexValue Sample.users [] ["{toString}"] = "acme#function toString() ".
Proof. split; reflexivity. Qed.

(** A reserved word gets the escaped alias. *)
Example reserved_alias :
  getUpdateExpression [("name", JStr "Ann"); ("age", JNum 41)] "#" ":"
  = Some "SET #reserved_name = :name, #age = :age".
Proof. reflexivity. Qed.

(** ** Strings *)

Section StringFacts.

Import JsString.

Lemma app_assoc_s (a b c : string) : (a +:+ b) +:+ c = a +:+ (b +:+ c).
Proof. induction a as [|x a IH]; simpl; [reflexivity | now rewrite IH]. Qed.

Lemma app_empty_r_s (a : string) : a +:+ "" = a.
Proof. induction a as [|x a IH]; simpl; [reflexivity | now rewrite IH]. Qed.

Lemma length_app_s (a b : string) :
  String.length (a +:+ b) = (String.length a + String.length b)%nat.
Proof. induction a as [|x a IH]; simpl; [reflexivity | now rewrite IH]. Qed.

Lemma includes_char_app c (a b : string) :
  includes_char c (a +:+ b) = includes_char c a || includes_char c b.
Proof.
  induction a as [|x a IH]; simpl; [reflexivity |].
  destruct (Ascii.eqb x c); [reflexivity | exact IH].
Qed.

Lemma split_head_absent c (s : string) : includes_char c s = false -> split_head c s = s.
Proof.
  induction s as [|x s IH]; simpl; [reflexivity |].
  destruct (Ascii.eqb x c); [discriminate | intros H; now rewrite IH].
Qed.

Lemma split_head_app c (a b : string) :
  includes_char c a = false -> split_head c (a +:+ b) = a +:+ split_head c b.
Proof.
  induction a as [|x a IH]; simpl; [reflexivity |].
  destruct (Ascii.eqb x c); [discriminate | intros H; now rewrite IH].
Qed.

(** The guarded truncation of [buildIndexes] is [split_head]. *)
Lemma truncate_split_head (s : string) :
  (if includes_char lbrace s then split_head lbrace s else s) = split_head lbrace s.
Proof.
  destruct (includes_char lbrace s) eqn:E; [reflexivity |].
  symmetry; now apply split_head_absent.
Qed.

Lemma prefix_nil_s (x : string) : String.prefix "" x = true.
Proof. destruct x; reflexivity. Qed.

Lemma prefix_cons_s c d (p x : string) :
  String.prefix (String c p) (String d x) = Ascii.eqb c d && String.prefix p x.
Proof.
  change (String.prefix (String c p) (String d x))
    with (match ascii_dec c d with left _ => String.prefix p x | right _ => false end).
  destruct (ascii_dec c d) as [-> | Hne].
  - now rewrite Ascii.eqb_refl.
  - apply Ascii.eqb_neq in Hne. now rewrite Hne.
Qed.

Lemma prefix_app_s (p x : string) : String.prefix p (p +:+ x) = true.
Proof.
  induction p as [|c p IH]; [apply prefix_nil_s |].
  change (String c p +:+ x) with (String c (p +:+ x)).
  now rewrite prefix_cons_s, Ascii.eqb_refl.
Qed.

Lemma prefix_first_differs c d (p x : string) :
  c <> d -> String.prefix (String c p) (String d x) = false.
Proof. intros H. apply Ascii.eqb_neq in H. now rewrite prefix_cons_s, H. Qed.

Lemma drop_app_s (p x : string) : drop (String.length p) (p +:+ x) = x.
Proof. induction p as [|c p IH]; simpl; [now destruct x | exact IH]. Qed.

Lemma get_substitution_plain (m b a t : string) :
  includes_char dollar t = false -> get_substitution m b a t = t.
Proof.
  induction t as [|c t IH]; simpl; [reflexivity |].
  destruct (Ascii.eqb c dollar); [discriminate | intros H; now rewrite IH].
Qed.

Lemma replace_from_unfold (pat repl before s : string) :
  replace_from pat repl before s =
  if String.prefix pat s then
    get_substitution pat before (drop (String.length pat) s) repl
      +:+ drop (String.length pat) s
  else
    match s with
    | EmptyString => EmptyString
    | String c rest => String c (replace_from pat repl (before +:+ String c EmptyString) rest)
    end.
Proof. destruct s; reflexivity. Qed.

Lemma replace_from_here (pat repl before x : string) :
  replace_from pat repl before (pat +:+ x) = get_substitution pat before x repl +:+ x.
Proof. rewrite replace_from_unfold, prefix_app_s, drop_app_s. reflexivity. Qed.

(** A pattern that starts with an opening brace is not found in text
    without one. *)
Lemma replace_from_skip (pat repl : string) (l : string) :
  includes_char lbrace l = false ->
  forall before x,
    replace_from (String lbrace pat) repl before (l +:+ x) =
    l +:+ replace_from (String lbrace pat) repl (before +:+ l) x.
Proof.
  induction l as [|c l IH]; intros Hl before x.
  - simpl. now rewrite app_empty_r_s.
  - simpl in Hl. destruct (Ascii.eqb c lbrace) eqn:E; [discriminate |].
    apply Ascii.eqb_neq in E.
    rewrite replace_from_unfold.
    change (String c l +:+ x) with (String c (l +:+ x)).
    rewrite prefix_first_differs by congruence.
    rewrite IH by assumption.
    rewrite app_assoc_s. reflexivity.
Qed.

Lemma until_rbrace_app (f x : string) :
  includes_char rbrace f = false ->
  until_rbrace (f +:+ String rbrace x) = Some (f, x).
Proof.
  induction f as [|c f IH]; simpl.
  - reflexivity.
  - destruct (Ascii.eqb c rbrace); [discriminate |].
    intros H. now rewrite IH.
Qed.

Lemma exec_all_from_skip (l x : string) :
  exec_all_from (String.length l) (l +:+ x) = exec_all_from O x.
Proof. induction l as [|c l IH]; simpl; [now destruct x | exact IH]. Qed.

Lemma exec_all_from_lit (l x : string) :
  includes_char lbrace l = false -> exec_all_from O (l +:+ x) = exec_all_from O x.
Proof.
  induction l as [|c l IH]; simpl; [reflexivity |].
  destruct (Ascii.eqb c lbrace); [discriminate | exact IH].
Qed.

Lemma exec_all_from_hole (f x : string) :
  f <> EmptyString ->
  includes_char rbrace f = false ->
  exec_all_from O (render_piece (Hole f) +:+ x) =
  (render_piece (Hole f), f) :: exec_all_from O x.
Proof.
  intros Hne Hf. unfold render_piece.
  change (String lbrace (f +:+ String rbrace "") +:+ x)
    with (String lbrace ((f +:+ String rbrace "") +:+ x)).
  rewrite app_assoc_s. simpl.
  rewrite until_rbrace_app by assumption.
  destruct f as [|n name]; [congruence |].
  f_equal.
  change (String rbrace x) with (String rbrace "" +:+ x).
  rewrite <- app_assoc_s.
  etransitivity; [| apply (exec_all_from_skip (String n name +:+ String rbrace "") x)].
  f_equal. rewrite length_app_s. simpl. lia.
Qed.

End StringFacts.

(** ** Templates: the code against the interpreter *)

Section TemplateFacts.

Import JsString.

Lemma render_app (a b : list piece) : render (a ++ b) = render a +:+ render b.
Proof.
  induction a as [|p a IH]; simpl; [reflexivity |].
  now rewrite IH, app_assoc_s.
Qed.

Lemma wf_hole_inv (f : string) :
  wf_piece (Hole f) = true ->
  f <> EmptyString /\ includes_char lbrace f = false /\ includes_char rbrace f = false.
Proof.
  unfold wf_piece. rewrite !andb_true_iff, !negb_true_iff.
  intros [[[H1 H2] H3] _]. apply String.eqb_neq in H1. auto.
Qed.

Lemma wf_hole_inherits_nothing (f : string) :
  wf_piece (Hole f) = true -> Obj.inherited f = JUndefined.
Proof.
  unfold wf_piece. rewrite !andb_true_iff. intros [_ H].
  now destruct (Obj.inherited f).
Qed.

Lemma exec_all_render (ps : list piece) :
  forallb wf_piece ps = true ->
  exec_all (render ps) = map match_of (holes ps).
Proof.
  unfold exec_all.
  induction ps as [|p ps IH]; simpl; [reflexivity |].
  rewrite andb_true_iff. intros [Hp Hps].
  destruct p as [text | f].
  - simpl in *. apply negb_true_iff in Hp.
    rewrite exec_all_from_lit by assumption. now apply IH.
  - apply wf_hole_inv in Hp as (Hne & _ & Hr).
    rewrite exec_all_from_hole by assumption.
    simpl. unfold match_of at 1. f_equal. now apply IH.
Qed.

(** Two placeholders, one a prefix of the text that starts with the
    other: they name the same field. *)
Lemma hole_prefix_same (f g x : string) :
  includes_char rbrace f = false ->
  includes_char rbrace g = false ->
  String.prefix (f +:+ String rbrace "") (g +:+ String rbrace x) = true ->
  f = g.
Proof.
  revert g. induction f as [|c f IH]; intros g Hf Hg H.
  - destruct g as [|d g]; [reflexivity |].
    change (String.prefix (String rbrace "") (String d (g +:+ String rbrace x)) = true) in H.
    rewrite prefix_cons_s in H. apply andb_true_iff in H as [H _].
    apply Ascii.eqb_eq in H. subst d.
    simpl in Hg. rewrite ?Ascii.eqb_refl in Hg. discriminate.
  - simpl in Hf. destruct (Ascii.eqb c rbrace) eqn:E; [discriminate |].
    destruct g as [|d g].
    + change (String.prefix (String c (f +:+ String rbrace "")) (String rbrace x) = true) in H.
      rewrite prefix_cons_s, E in H. discriminate.
    + change (String.prefix (String c (f +:+ String rbrace ""))
                (String d (g +:+ String rbrace x)) = true) in H.
      rewrite prefix_cons_s in H. apply andb_true_iff in H as [Hcd H].
      apply Ascii.eqb_eq in Hcd. subst d.
      simpl in Hg. rewrite E in Hg. f_equal. now apply (IH g).
Qed.

Lemma hole_prefix_differs (f g x : string) :
  includes_char rbrace f = false ->
  includes_char rbrace g = false ->
  f <> g ->
  String.prefix (render_piece (Hole f)) (render_piece (Hole g) +:+ x) = false.
Proof.
  intros Hf Hg Hne.
  destruct (String.prefix _ _) eqn:E; [| reflexivity].
  exfalso. apply Hne. unfold render_piece in E.
  change (String.prefix (String lbrace (f +:+ String rbrace ""))
            (String lbrace ((g +:+ String rbrace "") +:+ x)) = true) in E.
  rewrite prefix_cons_s in E. apply andb_true_iff in E as [_ E].
  rewrite app_assoc_s in E. simpl in E.
  now apply (hole_prefix_same f g x).
Qed.

(** The first occurrence of a placeholder with a truthy value, after
    settled pieces, is the placeholder itself. *)
Lemma replace_from_settled (resource : Document) (f repl : string) (rest : list piece) :
  wf_piece (Hole f) = true ->
  js_truthy (Obj.get resource f) = true ->
  includes_char dollar repl = false ->
  forall done before,
    forallb (settled resource) done = true ->
    replace_from (render_piece (Hole f)) repl before (render (done ++ Hole f :: rest)) =
    render (done ++ Lit repl :: rest).
Proof.
  intros Hwf Htruthy Hrepl.
  destruct (wf_hole_inv f Hwf) as (Hne & Hfl & Hfr).
  induction done as [|p done IH]; intros before Hdone.
  - cbn [app render]. rewrite replace_from_here.
    now rewrite get_substitution_plain.
  - simpl in Hdone. apply andb_true_iff in Hdone as [Hp Hdone].
    cbn [app render].
    destruct p as [text | g].
    + simpl in Hp. apply negb_true_iff in Hp.
      cbn [render_piece].
      change (render_piece (Hole f)) with (String lbrace (f +:+ String rbrace "")).
      rewrite replace_from_skip by assumption.
      change (String lbrace (f +:+ String rbrace "")) with (render_piece (Hole f)).
      now rewrite IH.
    + apply andb_true_iff in Hp as [Hg Hfalsy].
      apply negb_true_iff in Hfalsy.
      destruct (wf_hole_inv g Hg) as (_ & Hgl & Hgr).
      assert (Hfg : f <> g) by (intros ->; congruence).
      rewrite replace_from_unfold.
      rewrite hole_prefix_differs by assumption.
      change (render_piece (Hole g) +:+ render (done ++ Hole f :: rest))
        with (String lbrace ((g +:+ String rbrace "") +:+ render (done ++ Hole f :: rest))).
      change (render_piece (Hole g) +:+ render (done ++ Lit repl :: rest))
        with (String lbrace ((g +:+ String rbrace "") +:+ render (done ++ Lit repl :: rest))).
      f_equal.
      change (render_piece (Hole f)) with (String lbrace (f +:+ String rbrace "")).
      rewrite replace_from_skip
        by (rewrite includes_char_app, Hgl; simpl; now rewrite ?Ascii.eqb_refl).
      change (String lbrace (f +:+ String rbrace "")) with (render_piece (Hole f)).
      now rewrite IH.
Qed.

Lemma settled_subst (resource : Document) (p : piece) :
  wf_piece p = true -> plain_hole resource p = true ->
  settled resource (subst_piece resource p) = true.
Proof.
  destruct p as [text | f]; simpl; [auto |].
  intros Hwf Hplain.
  destruct (js_truthy (Obj.get resource f)) eqn:E; simpl.
  - unfold plain_value in Hplain. apply andb_true_iff in Hplain as [H _]. exact H.
  - rewrite E. now rewrite Hwf.
Qed.

(** The loop of [replaceFieldWithValue], resumed after the pieces
    [done]. *)
Lemma replace_loop (resource : Document) (todo : list piece) :
  forallb wf_piece todo = true ->
  forallb (plain_hole resource) todo = true ->
  forall done,
    forallb (settled resource) done = true ->
    fold_left (replace_step resource) (map match_of (holes todo)) (render (done ++ todo)) =
    render (done ++ map (subst_piece resource) todo).
Proof.
  induction todo as [|p todo IH]; intros Hwf Hplain done Hdone; [reflexivity |].
  simpl in Hwf, Hplain.
  apply andb_true_iff in Hwf as [Hp Hwf].
  apply andb_true_iff in Hplain as [Hpp Hplain].
  assert (Hnext : forallb (settled resource) (done ++ [subst_piece resource p]) = true).
  { rewrite forallb_app, Hdone. simpl. now rewrite settled_subst. }
  specialize (IH Hwf Hplain _ Hnext).
  rewrite <- !app_assoc in IH. simpl app in IH.
  destruct p as [text | f].
  - exact IH.
  - simpl holes. simpl map. simpl fold_left.
    unfold replace_step at 2. simpl fst. simpl snd.
    simpl subst_piece in IH |- *. simpl in Hpp.
    destruct (js_truthy (Obj.get resource f)) eqn:E.
    + unfold plain_value in Hpp. apply andb_true_iff in Hpp as [_ Hd].
      apply negb_true_iff in Hd.
      change (String lbrace (f +:+ String rbrace "")) with (render_piece (Hole f)).
      unfold replace. rewrite (replace_from_settled resource) by assumption.
      exact IH.
    + exact IH.
Qed.

(** [replaceFieldWithValue] substitutes piece by piece. *)
Lemma replaceFieldWithValue_render (resource : Document) (ps : list piece) :
  forallb wf_piece ps = true ->
  forallb (plain_hole resource) ps = true ->
  replaceFieldWithValue (render ps) resource = render (map (subst_piece resource) ps).
Proof.
  intros Hwf Hplain. unfold replaceFieldWithValue.
  rewrite exec_all_render by assumption.
  exact (replace_loop resource ps Hwf Hplain [] eq_refl).
Qed.

Lemma split_head_render (resource : Document) (ps : list piece) :
  forallb wf_piece ps = true ->
  forallb (plain_hole resource) ps = true ->
  split_head lbrace (render (map (subst_piece resource) ps)) = interpret resource ps.
Proof.
  induction ps as [|p ps IH]; simpl; [reflexivity |].
  rewrite !andb_true_iff. intros [Hp Hwf] [Hpp Hplain].
  destruct p as [text | f]; simpl in *.
  - apply negb_true_iff in Hp. rewrite split_head_app by assumption.
    now rewrite IH.
  - destruct (js_truthy (Obj.get resource f)).
    + simpl. unfold plain_value in Hpp. apply andb_true_iff in Hpp as [Hl _].
      apply negb_true_iff in Hl. rewrite split_head_app by assumption.
      now rewrite IH.
    + reflexivity.
Qed.

Lemma join_cons_render (first : string) (segments : list piece) :
  String.concat indexValueSeparator (first :: map render_piece segments) =
  first +:+ render (flat_map (fun p => [Lit indexValueSeparator; p]) segments).
Proof.
  revert first. induction segments as [|p segments IH]; intros first.
  - simpl. now rewrite app_empty_r_s.
  - cbn [map flat_map app render].
    change (String.concat indexValueSeparator
              (first :: render_piece p :: map render_piece segments))
      with (first +:+ indexValueSeparator
              +:+ String.concat indexValueSeparator (render_piece p :: map render_piece segments)).
    now rewrite IH.
Qed.

Lemma join_keyTemplate (tenant : string) (segments : list piece) :
  join indexValueSeparator (tenant :: map render_piece segments) =
  render (keyTemplate tenant segments).
Proof. unfold keyTemplate, join. apply join_cons_render. Qed.

Lemma wf_keyTemplate (tenant : string) (segments : list piece) :
  includes_char lbrace tenant = false ->
  forallb wf_piece segments = true ->
  forallb wf_piece (keyTemplate tenant segments) = true.
Proof.
  intros Ht Hs. unfold keyTemplate. simpl. rewrite Ht. simpl.
  induction segments as [|p segments IH]; simpl; [reflexivity |].
  simpl in Hs. apply andb_true_iff in Hs as [Hp Hs].
  rewrite Hp. simpl. now apply IH.
Qed.

Lemma plain_keyTemplate (resource : Document) (tenant : string) (segments : list piece) :
  forallb (plain_hole resource) segments = true ->
  forallb (plain_hole resource) (keyTemplate tenant segments) = true.
Proof.
  intros Hs. unfold keyTemplate. simpl.
  induction segments as [|p segments IH]; simpl; [reflexivity |].
  simpl in Hs. apply andb_true_iff in Hs as [Hp Hs].
  rewrite Hp. simpl. now apply IH.
Qed.

(** The value [buildIndexes] computes for one key attribute is the
    interpretation of its template. *)
Lemma buildIndexValue_interpret (self : DbModel) (resource : Document) (segments : list piece) :
  includes_char lbrace (tenantId self) = false ->
  forallb wf_piece segments = true ->
  forallb (plain_hole resource) segments = true ->
  buildIndexValue self resource (map render_piece segments) =
  interpret resource (keyTemplate (tenantId self) segments).
Proof.
  intros Ht Hwf Hplain. unfold buildIndexValue.
  rewrite truncate_split_head, join_keyTemplate.
  rewrite replaceFieldWithValue_render
    by (apply wf_keyTemplate || apply plain_keyTemplate; assumption).
  apply split_head_render; [now apply wf_keyTemplate | now apply plain_keyTemplate].
Qed.

End TemplateFacts.

(** ** Records *)

Section RecordFacts.

Context {V : Type}.

Lemma lookup_set_eq (o : JsRecord V) (k : string) (v : V) :
  Obj.lookup (Obj.set o k v) k = Some v.
Proof.
  induction o as [|[k' v'] o IH]; simpl.
  - now rewrite String.eqb_refl.
  - destruct (String.eqb k' k) eqn:E; simpl; rewrite E; [reflexivity | exact IH].
Qed.

Lemma lookup_set_ne (o : JsRecord V) (k k' : string) (v : V) :
  k <> k' -> Obj.lookup (Obj.set o k v) k' = Obj.lookup o k'.
Proof.
  intros Hne. induction o as [|[k0 v0] o IH]; simpl.
  - apply String.eqb_neq in Hne. now rewrite Hne.
  - destruct (String.eqb k0 k) eqn:E; simpl.
    + apply String.eqb_eq in E. subst k0.
      apply String.eqb_neq in Hne. now rewrite Hne.
    + now rewrite IH.
Qed.

Lemma lookup_absent (o : JsRecord V) (k : string) :
  existsb (String.eqb k) (Obj.keys o) = false -> Obj.lookup o k = None.
Proof.
  induction o as [|[k' v'] o IH]; simpl; [reflexivity |].
  rewrite orb_false_iff. intros [H1 H2].
  rewrite String.eqb_sym, H1. now apply IH.
Qed.

Lemma lookup_present (o : JsRecord V) (k : string) (v : V) :
  Obj.lookup o k = Some v -> existsb (String.eqb k) (Obj.keys o) = true.
Proof.
  induction o as [|[k' v'] o IH]; simpl; [discriminate |].
  rewrite (String.eqb_sym k k').
  destruct (String.eqb k' k); [reflexivity | exact IH].
Qed.

Lemma lookup_filter_key (P : string -> bool) (o : JsRecord V) (k : string) :
  Obj.lookup (List.filter (fun e => P (fst e)) o) k = if P k then Obj.lookup o k else None.
Proof.
  induction o as [|[k' v'] o IH]; simpl; [now destruct (P k) |].
  destruct (P k') eqn:Ek'; simpl.
  - destruct (String.eqb k' k) eqn:E.
    + apply String.eqb_eq in E. subst k'. now rewrite Ek'.
    + exact IH.
  - rewrite IH. destruct (String.eqb k' k) eqn:E; [| reflexivity].
    apply String.eqb_eq in E. subst k'. now rewrite Ek'.
Qed.

Lemma existsb_filter_key (P : string -> bool) (o : JsRecord V) (k : string) :
  existsb (String.eqb k) (Obj.keys o) = false ->
  existsb (String.eqb k) (Obj.keys (List.filter (fun e => P (fst e)) o)) = false.
Proof.
  induction o as [|[k' v'] o IH]; simpl; [reflexivity |].
  rewrite orb_false_iff. intros [H1 H2].
  destruct (P k'); simpl; [rewrite H1 |]; now apply IH.
Qed.

Lemma distinct_filter_key (P : string -> bool) (o : JsRecord V) :
  Obj.wf o = true -> Obj.wf (List.filter (fun e => P (fst e)) o) = true.
Proof.
  unfold Obj.wf.
  induction o as [|[k' v'] o IH]; simpl; [reflexivity |].
  rewrite andb_true_iff, negb_true_iff. intros [H1 H2].
  destruct (P k'); simpl; [| now apply IH].
  rewrite (existsb_filter_key P o k' H1). simpl. now apply IH.
Qed.

End RecordFacts.

(** Writing [g] of every entry of a record into an accumulator. *)
Lemma lookup_fold_set {V W : Type} (g : W -> V) (l : JsRecord W) :
  Obj.wf l = true ->
  forall (acc : JsRecord V) (k : string),
    Obj.lookup (fold_left (fun acc e => Obj.set acc (fst e) (g (snd e))) l acc) k =
    match Obj.lookup l k with
    | Some w => Some (g w)
    | None => Obj.lookup acc k
    end.
Proof.
  unfold Obj.wf.
  induction l as [|[k' w'] l IH]; simpl; [reflexivity |].
  rewrite andb_true_iff, negb_true_iff. intros [H1 H2] acc k.
  rewrite IH by assumption.
  destruct (String.eqb k' k) eqn:E.
  - apply String.eqb_eq in E. subst k'.
    rewrite (lookup_absent l k H1). apply lookup_set_eq.
  - apply String.eqb_neq in E.
    destruct (Obj.lookup l k); [reflexivity |]. now apply lookup_set_ne.
Qed.

(** What [buildIndexes] stores under a selected key attribute. *)
Lemma buildIndexes_lookup (self : DbModel) (resource : Document) (cfg : IndexFieldsMap)
    (config : BuildIndexesConfig) (attr : string) (segments : list string) :
  Obj.wf cfg = true ->
  Obj.lookup cfg attr = Some segments ->
  selected config attr = true ->
  Obj.lookup (buildIndexes self resource cfg config) attr =
  Some (buildIndexValue self resource segments).
Proof.
  intros Hwf Hattr Hsel. unfold buildIndexes.
  rewrite (lookup_fold_set (buildIndexValue self resource))
    by (now apply (distinct_filter_key (selected config))).
  rewrite (lookup_filter_key (selected config)), Hsel, Hattr. reflexivity.
Qed.

Lemma buildIndexes_lookup_unselected (self : DbModel) (resource : Document)
    (cfg : IndexFieldsMap) (config : BuildIndexesConfig) (attr : string) :
  Obj.wf cfg = true ->
  selected config attr = false ->
  Obj.lookup (buildIndexes self resource cfg config) attr = None.
Proof.
  intros Hwf Hsel. unfold buildIndexes.
  rewrite (lookup_fold_set (buildIndexValue self resource))
    by (now apply (distinct_filter_key (selected config))).
  rewrite (lookup_filter_key (selected config)), Hsel. reflexivity.
Qed.

(** ** Index key construction *)

Section KeyFacts.

Import JsString.

Lemma of_Z_nonempty (n : Z) : of_Z n <> EmptyString.
Proof.
  unfold of_Z. destruct (Z.to_int n) as [d | d]; simpl.
  - destruct d; discriminate.
  - discriminate.
Qed.

(** A replacement text is never empty. *)
Lemma truthy_text_nonempty (v : jsval) : js_truthy v = true -> js_String v <> EmptyString.
Proof.
  destruct v as [| | [|] | n | s | fields | name]; simpl; try discriminate.
  - intros _. apply of_Z_nonempty.
  - rewrite negb_true_iff. intros H. now apply String.eqb_neq in H.
Qed.

(** The falsy values are [undefined], [null], [false], [0] and the
    empty string. *)
Lemma falsy_values (v : jsval) :
  js_truthy v = false <->
  v = JUndefined \/ v = JNull \/ v = JBool false \/ v = JNum 0 \/ v = JStr "".
Proof.
  split.
  - destruct v as [| | [|] | n | s | fields | name]; simpl; try discriminate; auto.
    + rewrite negb_false_iff. intros H. apply Z.eqb_eq in H. subst. auto.
    + rewrite negb_false_iff. intros H. apply String.eqb_eq in H. subst. auto 6.
  - intros [-> | [-> | [-> | [-> | ->]]]]; reflexivity.
Qed.

Lemma resolved_plain (resource : Document) (ps : list piece) :
  forallb (resolved_piece resource) ps = true -> forallb (plain_hole resource) ps = true.
Proof.
  induction ps as [|p ps IH]; simpl; [reflexivity |].
  rewrite !andb_true_iff. intros [Hp Hps]. split; [| now apply IH].
  destruct p as [text | g]; simpl in *; [reflexivity |].
  apply andb_true_iff in Hp as [-> ->]. reflexivity.
Qed.

Lemma get_absent (resource : Document) (g : string) :
  wf_piece (Hole g) = true ->
  Obj.has resource g = false -> Obj.get resource g = JUndefined.
Proof.
  intros Hwf. unfold Obj.has, Obj.get.
  destruct (Obj.lookup resource g); [discriminate |].
  intros _. now apply wf_hole_inherits_nothing.
Qed.

Lemma absent_plain (resource : Document) (ps : list piece) :
  forallb wf_piece ps = true ->
  forallb (fun g => negb (Obj.has resource g)) (holes ps) = true ->
  forallb (plain_hole resource) ps = true.
Proof.
  induction ps as [|p ps IH]; [reflexivity |].
  cbn [forallb]. rewrite andb_true_iff. intros [Hp Hwf].
  destruct p as [text | g]; [exact (IH Hwf) |].
  cbn [holes flat_map app forallb plain_hole].
  rewrite andb_true_iff, negb_true_iff. intros [Hg Hps].
  rewrite (get_absent _ _ Hp Hg). simpl. now apply IH.
Qed.

(** Interpretation stops at the first placeholder without a truthy
    value. *)
Lemma interpret_prefix (resource : Document) (pre : list piece) (f : string)
    (post : list piece) (tenant : string) :
  forallb (resolved_piece resource) pre = true ->
  js_truthy (Obj.get resource f) = false ->
  interpret resource (keyTemplate tenant (pre ++ Hole f :: post)) =
  join indexValueSeparator (tenant :: map (piece_text resource) pre) +:+ indexValueSeparator.
Proof.
  intros Hpre Hf. unfold join, keyTemplate.
  replace (map (piece_text resource) pre)
    with (map render_piece (map (fun p => Lit (piece_text resource p)) pre))
    by (rewrite map_map; reflexivity).
  rewrite join_cons_render. cbn [interpret]. rewrite app_assoc_s. f_equal.
  induction pre as [|p pre IH].
  - cbn [app flat_map interpret map render]. now rewrite Hf.
  - simpl in Hpre. apply andb_true_iff in Hpre as [Hp Hpre].
    cbn [app flat_map interpret map render render_piece].
    rewrite app_assoc_s. f_equal.
    destruct p as [text | g].
    + cbn [piece_text]. rewrite app_assoc_s. f_equal. now apply IH.
    + simpl in Hp. apply andb_true_iff in Hp as [Hg _].
      rewrite Hg. cbn [piece_text]. rewrite app_assoc_s. f_equal. now apply IH.
Qed.

(** The truncation property holds when "supplied" means a truthy value
    whose text has neither an opening brace nor a dollar sign. *)
Lemma truncation_resolved : truncation_statement resolved_piece.
Proof.
  intros self entity cfg config attr pre f post Hwf Hattr Hsel Ht Hpieces Hpre Hrest.
  rewrite (buildIndexes_lookup self entity cfg config attr _ Hwf Hattr Hsel).
  f_equal. unfold keyPrefix.
  assert (Htail : forallb wf_piece (Hole f :: post) = true).
  { rewrite forallb_app in Hpieces. now apply andb_true_iff in Hpieces as [_ H]. }
  rewrite buildIndexValue_interpret; try assumption.
  - apply interpret_prefix; [assumption |].
    cbn [holes flat_map app forallb] in Hrest. apply andb_true_iff in Hrest as [Hf _].
    apply negb_true_iff in Hf.
    cbn [forallb] in Htail. apply andb_true_iff in Htail as [Hwff _].
    now rewrite (get_absent _ _ Hwff Hf).
  - rewrite forallb_app. rewrite (resolved_plain _ _ Hpre).
    now apply (absent_plain entity (Hole f :: post)).
Qed.

Lemma resolved_texts_nonempty (resource : Document) (pre : list piece) :
  forallb (resolved_piece resource) pre = true ->
  Forall (fun g => js_String (Obj.get resource g) <> EmptyString) (holes pre).
Proof.
  induction pre as [|p pre IH]; simpl; [constructor |].
  rewrite andb_true_iff. intros [Hp Hpre].
  destruct p as [text | g]; simpl; [now apply IH |].
  constructor; [| now apply IH].
  simpl in Hp. apply andb_true_iff in Hp as [Hg _]. now apply truthy_text_nonempty.
Qed.

End KeyFacts.

(** *** A falsy value is as good as no value *)

Lemma fold_left_ext {A B : Type} (f g : A -> B -> A) (l : list B) :
  (forall a b, f a b = g a b) -> forall a, fold_left f l a = fold_left g l a.
Proof.
  intros H. induction l as [|b l IH]; intros a; simpl; [reflexivity |].
  now rewrite H, IH.
Qed.

Lemma get_remove_same (resource : Document) (k : string) :
  Obj.get (Obj.remove resource k) k = Obj.inherited k.
Proof.
  unfold Obj.get, Obj.remove.
  rewrite (lookup_filter_key (fun key => negb (String.eqb key k))).
  now rewrite String.eqb_refl.
Qed.

Lemma get_remove_other (resource : Document) (k k' : string) :
  k' <> k -> Obj.get (Obj.remove resource k) k' = Obj.get resource k'.
Proof.
  intros Hne. unfold Obj.get, Obj.remove.
  rewrite (lookup_filter_key (fun key => negb (String.eqb key k))).
  apply String.eqb_neq in Hne. now rewrite Hne.
Qed.

Lemma replace_step_falsy (resource : Document) (k : string) :
  Obj.inherited k = JUndefined ->
  js_truthy (Obj.get resource k) = false ->
  forall result m,
    replace_step resource result m = replace_step (Obj.remove resource k) result m.
Proof.
  intros Hin Hk result [pat name]. unfold replace_step. simpl.
  destruct (String.eqb_spec name k) as [-> | Hne].
  - now rewrite Hk, get_remove_same, Hin.
  - now rewrite get_remove_other.
Qed.

Lemma replaceFieldWithValue_falsy (resource : Document) (k : string) (field : string) :
  Obj.inherited k = JUndefined ->
  js_truthy (Obj.get resource k) = false ->
  replaceFieldWithValue field resource = replaceFieldWithValue field (Obj.remove resource k).
Proof.
  intros Hin Hk. unfold replaceFieldWithValue.
  exact (fold_left_ext (replace_step resource) (replace_step (Obj.remove resource k))
           _ (replace_step_falsy resource k Hin Hk) field).
Qed.

(** A field that holds a falsy value can as well be missing, for every
    index configuration. *)
Lemma buildIndexes_falsy (self : DbModel) (resource : Document) (k : string)
    (cfg : IndexFieldsMap) (config : BuildIndexesConfig) :
  Obj.inherited k = JUndefined ->
  js_truthy (Obj.get resource k) = false ->
  buildIndexes self resource cfg config = buildIndexes self (Obj.remove resource k) cfg config.
Proof.
  intros Hin Hk. unfold buildIndexes. apply fold_left_ext.
  intros acc e. unfold buildIndexValue.
  now rewrite (replaceFieldWithValue_falsy resource k).
Qed.

Lemma replaceFieldWithValue_hole (resource : Document) (f : string) :
  wf_piece (Hole f) = true ->
  js_truthy (Obj.get resource f) = true ->
  plain_value (Obj.get resource f) = true ->
  replaceFieldWithValue (render_piece (Hole f)) resource = js_String (Obj.get resource f).
Proof.
  intros Hwf Ht Hp.
  rewrite <- (app_empty_r_s (render_piece (Hole f))).
  change (render_piece (Hole f) +:+ "") with (render [Hole f]).
  rewrite replaceFieldWithValue_render.
  - cbn [map subst_piece]. rewrite Ht. simpl. apply app_empty_r_s.
  - cbn [forallb]. now rewrite Hwf.
  - cbn [forallb plain_hole]. now rewrite Ht, Hp.
Qed.

(** ** Templates with an arbitrary remainder *)

Section RemainderFacts.

Import JsString.

Lemma get_substitution_verbatim (m b a t : string) :
  no_replacement_pattern t = true -> get_substitution m b a t = t.
Proof.
  induction t as [|c t IH]; [reflexivity |].
  cbn [no_replacement_pattern get_substitution].
  destruct (Ascii.eqb c dollar) eqn:Ec.
  - destruct t as [|d t']; [reflexivity |].
    rewrite andb_true_iff, negb_true_iff. intros [Hd Ht].
    unfold pattern_char in Hd.
    apply orb_false_iff in Hd as [Hd H4]. apply orb_false_iff in Hd as [Hd H3].
    apply orb_false_iff in Hd as [H1 H2].
    rewrite H1, H2, H3, H4. f_equal. now apply IH.
  - intros H. f_equal. now apply IH.
Qed.

Lemma shape_hole_inv (f : string) :
  shape_piece (Hole f) = true ->
  f <> EmptyString /\ includes_char lbrace f = false /\ includes_char rbrace f = false.
Proof.
  unfold shape_piece. rewrite !andb_true_iff, !negb_true_iff.
  intros [[H1 H2] H3]. apply String.eqb_neq in H1. auto.
Qed.

Lemma holes_app (a b : list piece) : holes (a ++ b) = holes a ++ holes b.
Proof. unfold holes. apply flat_map_app. Qed.

Lemma exec_all_render_app (ps : list piece) (x : string) :
  forallb shape_piece ps = true ->
  exec_all_from O (render ps +:+ x) = map match_of (holes ps) ++ exec_all_from O x.
Proof.
  induction ps as [|p ps IH]; [reflexivity |].
  cbn [forallb render]. rewrite andb_true_iff. intros [Hp Hps].
  rewrite app_assoc_s.
  destruct p as [text | f].
  - cbn [shape_piece] in Hp. apply negb_true_iff in Hp.
    cbn [render_piece]. rewrite exec_all_from_lit by assumption. now apply IH.
  - apply shape_hole_inv in Hp as (Hne & _ & Hr).
    rewrite exec_all_from_hole by assumption.
    cbn [holes flat_map app map]. unfold match_of at 1. cbn [app]. f_equal.
    now apply IH.
Qed.

Lemma until_rbrace_name (s name after : string) :
  until_rbrace s = Some (name, after) -> includes_char rbrace name = false.
Proof.
  revert name after. induction s as [|c s IH]; intros name after; [discriminate |].
  cbn [until_rbrace]. destruct (Ascii.eqb c rbrace) eqn:E.
  - now intros [= <- _].
  - destruct (until_rbrace s) as [[n a] |]; [| discriminate].
    intros [= <- _]. cbn [includes_char]. rewrite E. now apply (IH n a).
Qed.

(** Every match of the expression is a placeholder: an opening brace, a
    name without a closing brace, a closing brace. *)
Lemma exec_all_from_match (s : string) :
  forall skip m,
    In m (exec_all_from skip s) ->
    fst m = render_piece (Hole (snd m)) /\ includes_char rbrace (snd m) = false.
Proof.
  induction s as [|c s IH]; intros skip m H; [contradiction |].
  cbn [exec_all_from] in H. destruct skip as [|k]; [| now apply (IH k)].
  destruct (Ascii.eqb c lbrace); [| now apply (IH O)].
  destruct (until_rbrace s) as [[[|n name] after] |] eqn:E; try (now apply (IH O)).
  destruct H as [<- | H]; [| exact (IH _ m H)].
  split; [reflexivity |]. exact (until_rbrace_name s _ _ E).
Qed.

(** The pattern of a field with a truthy value is not found in pieces
    that are not substituted. *)
Lemma replace_from_over (resource : Document) (g repl : string) :
  includes_char rbrace g = false ->
  js_truthy (Obj.get resource g) = true ->
  forall done before x,
    forallb (unresolved_piece resource) done = true ->
    exists before',
      replace_from (render_piece (Hole g)) repl before (render done +:+ x)
      = render done +:+ replace_from (render_piece (Hole g)) repl before' x.
Proof.
  intros Hg Htruthy.
  induction done as [|p done IH]; intros before x Hdone; [now exists before |].
  cbn [forallb] in Hdone. apply andb_true_iff in Hdone as [Hp Hdone].
  destruct p as [text | f].
  - cbn [unresolved_piece] in Hp. apply negb_true_iff in Hp.
    destruct (IH (before +:+ text) x Hdone) as [before' E].
    exists before'. cbn [render render_piece]. rewrite !app_assoc_s.
    change (render_piece (Hole g)) with (String lbrace (g +:+ String rbrace "")).
    rewrite replace_from_skip by assumption.
    f_equal. exact E.
  - cbn [unresolved_piece] in Hp. apply andb_true_iff in Hp as [Hf Hfalsy].
    apply negb_true_iff in Hfalsy.
    destruct (shape_hole_inv f Hf) as (_ & Hfl & Hfr).
    assert (Hgf : g <> f) by (intros ->; congruence).
    destruct (IH ((before +:+ String lbrace "") +:+ (f +:+ String rbrace "")) x Hdone)
      as [before' E].
    exists before'. cbn [render]. rewrite !app_assoc_s.
    rewrite replace_from_unfold.
    rewrite hole_prefix_differs by assumption.
    change (render_piece (Hole f) +:+ ?z)
      with (String lbrace ((f +:+ String rbrace "") +:+ z)).
    lazy beta iota. f_equal.
    change (render_piece (Hole g)) with (String lbrace (g +:+ String rbrace "")).
    rewrite replace_from_skip
      by (rewrite includes_char_app, Hfl; simpl; now rewrite ?Ascii.eqb_refl).
    change (String lbrace (g +:+ String rbrace "")) with (render_piece (Hole g)).
    rewrite E. reflexivity.
Qed.

(** The replacement of one supplied placeholder, after pieces that are
    not substituted. *)
Lemma replace_supplied (resource : Document) (f : string) (more : list piece)
    (rest : string) :
  shape_piece (Hole f) = true ->
  js_truthy (Obj.get resource f) = true ->
  verbatim_value (Obj.get resource f) = true ->
  forall done,
    forallb (unresolved_piece resource) done = true ->
    replace (render_piece (Hole f)) (js_String (Obj.get resource f))
      (render (done ++ Hole f :: more) +:+ rest)
    = render (done ++ supplied_text resource (Hole f) :: more) +:+ rest.
Proof.
  intros Hf Htruthy Hverb done Hdone.
  destruct (shape_hole_inv f Hf) as (_ & _ & Hfr).
  unfold verbatim_value in Hverb. apply andb_true_iff in Hverb as [_ Hpat].
  unfold replace. rewrite !render_app, !app_assoc_s.
  destruct (replace_from_over resource f (js_String (Obj.get resource f)) Hfr Htruthy
              done "" (render (Hole f :: more) +:+ rest) Hdone) as [before' ->].
  f_equal. cbn [render supplied_text piece_text render_piece].
  rewrite !app_assoc_s.
  change (String lbrace (f +:+ String rbrace "")) with (render_piece (Hole f)).
  rewrite replace_from_here. now rewrite get_substitution_verbatim.
Qed.

Lemma unresolved_supplied_text (resource : Document) (p : piece) :
  shape_piece p = true -> supplied_piece resource p = true ->
  unresolved_piece resource (supplied_text resource p) = true.
Proof.
  destruct p as [text | f]; cbn [shape_piece supplied_piece supplied_text piece_text
                                  unresolved_piece]; [auto |].
  intros _ H. apply andb_true_iff in H as [_ H].
  unfold verbatim_value in H. now apply andb_true_iff in H as [H _].
Qed.

(** The loop of [replaceFieldWithValue] over supplied placeholders,
    whatever follows them. *)
Lemma replace_loop_supplied (resource : Document) (todo : list piece) (rest : string) :
  forallb shape_piece todo = true ->
  forallb (supplied_piece resource) todo = true ->
  forall done,
    forallb (unresolved_piece resource) done = true ->
    fold_left (replace_step resource) (map match_of (holes todo))
      (render (done ++ todo) +:+ rest)
    = render (done ++ map (supplied_text resource) todo) +:+ rest.
Proof.
  induction todo as [|p todo IH]; intros Hshape Hsup done Hdone; [reflexivity |].
  cbn [forallb] in Hshape, Hsup.
  apply andb_true_iff in Hshape as [Hp Hshape].
  apply andb_true_iff in Hsup as [Hpp Hsup].
  assert (Hnext : forallb (unresolved_piece resource) (done ++ [supplied_text resource p])
                  = true).
  { rewrite forallb_app, Hdone. cbn [forallb]. now rewrite unresolved_supplied_text. }
  specialize (IH Hshape Hsup _ Hnext).
  rewrite <- !app_assoc in IH. cbn [app] in IH.
  destruct p as [text | f].
  - exact IH.
  - cbn [holes flat_map app map fold_left].
    change (match_of f) with (render_piece (Hole f), f).
    unfold replace_step at 2. cbn [fst snd].
    cbn [supplied_piece] in Hpp. apply andb_true_iff in Hpp as [Htruthy Hverb].
    rewrite Htruthy.
    rewrite (replace_supplied resource f todo rest Hp Htruthy Hverb done Hdone).
    exact IH.
Qed.

Lemma replace_step_over (resource : Document) (done : list piece) (x : string)
    (m : string * string) :
  forallb (unresolved_piece resource) done = true ->
  fst m = render_piece (Hole (snd m)) ->
  includes_char rbrace (snd m) = false ->
  exists y, replace_step resource (render done +:+ x) m = render done +:+ y.
Proof.
  intros Hdone Hm Hr. unfold replace_step.
  destruct (js_truthy (Obj.get resource (snd m))) eqn:E; [| now exists x].
  rewrite Hm. unfold replace.
  destruct (replace_from_over resource (snd m) (js_String (Obj.get resource (snd m)))
              Hr E done "" x Hdone) as [before' ->].
  eexists; reflexivity.
Qed.

Lemma fold_replace_over (resource : Document) (done : list piece)
    (ms : list (string * string)) :
  forallb (unresolved_piece resource) done = true ->
  (forall m, In m ms ->
             fst m = render_piece (Hole (snd m)) /\ includes_char rbrace (snd m) = false) ->
  forall x, exists y, fold_left (replace_step resource) ms (render done +:+ x)
                      = render done +:+ y.
Proof.
  intros Hdone. induction ms as [|m ms IH]; intros Hms x; [now exists x |].
  cbn [fold_left].
  destruct (Hms m (or_introl eq_refl)) as [Hm Hr].
  destruct (replace_step_over resource done x m Hdone Hm Hr) as [y ->].
  apply IH. intros m' Hm'. apply Hms. now right.
Qed.

Lemma render_supplied_clean (resource : Document) (pre : list piece) :
  forallb shape_piece pre = true ->
  forallb (supplied_piece resource) pre = true ->
  includes_char lbrace (render (map (supplied_text resource) pre)) = false.
Proof.
  induction pre as [|p pre IH]; [reflexivity |].
  cbn [forallb map render]. rewrite !andb_true_iff. intros [Hp Hshape] [Hpp Hsup].
  rewrite includes_char_app, (IH Hshape Hsup), orb_false_r.
  pose proof (unresolved_supplied_text resource p Hp Hpp) as H.
  cbn [supplied_text unresolved_piece] in H. now apply negb_true_iff in H.
Qed.

Lemma concat_empty (l : list string) :
  String.concat "" l = fold_right String.append "" l.
Proof.
  induction l as [|a l IH]; [reflexivity |].
  destruct l as [|b l]; [cbn; now rewrite app_empty_r_s |].
  change (String.concat "" (a :: b :: l)) with (a +:+ String.concat "" (b :: l)).
  now rewrite IH.
Qed.

Lemma render_supplied_texts (resource : Document) (pre : list piece) :
  render (map (supplied_text resource) pre)
  = String.concat "" (map (piece_text resource) pre).
Proof.
  rewrite concat_empty.
  induction pre as [|p pre IH]; [reflexivity |].
  cbn [map render fold_right supplied_text render_piece]. now rewrite IH.
Qed.

(** The value [buildIndexes] computes from a template that starts with
    supplied pieces and a placeholder that is not substituted: the text
    of the supplied pieces. *)
Lemma buildIndexValue_truncated (self : DbModel) (resource : Document)
    (segments : list string) (pre : list piece) (f : string) (rest : string) :
  join indexValueSeparator (tenantId self :: segments)
  = render (pre ++ [Hole f]) +:+ rest ->
  forallb shape_piece (pre ++ [Hole f]) = true ->
  forallb (supplied_piece resource) pre = true ->
  js_truthy (Obj.get resource f) = false ->
  buildIndexValue self resource segments
  = String.concat "" (map (piece_text resource) pre).
Proof.
  intros Hjoin Hshape Hsup Hfalsy.
  pose proof Hshape as Hshape'.
  rewrite forallb_app in Hshape'. apply andb_true_iff in Hshape' as [Hpre Hf].
  cbn [forallb] in Hf. rewrite andb_true_r in Hf.
  unfold buildIndexValue. rewrite truncate_split_head, Hjoin.
  unfold replaceFieldWithValue, exec_all.
  change (fold_left _ ?ms ?a) with (fold_left (replace_step resource) ms a).
  rewrite exec_all_render_app by assumption.
  rewrite holes_app, map_app, !fold_left_app.
  pose proof (replace_loop_supplied resource pre (render [Hole f] +:+ rest)
                Hpre Hsup [] eq_refl) as H1.
  cbn [app] in H1.
  rewrite render_app, app_assoc_s, H1.
  cbn [holes flat_map app map fold_left].
  change (match_of f) with (render_piece (Hole f), f).
  unfold replace_step at 2. cbn [fst snd]. rewrite Hfalsy.
  rewrite <- app_assoc_s, <- render_app.
  destruct (fold_replace_over resource (map (supplied_text resource) pre ++ [Hole f])
              (exec_all_from 0 rest)) with (x := rest) as [y ->].
  - rewrite forallb_app. cbn [forallb unresolved_piece]. rewrite Hf, Hfalsy.
    cbn [negb andb]. rewrite andb_true_r.
    clear -Hpre Hsup. induction pre as [|p pre IH]; [reflexivity |].
    cbn [forallb map] in *. apply andb_true_iff in Hpre as [Hp Hpre].
    apply andb_true_iff in Hsup as [Hpp Hsup].
    now rewrite unresolved_supplied_text, IH.
  - apply exec_all_from_match.
  - rewrite render_app, app_assoc_s.
    rewrite split_head_app by (now apply render_supplied_clean).
    cbn [render render_piece].
    change ((String lbrace (f +:+ String rbrace "") +:+ "") +:+ y)
      with (String lbrace (((f +:+ String rbrace "") +:+ "") +:+ y)).
    cbn [split_head]. rewrite Ascii.eqb_refl, app_empty_r_s.
    apply render_supplied_texts.
Qed.


(** What [replaceFieldWithValue] makes of a lone placeholder. *)
Lemma replaceFieldWithValue_placeholder (resource : Document) (f : string) :
  shape_piece (Hole f) = true ->
  replaceFieldWithValue (render_piece (Hole f)) resource
  = if js_truthy (Obj.get resource f)
    then replace (render_piece (Hole f)) (js_String (Obj.get resource f))
           (render_piece (Hole f))
    else render_piece (Hole f).
Proof.
  intros Hf. apply shape_hole_inv in Hf as (Hne & _ & Hr).
  unfold replaceFieldWithValue, exec_all.
  rewrite <- (app_empty_r_s (render_piece (Hole f))) at 1.
  rewrite exec_all_from_hole by assumption.
  cbn [exec_all_from fold_left fst snd]. reflexivity.
Qed.

Lemma replace_placeholder_verbatim (f : string) (v : jsval) :
  verbatim_value v = true ->
  replace (render_piece (Hole f)) (js_String v) (render_piece (Hole f)) = js_String v.
Proof.
  intros H. unfold verbatim_value in H. apply andb_true_iff in H as [_ H].
  unfold replace.
  rewrite <- (app_empty_r_s (render_piece (Hole f))) at 2.
  rewrite replace_from_here, get_substitution_verbatim by assumption.
  apply app_empty_r_s.
Qed.

End RemainderFacts.

(** *** The claims on index key construction *)




(** C10 (amended). A field that holds a falsy value and whose name is
    not one that every object inherits is treated exactly like a field
    that the entity does not have: the keys built from the entity and
    from the entity without the field are the same, for every index
    configuration. Its placeholder is not substituted, and the key stops
    at it: when the placeholder comes after pieces that the entity
    supplies, the key is the text of those pieces. And a placeholder is
    replaced, by [String.prototype.replace] with the text of the value,
    exactly when the value read under its name is truthy; the
    replacement is the text itself when the value is verbatim. *)
Theorem falsy_field_is_treated_as_absent
    (self : DbModel) (resource : Document) (f : string) (v : jsval) :
  Obj.lookup resource f = Some v ->
  js_truthy v = false ->
  (Obj.inherited f = JUndefined ->
   forall (cfg : IndexFieldsMap) (config : BuildIndexesConfig),
     buildIndexes self resource cfg config
     = buildIndexes self (Obj.remove resource f) cfg config)
  /\ (forall (cfg : IndexFieldsMap) (config : BuildIndexesConfig) (attr : string)
             (segments : list string) (pre : list piece) (rest : string),
        Obj.wf cfg = true ->
        Obj.lookup cfg attr = Some segments ->
        selected config attr = true ->
        JsString.join indexValueSeparator (tenantId self :: segments)
        = render (pre ++ [Hole f]) +:+ rest ->
        forallb shape_piece (pre ++ [Hole f]) = true ->
        forallb (supplied_piece resource) pre = true ->
        Obj.lookup (buildIndexes self resource cfg config) attr
        = Some (String.concat "" (map (piece_text resource) pre)))
  /\ (forall other : Document,
        shape_piece (Hole f) = true ->
        replaceFieldWithValue (render_piece (Hole f)) other
        = if js_truthy (Obj.get other f)
          then JsString.replace (render_piece (Hole f)) (js_String (Obj.get other f))
                 (render_piece (Hole f))
          else render_piece (Hole f))
  /\ (forall other : Document,
        verbatim_value (Obj.get other f) = true ->
        JsString.replace (render_piece (Hole f)) (js_String (Obj.get other f))
          (render_piece (Hole f))
        = js_String (Obj.get other f)).
Proof.
  intros Hv Hfalsy.
  assert (Hget : js_truthy (Obj.get resource f) = false)
    by (unfold Obj.get; now rewrite Hv).
  split; [| split; [| split]].
  - intros Hin cfg config. now apply buildIndexes_falsy.
  - intros cfg config attr segments pre rest Hwf Hattr Hsel Hjoin Hshape Hsup.
    rewrite (buildIndexes_lookup self resource cfg config attr _ Hwf Hattr Hsel).
    f_equal. now apply (buildIndexValue_truncated self resource segments pre f rest).
  - intros other Hf. now apply replaceFieldWithValue_placeholder.
  - intros other Hverb. now apply replace_placeholder_verbatim.
Qed.

Lemma falsy_field_witness :
  buildIndexes Sample.users [("id", JStr "7"); ("email", JNum 0)] Sample.fields
    Sample.all_fields
  = buildIndexes Sample.users (Obj.remove [("id", JStr "7"); ("email", JNum 0)] "email")
      Sample.fields Sample.all_fields
  /\ Obj.lookup
       (buildIndexes Sample.users [("id", JStr "7"); ("email", JNum 0)] Sample.fields
          Sample.all_fields)
       "GSI1SK" = Some "acme#User#"
  /\ replaceFieldWithValue "{email}" [("email", JStr "a@b.com")] = "a@b.com".
Proof.
  destruct (falsy_field_is_treated_as_absent Sample.users
              [("id", JStr "7"); ("email", JNum 0)] "email" (JNum 0) eq_refl eq_refl)
    as (H1 & H2 & H3 & H4).
  refine (conj (H1 eq_refl Sample.fields Sample.all_fields) (conj _ _)).
  - exact (H2 Sample.fields Sample.all_fields "GSI1SK"
             ["User"; "{email}"; "{nationalId}"] [Lit "acme#User#"] "#{nationalId}"
             eq_refl eq_refl eq_refl eq_refl eq_refl eq_refl).
  - exact (eq_trans (H3 [("email", JStr "a@b.com")] eq_refl)
             (H4 [("email", JStr "a@b.com")] eq_refl)).
Defined.

(** C10 as stated fails. For a placeholder that names something every
    object inherits, a field that holds a falsy value hides what is
    inherited, while the entity without the field reads the inherited
    function, whose text is substituted: with the template [{toString}]
    the own value [0] gives [acme#User#] and the entity without it
    gives [acme#User#function toString() ]. *)
Lemma falsy_field_counterexample : ~ falsy_as_absent_statement.
Proof.
  intros H.
  specialize (H Sample.users [("toString", JNum 0)] [("PK", ["User"; "{toString}"])]
                Sample.all_fields "toString" (JNum 0) eq_refl eq_refl eq_refl).
  vm_compute in H. discriminate H.
Qed.


(** ** The transaction executor *)

Section ExecutorFacts.

Lemma try_catch_finally_reset {A} (body : M A) (handler : exn -> M A) (s0 s : Scratch) :
  snd (try_catch_finally body handler (put_scratch s0) s) = s0.
Proof.
  unfold try_catch_finally, put_scratch.
  destruct (body s) as [[a | e] s1]; [reflexivity |].
  destruct (handler e s1) as [r2 s2]. reflexivity.
Qed.

Lemma forEach_from_noop (reasons : list CancellationReason) :
  forallb code_is_None reasons = true ->
  forall index s, forEach_from handle_reason index reasons s = (Ok tt, s).
Proof.
  induction reasons as [|r reasons IH]; simpl; [reflexivity |].
  rewrite andb_true_iff. intros [Hr Hrs] index s.
  unfold bind, handle_reason at 1. rewrite Hr. simpl. now apply IH.
Qed.

Lemma forEach_from_first_failure (pre : list CancellationReason) (r : CancellationReason)
    (suf : list CancellationReason) :
  forallb code_is_None pre = true ->
  code_is_None r = false ->
  forall index s,
    forEach_from handle_reason index (pre ++ r :: suf) s =
    (Throw (raised_for s r (index + Z.of_nat (List.length pre))), s).
Proof.
  intros Hpre Hr. induction pre as [|p pre IH]; intros index s.
  - simpl. unfold bind, handle_reason at 1, raised_for. rewrite Hr. simpl.
    rewrite Z.add_0_r. unfold bind, get_scratch.
    now destruct (errorPayloads s !! errorKey (code_text r) index).
  - simpl in Hpre. apply andb_true_iff in Hpre as [Hp Hpre].
    simpl app. cbn [forEach_from]. unfold bind at 1, handle_reason at 1. rewrite Hp. simpl.
    rewrite IH by assumption.
    replace (index + 1 + Z.of_nat (List.length pre))
      with (index + Z.of_nat (List.length (p :: pre)))
      by (cbn [List.length]; lia).
    reflexivity.
Qed.

Lemma trxHandleError_noop (reasons : list CancellationReason) (s : Scratch) :
  forallb code_is_None reasons = true ->
  trxHandleError (TransactionCanceledException (Some reasons)) s = (Ok tt, s).
Proof. intros H. exact (forEach_from_noop reasons H 0 s). Qed.

Lemma trxHandleError_first_failure (pre : list CancellationReason) (r : CancellationReason)
    (suf : list CancellationReason) (s : Scratch) :
  forallb code_is_None pre = true ->
  code_is_None r = false ->
  trxHandleError (TransactionCanceledException (Some (pre ++ r :: suf))) s =
  (Throw (raised_for s r (Z.of_nat (List.length pre))), s).
Proof. intros Hpre Hr. exact (forEach_from_first_failure pre r suf Hpre Hr 0 s). Qed.

(** What [trxExecute] does when the client throws. *)
Lemma trxExecute_client_throws (rt : Runtime) (s : Scratch) (e : exn) :
  send_transact rt (items s) = Throw e ->
  trxExecute rt s =
  (match fst (trxHandleError e s) with
   | Ok _ => Throw e
   | Throw e' => Throw e'
   end, emptyScratch).
Proof.
  intros Hsend. unfold trxExecute, try_catch_finally.
  unfold bind at 1, get_scratch at 1, bind at 1, lift at 1. rewrite Hsend.
  unfold bind at 1. destruct (trxHandleError e s) as [[[] | e'] s1]; reflexivity.
Qed.

(** What [trxExecute] does when the client answers. *)
Lemma trxExecute_client_answers (rt : Runtime) (s : Scratch) (status : Z) :
  send_transact rt (items s) = Ok status ->
  trxExecute rt s =
  (if status =? 200 then Ok tt else Throw (Error_TransactionFailed status), emptyScratch).
Proof.
  intros Hsend. unfold trxExecute, try_catch_finally.
  unfold bind at 1, get_scratch at 1, bind at 1, lift at 1. rewrite Hsend.
  destruct (status =? 200); reflexivity.
Qed.

(** *** Error keys name one code and one position *)

Lemma to_int_not_nil (z : Z) :
  Z.to_int z <> Decimal.Pos Decimal.Nil /\ Z.to_int z <> Decimal.Neg Decimal.Nil.
Proof.
  destruct z as [|p|p]; simpl; split; intros H; try discriminate;
    injection H as H; now apply (Unsigned.to_uint_nonnil p).
Qed.

Lemma of_Z_inj (a b : Z) : JsString.of_Z a = JsString.of_Z b -> a = b.
Proof.
  unfold JsString.of_Z. intros H.
  apply (f_equal NilZero.int_of_string) in H.
  rewrite !NilZero.isi in H by apply to_int_not_nil.
  injection H as H. apply (f_equal Z.of_int) in H.
  now rewrite !DecimalZ.of_to in H.
Qed.

Lemma uint_no_minus (d : Decimal.uint) :
  JsString.includes_char "-" (NilEmpty.string_of_uint d) = false.
Proof. induction d; simpl; auto. Qed.

Lemma of_Z_no_minus (n : Z) : 0 <= n -> JsString.includes_char "-" (JsString.of_Z n) = false.
Proof.
  intros Hn. unfold JsString.of_Z. destruct n as [|p|p]; [reflexivity | | lia].
  simpl. unfold NilZero.string_of_uint.
  destruct (Pos.to_uint p) eqn:E; try reflexivity; apply uint_no_minus.
Qed.

Lemma split_at_last_minus (a a' d d' : string) :
  JsString.includes_char "-" d = false ->
  JsString.includes_char "-" d' = false ->
  a +:+ "-" +:+ d = a' +:+ "-" +:+ d' ->
  a = a' /\ d = d'.
Proof.
  intros Hd Hd'. revert a'.
  induction a as [|x a IH]; intros [|y a'] H; simpl in H.
  - injection H as H. auto.
  - injection H as _ H. subst d.
    rewrite includes_char_app in Hd. simpl in Hd. now rewrite orb_true_r in Hd.
  - injection H as _ H. subst d'.
    rewrite includes_char_app in Hd'. simpl in Hd'. now rewrite orb_true_r in Hd'.
  - injection H as -> H. apply IH in H as [-> ->]. auto.
Qed.

(** No error key is the name of something that [errorPayloads]
    inherits, so that [key in this.errorPayloads] asks for an own
    property. *)
Lemma errorKey_not_inherited (c : string) (i : Z) : Obj.inherited (errorKey c i) = JUndefined.
Proof.
  assert (Hminus : JsString.includes_char "-" (errorKey c i) = true).
  { unfold errorKey. rewrite includes_char_app. simpl. now rewrite orb_true_r. }
  assert (Hnames : forall names,
             forallb (fun n => negb (JsString.includes_char "-" n)) names = true ->
             existsb (String.eqb (errorKey c i)) names = false).
  { induction names as [|n names IH]; simpl; [reflexivity |].
    rewrite andb_true_iff, negb_true_iff. intros [Hn Hrest].
    rewrite (IH Hrest), orb_false_r.
    apply String.eqb_neq. intros E. rewrite E in Hminus. congruence. }
  unfold Obj.inherited.
  pose proof (Hnames ["constructor"; "__proto__"] eq_refl) as H.
  simpl in H. apply orb_false_iff in H as [H1 H2]. rewrite orb_false_r in H2.
  rewrite H1, H2.
  now rewrite (Hnames Obj.prototype_functions eq_refl).
Qed.

(** Two codes and positions that give the same key are the same. *)
Lemma errorKey_inj (c c' : string) (i i' : Z) :
  0 <= i -> 0 <= i' -> errorKey c i = errorKey c' i' -> c = c' /\ i = i'.
Proof.
  intros Hi Hi' H. unfold errorKey in H.
  apply split_at_last_minus in H as [-> H]; try (now apply of_Z_no_minus).
  split; [reflexivity | now apply of_Z_inj].
Qed.

(** Staging registers the handler of an operation under its position. *)
Lemma handler_registered (item : TransactWriteItem) (reason : string) (payload : exn)
    (s : Scratch) :
  let s' := snd ((push_item item ;;; trxSetErrorHandler reason payload) s) in
  items s' = items s ++ [item]
  /\ errorPayloads s' !! errorKey reason (Z.of_nat (List.length (items s))) = Some payload.
Proof.
  simpl. split; [reflexivity |].
  rewrite length_app. simpl.
  replace (Z.of_nat (List.length (items s) + 1) - 1) with (Z.of_nat (List.length (items s)))
    by lia.
  apply lookup_insert_eq.
Qed.

End ExecutorFacts.

(** C3. Whatever the scratch state and whatever the outcome of
    [execute()] (the store answers with status 200 or another status,
    the client throws, a mapped error is raised), the operation list and
    the error-handler map are empty when control returns to the caller. *)
Theorem execute_always_clears_scratch (rt : Runtime) (s : Scratch) :
  items (snd (trxExecute rt s)) = []
  /\ errorPayloads (snd (trxExecute rt s)) = ∅
  /\ (forall status, send_transact rt (items s) = Ok status ->
        trxExecute rt s =
        (if status =? 200 then Ok tt else Throw (Error_TransactionFailed status), emptyScratch))
  /\ (forall e, send_transact rt (items s) = Throw e ->
        exists raised, trxExecute rt s = (Throw raised, emptyScratch)).
Proof.
  unfold trxExecute at 1 2. rewrite try_catch_finally_reset.
  repeat split.
  - apply trxExecute_client_answers.
  - intros e He. rewrite (trxExecute_client_throws rt s e He).
    destruct (fst (trxHandleError e s)); eauto.
Qed.

(** C2 (amended). When the store aborts a staged transaction with a
    cancellation report in which every code is [None], the handler maps
    nothing and [execute()] raises again the store's own cancellation
    exception; the scratch state is empty afterwards. *)
Theorem execute_rethrows_noop_report (rt : Runtime) (s : Scratch)
    (reasons : list CancellationReason) :
  send_transact rt (items s) = Throw (TransactionCanceledException (Some reasons)) ->
  forallb code_is_None reasons = true ->
  trxExecute rt s = (Throw (TransactionCanceledException (Some reasons)), emptyScratch).
Proof.
  intros Hsend Hnoop.
  rewrite (trxExecute_client_throws rt s _ Hsend).
  now rewrite trxHandleError_noop.
Qed.

Lemma execute_rethrows_noop_witness :
  trxExecute (Sample.store [Sample.noop; Sample.noop] []) Sample.staged =
  (Throw (TransactionCanceledException (Some [Sample.noop; Sample.noop])), emptyScratch).
Proof.
  exact (execute_rethrows_noop_report
           (Sample.store [Sample.noop; Sample.noop] []) Sample.staged
           [Sample.noop; Sample.noop] eq_refl eq_refl).
Defined.

(** C2 as stated fails: with two staged operations and the report
    [None, None], [execute()] does not return normally. *)
Lemma execute_noop_report_counterexample :
  ~ (forall (rt : Runtime) (s : Scratch) (reasons : list CancellationReason),
       send_transact rt (items s) = Throw (TransactionCanceledException (Some reasons)) ->
       forallb code_is_None reasons = true ->
       List.length reasons = List.length (items s) ->
       trxExecute rt s = (Ok tt, emptyScratch)).
Proof.
  intros H.
  specialize (H (Sample.store [Sample.noop; Sample.noop] []) Sample.staged
                [Sample.noop; Sample.noop] eq_refl eq_refl eq_refl).
  rewrite (trxExecute_client_throws
             (Sample.store [Sample.noop; Sample.noop] []) Sample.staged
             (TransactionCanceledException (Some [Sample.noop; Sample.noop])) eq_refl) in H.
  rewrite trxHandleError_noop in H by reflexivity.
  discriminate H.
Qed.



(** ** The query executor *)

(** C8. [queryOne] is [query] with limit 1: an error of [query] is
    passed on; no item gives [null]; one item gives that item; more than
    one item raises the error that names the query values. *)
Theorem queryOne_is_query_with_limit_one (rt : Runtime) (self : DbModel)
    (queryIndexValues : Document) (queryIndex : DbIndex) (config : QueryOneConfig) :
  queryOne rt self queryIndexValues queryIndex config =
  match query rt self queryIndexValues queryIndex
          (mkQueryConfig (one_skMatch config) (Some 1) None (one_sort config)) with
  | Throw e => Throw e
  | Ok page =>
      match data page with
      | [] => Ok None
      | [item] => Ok (Some item)
      | _ :: _ :: _ => Throw (Error_MoreThanOne queryIndexValues)
      end
  end.
Proof.
  unfold queryOne.
  destruct (query rt self queryIndexValues queryIndex _) as [page | e]; [| reflexivity].
  simpl. destruct (data page) as [|item [|item' rest]]; reflexivity.
Qed.

Lemma fromEntries_lookup {V : Type} (l : list (string * V)) (k : string) :
  Obj.wf l = true -> Obj.lookup (Obj.fromEntries l) k = Obj.lookup l k.
Proof.
  intros Hwf. unfold Obj.fromEntries, Obj.assign.
  rewrite (lookup_fold_set (fun v => v) l Hwf). simpl.
  now destruct (Obj.lookup l k).
Qed.

(** [removeIndexProperties] keeps the index attributes and drops the
    other fields. *)
Lemma removeIndexProperties_lookup (resource : Document) (indexFieldsMap : IndexFieldsMap)
    (k : string) :
  Obj.wf resource = true ->
  Obj.lookup (removeIndexProperties resource indexFieldsMap) k =
  if existsb (String.eqb k) (Obj.keys indexFieldsMap) then Obj.lookup resource k else None.
Proof.
  intros Hwf. unfold removeIndexProperties.
  rewrite fromEntries_lookup
    by (now apply (distinct_filter_key
                     (fun key => existsb (String.eqb key) (Obj.keys indexFieldsMap)))).
  apply (lookup_filter_key (fun key => existsb (String.eqb key) (Obj.keys indexFieldsMap))).
Qed.

(** C1 (the code departs from the claim). [query] on a store that holds
    one user item returns an entity made of the four index attributes
    alone: they are not removed, and [id], [email], [createdAt] and
    [updatedAt] are lost. *)
Theorem query_returns_only_index_attributes :
  query (Sample.store [] [Sample.stored]) Sample.users [("id", JStr "7")] Sample.primary
    (mkQueryConfig exact None None None)
  = Ok (mkPage
          [[("PK", JStr "acme#User#7"); ("SK", JStr "acme#User");
            ("GSI1PK", JStr "acme#User"); ("GSI1SK", JStr "acme#User#a@b.com#")]]
          None).
Proof. vm_compute. reflexivity. Qed.

(** ** The expression compiler *)

Section ExpressionFacts.

Variables keyPrefix valuePrefix : string.

Lemma reduce_undefined (payload : Document) :
  forallb (fun e => is_undefined (snd e)) payload = true ->
  forall index acc,
    reduce_from (updateExpressionStep keyPrefix valuePrefix) index payload acc = acc.
Proof.
  induction payload as [|e payload IH]; simpl; [reflexivity |].
  rewrite andb_true_iff. intros [He Hp] index acc.
  unfold updateExpressionStep at 2. rewrite He. now apply IH.
Qed.

Lemma reduce_defined_tail (payload : Document) :
  forallb defined_entry payload = true ->
  forall index acc,
    reduce_from (updateExpressionStep keyPrefix valuePrefix) (S index) payload acc =
    acc +:+ String.concat "" (map (fun e => ", " +:+ setClause keyPrefix valuePrefix e) payload).
Proof.
  induction payload as [|e payload IH]; intros Hdef index acc.
  - simpl. now rewrite app_empty_r_s.
  - simpl in Hdef. apply andb_true_iff in Hdef as [He Hp].
    unfold defined_entry in He. apply negb_true_iff in He.
    cbn [reduce_from]. unfold updateExpressionStep at 2. rewrite He. cbn [Nat.eqb].
    rewrite IH by assumption.
    cbn [map]. unfold setClause at 2.
    rewrite app_assoc_s.
    destruct payload; cbn [map String.concat]; [now rewrite !app_empty_r_s | reflexivity].
Qed.

Lemma join_clauses (first : string) (rest : list string) :
  JsString.join ", " (first :: rest) =
  first +:+ String.concat "" (map (fun c => ", " +:+ c) rest).
Proof.
  unfold JsString.join. revert first.
  induction rest as [|c rest IH]; intros first.
  - simpl. now rewrite app_empty_r_s.
  - change (String.concat ", " (first :: c :: rest))
      with (first +:+ ", " +:+ String.concat ", " (c :: rest)).
    rewrite IH. cbn [map].
    destruct rest; cbn [map String.concat]; [now rewrite !app_empty_r_s |].
    now rewrite app_assoc_s.
Qed.

Lemma reduce_defined (e : string * jsval) (payload : Document) :
  forallb defined_entry (e :: payload) = true ->
  reduce (updateExpressionStep keyPrefix valuePrefix) (e :: payload) "" =
  "SET " +:+ JsString.join ", " (map (setClause keyPrefix valuePrefix) (e :: payload)).
Proof.
  intros Hdef. simpl in Hdef. apply andb_true_iff in Hdef as [He Hp].
  unfold defined_entry in He. apply negb_true_iff in He.
  unfold reduce. cbn [reduce_from].
  unfold updateExpressionStep at 2. rewrite He. cbn [Nat.eqb].
  rewrite reduce_defined_tail by assumption.
  cbn [map]. rewrite join_clauses, map_map.
  unfold setClause at 2.
  rewrite !app_assoc_s. reflexivity.
Qed.

(** A payload whose fields are all defined compiles to one [SET] clause
    with an assignment per field, in order. *)
Lemma getUpdateExpression_defined (e : string * jsval) (payload : Document) :
  forallb defined_entry (e :: payload) = true ->
  getUpdateExpression (e :: payload) keyPrefix valuePrefix =
  Some ("SET " +:+ JsString.join ", " (map (setClause keyPrefix valuePrefix) (e :: payload))).
Proof.
  intros Hdef. unfold getUpdateExpression.
  rewrite reduce_defined by assumption. reflexivity.
Qed.

(** A payload without a defined field compiles to nothing. *)
Lemma getUpdateExpression_undefined (payload : Document) :
  forallb (fun e => is_undefined (snd e)) payload = true ->
  getUpdateExpression payload keyPrefix valuePrefix = None.
Proof.
  intros H. unfold getUpdateExpression, reduce.
  now rewrite reduce_undefined.
Qed.

End ExpressionFacts.

(** C6 (the code departs from the claim). A payload whose first field is
    [undefined] and whose second is defined compiles to a clause that
    does not begin with [SET]. *)
Theorem update_expression_without_SET :
  getUpdateExpression [("a", JUndefined); ("b", JNum 1)] "#" ":" = Some ", #b = :b"
  /\ JsString.startsWith "SET " ", #b = :b" = false.
Proof. split; reflexivity. Qed.

(** ** Records built by assignment and spread *)

Section AssignFacts.

Context {V : Type}.

Lemma has_keys (o : JsRecord V) (k : string) :
  Obj.has o k = existsb (String.eqb k) (Obj.keys o).
Proof.
  unfold Obj.has. destruct (Obj.lookup o k) eqn:E.
  - symmetry. now apply (lookup_present o k v).
  - destruct (existsb (String.eqb k) (Obj.keys o)) eqn:E'; [| reflexivity].
    induction o as [|[k' v'] o IH]; simpl in *; [discriminate |].
    rewrite (String.eqb_sym k k') in E'.
    destruct (String.eqb k' k); [discriminate | now apply IH].
Qed.

Lemma has_set (o : JsRecord V) (k k' : string) (v : V) :
  Obj.has (Obj.set o k' v) k = Obj.has o k || String.eqb k' k.
Proof.
  unfold Obj.has. destruct (String.eqb_spec k' k) as [-> | Hne].
  - rewrite lookup_set_eq. now rewrite orb_true_r.
  - rewrite lookup_set_ne by assumption. now rewrite orb_false_r.
Qed.

Lemma wf_set (o : JsRecord V) (k : string) (v : V) :
  Obj.wf o = true -> Obj.wf (Obj.set o k v) = true.
Proof.
  unfold Obj.wf. induction o as [|[k0 v0] o IH]; simpl; [reflexivity |].
  rewrite andb_true_iff, negb_true_iff. intros [H1 H2].
  destruct (String.eqb k0 k) eqn:E; simpl.
  - now rewrite H1, H2.
  - rewrite IH by assumption. rewrite andb_true_r.
    rewrite <- has_keys, has_set, has_keys, H1.
    apply String.eqb_neq in E. apply not_eq_sym in E. apply String.eqb_neq in E.
    now rewrite E.
Qed.

Lemma wf_fold {B : Type} (f : JsRecord V -> B -> JsRecord V) (l : list B) :
  (forall acc b, Obj.wf acc = true -> Obj.wf (f acc b) = true) ->
  forall acc, Obj.wf acc = true -> Obj.wf (fold_left f l acc) = true.
Proof.
  intros Hf. induction l as [|b l IH]; intros acc Hacc; simpl; [assumption |].
  apply IH. now apply Hf.
Qed.

Lemma wf_assign (t src : JsRecord V) : Obj.wf t = true -> Obj.wf (Obj.assign t src) = true.
Proof. apply wf_fold. intros acc e. apply wf_set. Qed.

Lemma lookup_assign (t src : JsRecord V) (k : string) :
  Obj.wf src = true ->
  Obj.lookup (Obj.assign t src) k =
  match Obj.lookup src k with
  | Some v => Some v
  | None => Obj.lookup t k
  end.
Proof. intros Hwf. exact (lookup_fold_set (fun v => v) src Hwf t k). Qed.

Lemma lookup_assign_absent (t src : JsRecord V) (k : string) :
  Obj.has src k = false -> Obj.lookup (Obj.assign t src) k = Obj.lookup t k.
Proof.
  unfold Obj.assign. revert t.
  induction src as [|[k' v'] src IH]; intros t H; simpl; [reflexivity |].
  rewrite has_keys in H. simpl in H. apply orb_false_iff in H as [H1 H2].
  rewrite IH by (now rewrite has_keys).
  apply lookup_set_ne. apply String.eqb_neq. now rewrite String.eqb_sym.
Qed.

Lemma has_filter (P : string * V -> bool) (o : JsRecord V) (k : string) :
  Obj.has o k = false -> Obj.has (List.filter P o) k = false.
Proof.
  rewrite !has_keys.
  induction o as [|e o IH]; simpl; [reflexivity |].
  rewrite orb_false_iff. intros [H1 H2].
  destruct (P e); simpl; [rewrite H1 |]; now apply IH.
Qed.

Lemma lookup_spread (a b : JsRecord V) (k : string) :
  Obj.wf a = true -> Obj.wf b = true ->
  Obj.lookup (Obj.spread a b) k =
  match Obj.lookup b k with
  | Some v => Some v
  | None => Obj.lookup a k
  end.
Proof.
  intros Ha Hb. unfold Obj.spread.
  rewrite lookup_assign by assumption.
  rewrite (lookup_assign [] a k Ha).
  destruct (Obj.lookup b k); [reflexivity |].
  now destruct (Obj.lookup a k).
Qed.

End AssignFacts.

(** ** Staging an update *)

Section UpdateFacts.

Lemma wf_buildIndexes (self : DbModel) (resource : Document) (cfg : IndexFieldsMap)
    (config : BuildIndexesConfig) :
  Obj.wf (buildIndexes self resource cfg config) = true.
Proof. unfold buildIndexes. apply wf_fold; [| reflexivity]. intros acc e. apply wf_set. Qed.

Lemma keys_strings_as_document (o : JsRecord string) :
  Obj.keys (strings_as_document o) = Obj.keys o.
Proof. unfold Obj.keys, strings_as_document. rewrite map_map. reflexivity. Qed.

Lemma lookup_strings_as_document (o : JsRecord string) (k : string) :
  Obj.lookup (strings_as_document o) k = option_map JStr (Obj.lookup o k).
Proof.
  induction o as [|[k' v'] o IH]; simpl; [reflexivity |].
  destruct (String.eqb k' k); [reflexivity | exact IH].
Qed.

Lemma lookup_restWithout (pk sk : string) (o : JsRecord string) (k : string) :
  Obj.lookup (restWithout pk sk o) k =
  if negb (String.eqb k pk) && negb (String.eqb k sk) then Obj.lookup o k else None.
Proof.
  exact (lookup_filter_key
           (fun key => negb (String.eqb key pk) && negb (String.eqb key sk)) o k).
Qed.

Lemma wf_restWithout (pk sk : string) (o : JsRecord string) :
  Obj.wf o = true -> Obj.wf (restWithout pk sk o) = true.
Proof.
  exact (distinct_filter_key
           (fun key => negb (String.eqb key pk) && negb (String.eqb key sk)) o).
Qed.

Lemma defined_set (o : Document) (k : string) (v : jsval) :
  forallb defined_entry o = true ->
  is_undefined v = false ->
  forallb defined_entry (Obj.set o k v) = true.
Proof.
  intros Ho Hv. induction o as [|[k' v'] o IH]; simpl.
  - unfold defined_entry. simpl. now rewrite Hv.
  - simpl in Ho. apply andb_true_iff in Ho as [H1 H2].
    destruct (String.eqb k' k); simpl.
    + unfold defined_entry at 1. simpl. now rewrite Hv, H2.
    + now rewrite H1, IH.
Qed.

Lemma defined_assign (t src : Document) :
  forallb defined_entry t = true ->
  forallb defined_entry src = true ->
  forallb defined_entry (Obj.assign t src) = true.
Proof.
  unfold Obj.assign. revert t.
  induction src as [|e src IH]; intros t Ht Hsrc; simpl; [assumption |].
  simpl in Hsrc. apply andb_true_iff in Hsrc as [He Hsrc].
  apply IH; [| assumption].
  apply defined_set; [assumption |].
  unfold defined_entry in He. now apply negb_true_iff in He.
Qed.

Lemma defined_filter (o : Document) : forallb defined_entry (List.filter defined_entry o) = true.
Proof.
  induction o as [|e o IH]; simpl; [reflexivity |].
  destruct (defined_entry e) eqn:E; simpl; [now rewrite E |]; exact IH.
Qed.

Lemma defined_removeUndefined (o : Document) :
  forallb defined_entry (removeUndefined o) = true.
Proof.
  unfold removeUndefined, Obj.fromEntries.
  apply defined_assign; [reflexivity |]. apply defined_filter.
Qed.

Lemma defined_strings_as_document (o : JsRecord string) :
  forallb defined_entry (strings_as_document o) = true.
Proof. induction o as [|e o IH]; simpl; [reflexivity | exact IH]. Qed.

Lemma wf_updateBaseData (now : Z) (data : Document) :
  Obj.wf (updateBaseData now data) = true.
Proof. unfold updateBaseData. apply wf_assign, wf_assign. reflexivity. Qed.

Lemma lookup_updateBaseData_updatedAt (now : Z) (data : Document) :
  Obj.lookup (updateBaseData now data) "updatedAt" = Some (JNum now).
Proof. unfold updateBaseData. now rewrite lookup_assign. Qed.

Lemma has_removeUndefined (data : Document) (k : string) :
  Obj.has data k = false -> Obj.has (removeUndefined data) k = false.
Proof.
  intros H. unfold removeUndefined, Obj.fromEntries, Obj.has.
  rewrite lookup_assign_absent; [reflexivity |].
  now apply has_filter.
Qed.

Lemma lookup_updateBaseData_absent (now : Z) (data : Document) (k : string) :
  k <> "updatedAt" ->
  Obj.has data k = false ->
  Obj.lookup (updateBaseData now data) k = None.
Proof.
  intros Hne Hk. unfold updateBaseData.
  rewrite lookup_assign by reflexivity. cbn [Obj.lookup].
  apply not_eq_sym in Hne. apply String.eqb_neq in Hne. rewrite Hne.
  rewrite lookup_assign_absent by (now apply has_removeUndefined).
  reflexivity.
Qed.

Lemma defined_updateBaseData (now : Z) (data : Document) :
  forallb defined_entry (updateBaseData now data) = true.
Proof.
  unfold updateBaseData. apply defined_assign; [| reflexivity].
  apply defined_assign; [reflexivity |]. apply defined_removeUndefined.
Qed.

Lemma wf_updateDataOf (self : DbModel) (baseData : Document) (indexFields : JsRecord string) :
  Obj.wf (updateDataOf self baseData indexFields) = true.
Proof. unfold updateDataOf, Obj.spread. apply wf_assign, wf_assign. reflexivity. Qed.

Lemma defined_updateDataOf (self : DbModel) (baseData : Document)
    (indexFields : JsRecord string) :
  forallb defined_entry baseData = true ->
  forallb defined_entry (updateDataOf self baseData indexFields) = true.
Proof.
  intros H. unfold updateDataOf, Obj.spread.
  apply defined_assign; [| apply defined_strings_as_document].
  now apply defined_assign.
Qed.

(** What the update data holds under a name, in terms of the base data
    and the recomputed index attributes. *)
Lemma lookup_updateDataOf (self : DbModel) (baseData : Document)
    (indexFields : JsRecord string) (k : string) :
  Obj.wf baseData = true ->
  Obj.wf indexFields = true ->
  Obj.lookup (updateDataOf self baseData indexFields) k =
  if negb (String.eqb k (partitionKey (writeIndex self)))
     && negb (String.eqb k (sortKey (writeIndex self)))
  then match Obj.lookup indexFields k with
       | Some value => Some (JStr value)
       | None => Obj.lookup baseData k
       end
  else Obj.lookup baseData k.
Proof.
  intros Hb Hi. unfold updateDataOf.
  rewrite lookup_spread; [| assumption |].
  - rewrite lookup_strings_as_document, lookup_restWithout.
    destruct (negb _ && negb _); [| reflexivity].
    now destruct (Obj.lookup indexFields k).
  - unfold Obj.wf. rewrite keys_strings_as_document. now apply wf_restWithout.
Qed.

End UpdateFacts.

(** ** Name and value maps *)

Section MapFacts.

Lemma has_assign {V : Type} (t src : JsRecord V) (k : string) :
  Obj.has (Obj.assign t src) k = Obj.has t k || Obj.has src k.
Proof.
  unfold Obj.assign. revert t.
  induction src as [|[k' v'] src IH]; intros t; simpl.
  - now rewrite orb_false_r.
  - rewrite IH, has_set, (has_keys ((k', v') :: src)), (has_keys src). simpl.
    rewrite (String.eqb_sym k k'). now rewrite orb_assoc.
Qed.

Lemma lookup_assign_inv {V : Type} (t src : JsRecord V) (k : string) (v : V) :
  Obj.lookup (Obj.assign t src) k = Some v -> In (k, v) src \/ Obj.lookup t k = Some v.
Proof.
  unfold Obj.assign. revert t.
  induction src as [|[k' v'] src IH]; intros t H; simpl in *; [now right |].
  apply IH in H as [H | H]; [now left; right |].
  destruct (String.eqb_spec k' k) as [-> | Hne].
  - rewrite lookup_set_eq in H. injection H as ->. now left; left.
  - rewrite lookup_set_ne in H by assumption. now right.
Qed.

Lemma names_fold (prefix : string) (payload : Document) :
  forallb defined_entry payload = true ->
  forall acc,
    fold_left
      (fun acc e =>
         if is_undefined (snd e) then acc
         else Obj.set acc (mappedKey prefix (fst e)) (fst e))
      payload acc
    = Obj.assign acc (map (nameEntry prefix) payload).
Proof.
  unfold Obj.assign.
  induction payload as [|e payload IH]; intros Hdef acc; simpl; [reflexivity |].
  simpl in Hdef. apply andb_true_iff in Hdef as [He Hdef].
  unfold defined_entry in He. apply negb_true_iff in He. rewrite He.
  now apply IH.
Qed.

Lemma names_of_defined (prefix : string) (payload : Document) :
  forallb defined_entry payload = true ->
  default [] (getExpressionAttributeNames payload prefix)
  = Obj.assign [] (map (nameEntry prefix) payload).
Proof.
  intros Hdef. unfold getExpressionAttributeNames.
  rewrite names_fold by assumption.
  now destruct (Obj.assign [] (map (nameEntry prefix) payload)).
Qed.

Lemma append_inj_l (prefix a b : string) : prefix +:+ a = prefix +:+ b -> a = b.
Proof.
  induction prefix as [|c prefix IH]; simpl; [auto |].
  intros H. injection H as H. now apply IH.
Qed.

Lemma lookup_valueEntries (prefix : string) (payload : Document) (k : string) :
  Obj.lookup (map (valueEntry prefix) payload) (prefix +:+ k) = Obj.lookup payload k.
Proof.
  induction payload as [|[k' v'] payload IH]; simpl; [reflexivity |].
  destruct (String.eqb_spec k' k) as [-> | Hne].
  - now rewrite String.eqb_refl.
  - destruct (String.eqb_spec (prefix +:+ k') (prefix +:+ k)) as [E | _]; [| exact IH].
    apply append_inj_l in E. contradiction.
Qed.

Lemma has_valueEntries (prefix : string) (payload : Document) (k : string) :
  Obj.has (map (valueEntry prefix) payload) (prefix +:+ k) = Obj.has payload k.
Proof. unfold Obj.has. now rewrite lookup_valueEntries. Qed.

Lemma wf_valueEntries (prefix : string) (payload : Document) :
  Obj.wf payload = true -> Obj.wf (map (valueEntry prefix) payload) = true.
Proof.
  unfold Obj.wf.
  induction payload as [|[k v] payload IH]; simpl; [reflexivity |].
  rewrite !andb_true_iff, !negb_true_iff. intros [H1 H2]. split; [| now apply IH].
  change (existsb (String.eqb (prefix +:+ k)) (Obj.keys (map (valueEntry prefix) payload)) = false).
  rewrite <- has_keys, has_valueEntries, has_keys. exact H1.
Qed.

(** The name map names fields of the payload only. *)
Lemma names_lookup_inv (prefix : string) (payload : Document) (alias k : string) :
  forallb defined_entry payload = true ->
  Obj.lookup (default [] (getExpressionAttributeNames payload prefix)) alias = Some k ->
  Obj.has payload k = true.
Proof.
  intros Hdef H. rewrite names_of_defined in H by assumption.
  apply lookup_assign_inv in H as [H | H]; [| discriminate].
  apply in_map_iff in H as ([k' v'] & E & Hin).
  unfold nameEntry in E. simpl in E. injection E as _ ->.
  rewrite has_keys. apply existsb_exists. exists k. split; [| apply String.eqb_refl].
  unfold Obj.keys. apply in_map_iff. now exists (k, v').
Qed.

(** The name map has the alias of every field of the payload. *)
Lemma names_has (prefix : string) (payload : Document) (k : string) :
  forallb defined_entry payload = true ->
  Obj.has payload k = true ->
  Obj.has (default [] (getExpressionAttributeNames payload prefix)) (mappedKey prefix k) = true.
Proof.
  intros Hdef H. rewrite names_of_defined by assumption.
  rewrite has_assign. apply orb_true_iff. right.
  rewrite has_keys in H. rewrite has_keys. apply existsb_exists in H as (k' & Hin & E).
  apply String.eqb_eq in E. subst k'.
  apply existsb_exists. exists (mappedKey prefix k). split; [| apply String.eqb_refl].
  unfold Obj.keys in *. apply in_map_iff in Hin as ([k' v'] & E & Hin). simpl in E. subst k'.
  apply in_map_iff. exists (mappedKey prefix k, k). split; [reflexivity |].
  apply in_map_iff. now exists (k, v').
Qed.

Lemma getUpdateExpression_nonempty (keyPrefix valuePrefix : string) (payload : Document)
    (k : string) (v : jsval) :
  Obj.lookup payload k = Some v ->
  forallb defined_entry payload = true ->
  getUpdateExpression payload keyPrefix valuePrefix =
  Some ("SET " +:+ JsString.join ", " (map (setClause keyPrefix valuePrefix) payload)).
Proof.
  intros Hk Hdef. destruct payload as [|e payload]; [discriminate |].
  now apply getUpdateExpression_defined.
Qed.

(** *** [marshall] and the value map *)

Lemma convertToAttr_flat (b : bool) (v : jsval) :
  flat_value v = true -> convertToAttr b v = Ok v.
Proof.
  destruct v; cbn [flat_value convertToAttr]; try discriminate; try reflexivity.
  intros H. apply negb_true_iff in H. now rewrite H.
Qed.

Lemma convertToAttr_number (b : bool) (n : Z) (v : jsval) :
  convertToAttr b (JNum n) = Ok v -> v = JNum n.
Proof.
  cbn [convertToAttr]. destruct (_ || _); [discriminate |]. now intros [= <-].
Qed.

Lemma convertToAttr_defined (b : bool) (v v' : jsval) :
  convertToAttr b v = Ok v' -> is_undefined v' = false.
Proof.
  destruct v; cbn [convertToAttr]; try discriminate; try (now intros [= <-]).
  - destruct (_ || _); [discriminate | now intros [= <-]].
  - destruct (convertEntries _ _ fields); [| discriminate]. now intros [= <-].
Qed.

Lemma skipped_flat (b : bool) (v : jsval) : flat_value v = true -> skipped b v = false.
Proof. now destruct v. Qed.

Lemma convertEntries_same (skip : jsval -> bool) (convert : jsval -> result jsval)
    (o : Document) :
  (forall e, In e o -> skip (snd e) = false /\ convert (snd e) = Ok (snd e)) ->
  convertEntries skip convert o = Ok o.
Proof.
  induction o as [|[k v] o IH]; intros H; [reflexivity |].
  cbn [convertEntries fst snd].
  destruct (H (k, v) (or_introl eq_refl)) as [Hs Hc]. cbn [snd] in Hs, Hc.
  rewrite Hs, Hc. cbn [result_bind].
  rewrite IH by (intros e He; apply H; now right). reflexivity.
Qed.

Lemma marshall_flat (o : Document) (b : bool) :
  forallb (fun e => flat_value (snd e)) o = true -> marshall o b = Ok o.
Proof.
  intros H. unfold marshall. apply convertEntries_same. intros e He.
  pose proof (proj1 (forallb_forall _ _) H e He) as Hf.
  split; [now apply skipped_flat | now apply convertToAttr_flat].
Qed.

Lemma flat_strings_as_document (o : JsRecord string) :
  forallb (fun e => flat_value (snd e)) (strings_as_document o) = true.
Proof. induction o as [|e o IH]; simpl; [reflexivity | exact IH]. Qed.

Lemma marshall_strings (o : JsRecord string) (b : bool) :
  marshall (strings_as_document o) b = Ok (strings_as_document o).
Proof. apply marshall_flat, flat_strings_as_document. Qed.

Lemma marshall_throws (o : Document) (b : bool) (e : exn) :
  marshall o b = Throw e ->
  exists k v, In (k, v) o /\ skipped b v = false /\ convertToAttr b v = Throw e.
Proof.
  unfold marshall. induction o as [|[k v] o IH]; [discriminate |].
  cbn [convertEntries fst snd].
  destruct (skipped b v) eqn:Hs.
  - intros H. destruct (IH H) as (k' & v' & Hin & H'). exists k', v'. split; [now right | exact H'].
  - destruct (convertToAttr b v) as [attr |e'] eqn:Hc; cbn [result_bind].
    + destruct (convertEntries _ _ o) as [m |e'] eqn:Ho; cbn [result_bind]; [discriminate |].
      intros [= <-]. destruct (IH eq_refl) as (k' & v' & Hin & H').
      exists k', v'. split; [now right | exact H'].
    + intros [= <-]. exists k, v. split; [now left | now split].
Qed.

Lemma has_cons {V : Type} (k' : string) (v : V) (o : JsRecord V) (k : string) :
  Obj.has ((k', v) :: o) k = String.eqb k' k || Obj.has o k.
Proof. unfold Obj.has. cbn [Obj.lookup]. now destruct (String.eqb k' k). Qed.

Lemma wf_cons {V : Type} (k : string) (v : V) (o : JsRecord V) :
  Obj.wf ((k, v) :: o) = negb (Obj.has o k) && Obj.wf o.
Proof. unfold Obj.wf. now rewrite has_keys. Qed.

Section Entries.

Variable skip : jsval -> bool.
Variable convert : jsval -> result jsval.

Lemma has_convertEntries (o m : Document) (k : string) :
  convertEntries skip convert o = Ok m -> Obj.has m k = true -> Obj.has o k = true.
Proof.
  revert m. induction o as [|[k' v] o IH]; intros m.
  - intros [= <-] H. discriminate H.
  - cbn [convertEntries fst snd]. rewrite has_cons.
    destruct (skip v).
    + intros H Hm. rewrite (IH m H Hm). apply orb_true_r.
    + destruct (convert v) as [attr |]; cbn [result_bind]; [| discriminate].
      destruct (convertEntries skip convert o) as [m' |]; cbn [result_bind]; [| discriminate].
      intros [= <-]. rewrite has_cons.
      destruct (String.eqb k' k); [reflexivity |]. cbn [orb]. now apply IH.
Qed.

Lemma wf_convertEntries (o m : Document) :
  Obj.wf o = true -> convertEntries skip convert o = Ok m -> Obj.wf m = true.
Proof.
  revert m. induction o as [|[k v] o IH]; intros m.
  - intros _ [= <-]. reflexivity.
  - rewrite wf_cons, andb_true_iff, negb_true_iff.
    intros [Hk Ho]. cbn [convertEntries fst snd].
    destruct (skip v); [now apply IH |].
    destruct (convert v) as [attr |]; cbn [result_bind]; [| discriminate].
    destruct (convertEntries skip convert o) as [m' |] eqn:E; cbn [result_bind];
      [| discriminate].
    intros [= <-]. rewrite wf_cons, (IH m' Ho eq_refl), andb_true_r, negb_true_iff.
    destruct (Obj.has m' k) eqn:Hm; [| reflexivity].
    apply (has_convertEntries o m' k E) in Hm. congruence.
Qed.

Lemma lookup_convertEntries (o m : Document) (k : string) :
  Obj.wf o = true ->
  convertEntries skip convert o = Ok m ->
  Obj.lookup m k
  = match Obj.lookup o k with
    | Some v =>
        if skip v then None
        else match convert v with Ok attr => Some attr | Throw _ => None end
    | None => None
    end.
Proof.
  revert m. induction o as [|[k' v] o IH]; intros m.
  - intros _ [= <-]. reflexivity.
  - rewrite wf_cons, andb_true_iff, negb_true_iff.
    intros [Hk Ho]. cbn [convertEntries fst snd Obj.lookup].
    assert (Hrest : forall m', convertEntries skip convert o = Ok m' ->
                               k' = k -> Obj.lookup m' k = None).
    { intros m' E ->. destruct (Obj.lookup m' k) eqn:L; [| reflexivity].
      assert (Hm : Obj.has m' k = true) by (unfold Obj.has; now rewrite L).
      apply (has_convertEntries o m' k E) in Hm. congruence. }
    destruct (skip v) eqn:Hs.
    + intros E. destruct (String.eqb_spec k' k) as [Heq | Hne].
      * rewrite Hs. now apply Hrest.
      * now apply IH.
    + destruct (convert v) as [attr |] eqn:Hc; cbn [result_bind]; [| discriminate].
      destruct (convertEntries skip convert o) as [m' |] eqn:E; cbn [result_bind];
        [| discriminate].
      intros [= <-]. cbn [Obj.lookup].
      destruct (String.eqb k' k); [now rewrite Hs, Hc | now apply IH].
Qed.

Lemma convertEntriesok_In (o m : Document) (k : string) (v : jsval) :
  convertEntries skip convert o = Ok m ->
  In (k, v) o -> skip v = false -> exists attr, convert v = Ok attr.
Proof.
  revert m. induction o as [|[k' v'] o IH]; intros m H Hin Hs; [contradiction |].
  cbn [convertEntries fst snd] in H. destruct Hin as [[= -> ->] | Hin].
  - rewrite Hs in H. destruct (convert v) as [attr |]; [eauto | discriminate].
  - destruct (skip v'); [now apply (IH m) |].
    destruct (convert v'); cbn [result_bind] in H; [| discriminate].
    destruct (convertEntries skip convert o) as [m' |]; [| discriminate].
    now apply (IH m').
Qed.

Lemma convertEntries_throws (o : Document) (e : exn) :
  convertEntries skip convert o = Throw e ->
  exists k v, In (k, v) o /\ skip v = false /\ convert v = Throw e.
Proof.
  induction o as [|[k v] o IH]; [discriminate |].
  cbn [convertEntries fst snd].
  destruct (skip v) eqn:Hs.
  - intros H. destruct (IH H) as (k' & v' & Hin & H'). exists k', v'.
    split; [now right | exact H'].
  - destruct (convert v) as [attr |e'] eqn:Hc; cbn [result_bind].
    + destruct (convertEntries skip convert o) as [m |e'] eqn:Ho; cbn [result_bind];
        [discriminate |].
      intros [= <-]. destruct (IH eq_refl) as (k' & v' & Hin & H').
      exists k', v'. split; [now right | exact H'].
    + intros [= <-]. exists k, v. split; [now left | now split].
Qed.

Lemma convertEntries_total (o : Document) :
  (forall k v, In (k, v) o -> skip v = false -> exists attr, convert v = Ok attr) ->
  exists m, convertEntries skip convert o = Ok m.
Proof.
  induction o as [|[k v] o IH]; intros H; [now exists [] |].
  cbn [convertEntries fst snd].
  destruct IH as [m Hm]; [intros k' v' Hin; apply (H k' v'); now right |].
  destruct (skip v) eqn:Hs; [now exists m |].
  destruct (H k v (or_introl eq_refl) Hs) as [attr Hattr].
  rewrite Hattr, Hm. cbn [result_bind]. eauto.
Qed.

Lemma convertEntries_nil (o m : Document) :
  convertEntries skip convert o = Ok m ->
  (m = [] <-> List.filter (fun e => negb (skip (snd e))) o = []).
Proof.
  revert m. induction o as [|[k v] o IH]; intros m.
  - intros [= <-]. now split.
  - cbn [convertEntries List.filter fst snd].
    destruct (skip v); cbn [negb]; [apply IH |].
    destruct (convert v); cbn [result_bind]; [| discriminate].
    destruct (convertEntries skip convert o); cbn [result_bind]; [| discriminate].
    intros [= <-]. now split.
Qed.

Lemma convertEntries_keys (o m : Document) :
  convertEntries skip convert o = Ok m ->
  Obj.keys m = Obj.keys (List.filter (fun e => negb (skip (snd e))) o).
Proof.
  revert m. induction o as [|[k v] o IH]; intros m.
  - intros [= <-]. reflexivity.
  - cbn [convertEntries List.filter fst snd].
    destruct (skip v); cbn [negb]; [apply IH |].
    destruct (convert v); cbn [result_bind]; [| discriminate].
    destruct (convertEntries skip convert o) as [m' |]; cbn [result_bind]; [| discriminate].
    intros [= <-]. cbn [Obj.keys map fst]. f_equal. now apply IH.
Qed.

End Entries.

Lemma attributeValues_fold_throw (prefix : string) (payload : Document) (e : exn) :
  fold_left (attributeValuesStep prefix) payload (Throw e) = Throw e.
Proof. induction payload as [|x payload IH]; [reflexivity | exact IH]. Qed.

Lemma attributeValues_fold (prefix : string) (payload : Document) :
  forall acc,
    fold_left (attributeValuesStep prefix) payload (Ok acc)
    = result_bind (convertEntries is_undefined marshall_value payload)
        (fun l => Ok (Obj.assign acc (map (valueEntry prefix) l))).
Proof.
  induction payload as [|[k v] payload IH]; intros acc; [reflexivity |].
  cbn [fold_left convertEntries fst snd].
  unfold attributeValuesStep at 2. cbn [result_bind fst snd].
  destruct (is_undefined v); [apply IH |].
  destruct (marshall_value v) as [attr | e]; cbn [result_bind].
  - rewrite IH.
    destruct (convertEntries is_undefined marshall_value payload); reflexivity.
  - apply attributeValues_fold_throw.
Qed.

(** [getExpressionAttributeValues] marshals the defined fields in order
    and binds the results. *)
Lemma getExpressionAttributeValues_entries (payload : Document) (prefix : string) :
  getExpressionAttributeValues payload prefix
  = result_bind (convertEntries is_undefined marshall_value payload)
      (fun l =>
         Ok (match Obj.assign [] (map (valueEntry prefix) l) with
             | [] => None
             | m => Some m
             end)).
Proof.
  unfold getExpressionAttributeValues. rewrite attributeValues_fold.
  destruct (convertEntries is_undefined marshall_value payload) as [l |]; [| reflexivity].
  cbn [result_bind]. now destruct (Obj.assign [] (map (valueEntry prefix) l)).
Qed.

Lemma getExpressionAttributeValues_ok (payload : Document) (prefix : string)
    (values : option Document) :
  getExpressionAttributeValues payload prefix = Ok values ->
  exists l,
    convertEntries is_undefined marshall_value payload = Ok l
    /\ default [] values = Obj.assign [] (map (valueEntry prefix) l).
Proof.
  rewrite getExpressionAttributeValues_entries.
  destruct (convertEntries is_undefined marshall_value payload) as [l |]; [| discriminate].
  cbn [result_bind]. intros [= <-]. exists l. split; [reflexivity |].
  now destruct (Obj.assign [] (map (valueEntry prefix) l)).
Qed.

(** The value map of a payload whose values were all marshalled: the
    placeholder of a field is bound to the marshalled value of the
    field when that is defined, and to nothing otherwise. *)
Lemma values_lookup (payload : Document) (prefix : string) (values : option Document)
    (k : string) :
  Obj.wf payload = true ->
  getExpressionAttributeValues payload prefix = Ok values ->
  Obj.lookup (default [] values) (prefix +:+ k)
  = match Obj.lookup payload k with
    | Some v =>
        if is_undefined v then None
        else match marshall_value v with Ok attr => Some attr | Throw _ => None end
    | None => None
    end.
Proof.
  intros Hwf H. apply getExpressionAttributeValues_ok in H as (l & Hl & ->).
  rewrite lookup_assign
    by (apply wf_valueEntries; exact (wf_convertEntries _ _ payload l Hwf Hl)).
  rewrite lookup_valueEntries.
  rewrite (lookup_convertEntries _ _ payload l k Hwf Hl).
  destruct (Obj.lookup payload k) as [v |]; [| reflexivity].
  destruct (is_undefined v); [reflexivity |].
  now destruct (marshall_value v).
Qed.

Lemma In_lookup_wf {V : Type} (o : JsRecord V) (k : string) (v : V) :
  Obj.wf o = true -> In (k, v) o -> Obj.lookup o k = Some v.
Proof.
  unfold Obj.wf. induction o as [|[k' v'] o IH]; simpl; [contradiction |].
  rewrite andb_true_iff, negb_true_iff. intros [H1 H2] [E | Hin].
  - injection E as -> ->. now rewrite String.eqb_refl.
  - destruct (String.eqb_spec k' k) as [-> | Hne]; [| now apply IH].
    exfalso. assert (Hk : Obj.has o k = true).
    { rewrite has_keys. apply existsb_exists. exists k. split; [| apply String.eqb_refl].
      unfold Obj.keys. apply in_map_iff. now exists (k, v). }
    rewrite has_keys in Hk. congruence.
Qed.

Lemma values_lookup_inv (payload : Document) (prefix : string) (values : option Document)
    (name : string) (attr : jsval) :
  Obj.wf payload = true ->
  getExpressionAttributeValues payload prefix = Ok values ->
  Obj.lookup (default [] values) name = Some attr ->
  exists k v,
    name = prefix +:+ k /\ Obj.lookup payload k = Some v
    /\ is_undefined v = false /\ marshall_value v = Ok attr.
Proof.
  intros Hwf H L. pose proof H as H0.
  apply getExpressionAttributeValues_ok in H as (l & Hl & E). rewrite E in L.
  apply lookup_assign_inv in L as [L | L]; [| discriminate].
  apply in_map_iff in L as ([k w] & Ew & Hin).
  unfold valueEntry in Ew. cbn [fst snd] in Ew. injection Ew as <- <-.
  assert (Lk : Obj.lookup (default [] values) (prefix +:+ k) = Some w).
  { rewrite E, lookup_assign
      by (apply wf_valueEntries; exact (wf_convertEntries _ _ payload l Hwf Hl)).
    rewrite lookup_valueEntries.
    rewrite (In_lookup_wf l k w (wf_convertEntries _ _ payload l Hwf Hl) Hin).
    reflexivity. }
  rewrite (values_lookup payload prefix values k Hwf H0) in Lk.
  destruct (Obj.lookup payload k) as [v |] eqn:Lp; [| discriminate].
  destruct (is_undefined v) eqn:Hu; [discriminate |].
  destruct (marshall_value v) as [attr' |] eqn:Hm; [| discriminate].
  injection Lk as ->. now exists k, v.
Qed.

End MapFacts.

(** ** The cursor codec *)

(** C7. For a position [p] (the object the store returns as its last
    key) that the runtime's [JSON] and base64 codecs carry through
    unchanged, [encode] gives a token and [decode] of that token gives
    [p]; [encode] of [undefined] gives no token; and [decode] of any
    string returns normally, with [undefined] when the decoded text is
    not JSON. *)
Theorem cursor_round_trip (rt : Runtime) (fields : list (string * jsval)) :
  Buffer_from_base64 rt (Buffer_to_base64 rt (JSON_stringify rt (JObj fields)))
    = JSON_stringify rt (JObj fields) ->
  JSON_parse rt (JSON_stringify rt (JObj fields)) = Ok (JObj fields) ->
  (exists token,
      encodeLastEvaluatedKey rt (JObj fields) = Some token
      /\ decodeLastEvaluatedKey rt token = Ok (JObj fields))
  /\ encodeLastEvaluatedKey rt JUndefined = None
  /\ (forall token, exists v, decodeLastEvaluatedKey rt token = Ok v)
  /\ (forall token e,
        JSON_parse rt (Buffer_from_base64 rt token) = Throw e ->
        decodeLastEvaluatedKey rt token = Ok JUndefined).
Proof.
  intros Hbase64 Hjson. split; [| split; [reflexivity | split]].
  - eexists. split; [reflexivity |].
    unfold decodeLastEvaluatedKey. now rewrite Hbase64, Hjson.
  - intros token. unfold decodeLastEvaluatedKey, result_catch.
    destruct (JSON_parse rt (Buffer_from_base64 rt token)); eauto.
  - intros token e H. unfold decodeLastEvaluatedKey. now rewrite H.
Qed.

Lemma cursor_round_trip_witness :
  encodeLastEvaluatedKey (Sample.store [] []) Sample.position
    = Some "eyJHU0kxUEsiOnsiUyI6ImFjbWUjVXNlciJ9LCJHU0kxU0siOnsiUyI6ImFjbWUjVXNlciNhQGIuY29tIyJ9LCJQSyI6eyJTIjoiYWNtZSNVc2VyIzcifSwiU0siOnsiUyI6ImFjbWUjVXNlciJ9fQ=="
  /\ decodeLastEvaluatedKey (Sample.store [] [])
       "eyJHU0kxUEsiOnsiUyI6ImFjbWUjVXNlciJ9LCJHU0kxU0siOnsiUyI6ImFjbWUjVXNlciNhQGIuY29tIyJ9LCJQSyI6eyJTIjoiYWNtZSNVc2VyIzcifSwiU0siOnsiUyI6ImFjbWUjVXNlciJ9fQ=="
     = Ok Sample.position
  /\ decodeLastEvaluatedKey (Sample.store [] []) "not a cursor" = Ok JUndefined.
Proof.
  destruct (cursor_round_trip (Sample.store [] [])
              [("GSI1PK", JObj [("S", JStr "acme#User")]);
               ("GSI1SK", JObj [("S", JStr "acme#User#a@b.com#")]);
               ("PK", JObj [("S", JStr "acme#User#7")]);
               ("SK", JObj [("S", JStr "acme#User")])]
              eq_refl eq_refl) as ((token & Henc & Hdec) & _ & _ & Hbad).
  vm_compute in Henc. injection Henc as <-.
  exact (conj eq_refl (conj Hdec (Hbad "not a cursor" SyntaxError eq_refl))).
Defined.

(** * Further properties of the code *)

(** ** Records written entry by entry *)

Section FreshFacts.

Context {V : Type}.

Lemma set_absent (o : JsRecord V) (k : string) (v : V) :
  Obj.has o k = false -> Obj.set o k v = o ++ [(k, v)].
Proof.
  rewrite has_keys.
  induction o as [|[k' v'] o IH]; simpl; [reflexivity |].
  rewrite orb_false_iff. intros [H1 H2].
  rewrite String.eqb_sym, H1. now rewrite IH.
Qed.

Lemma has_app (a b : JsRecord V) (k : string) :
  Obj.has (a ++ b) k = Obj.has a k || Obj.has b k.
Proof.
  rewrite !has_keys. unfold Obj.keys. now rewrite map_app, existsb_app.
Qed.

End FreshFacts.

(** Writing the entries of a record with distinct names into a record
    that has none of them appends them in order. *)
Lemma fold_set_fresh {V W : Type} (g : W -> V) (l : JsRecord W) :
  Obj.wf l = true ->
  forall acc : JsRecord V,
    forallb (fun k => negb (Obj.has acc k)) (Obj.keys l) = true ->
    fold_left (fun acc e => Obj.set acc (fst e) (g (snd e))) l acc
    = acc ++ map (fun e => (fst e, g (snd e))) l.
Proof.
  unfold Obj.wf.
  induction l as [|[k w] l IH]; intros Hwf acc Hacc; simpl.
  - now rewrite app_nil_r.
  - simpl in Hwf, Hacc.
    apply andb_true_iff in Hwf as [Hk Hwf]. apply negb_true_iff in Hk.
    apply andb_true_iff in Hacc as [Hak Hacc]. apply negb_true_iff in Hak.
    rewrite (set_absent acc k (g w) Hak).
    rewrite IH; [now rewrite <- app_assoc | assumption |].
    clear IH. induction l as [|[k' w'] l IHl]; simpl; [reflexivity |].
    simpl in Hk, Hacc, Hwf.
    apply orb_false_iff in Hk as [Hkk' Hk].
    apply andb_true_iff in Hacc as [Hak' Hacc].
    apply andb_true_iff in Hwf as [_ Hwf].
    rewrite has_app. apply negb_true_iff in Hak'. rewrite Hak'.
    unfold Obj.has at 1. simpl. rewrite Hkk'. simpl.
    now apply IHl.
Qed.

Lemma fromEntries_wf {V : Type} (l : JsRecord V) : Obj.wf l = true -> Obj.fromEntries l = l.
Proof.
  intros Hwf. unfold Obj.fromEntries, Obj.assign.
  rewrite (fold_set_fresh (fun v => v) l Hwf []).
  - simpl. induction l as [|[k v] l IH]; simpl; [reflexivity |].
    f_equal. apply IH. unfold Obj.wf in *. simpl in Hwf.
    now apply andb_true_iff in Hwf as [_ Hwf].
  - clear Hwf. induction (Obj.keys l); simpl; auto.
Qed.

Lemma wf_filter {V : Type} (P : string * V -> bool) (o : JsRecord V) :
  Obj.wf o = true -> Obj.wf (List.filter P o) = true.
Proof.
  unfold Obj.wf. induction o as [|e o IH]; simpl; [reflexivity |].
  rewrite andb_true_iff, negb_true_iff. intros [H1 H2].
  destruct (P e); simpl; [| now apply IH].
  rewrite IH by assumption. rewrite andb_true_r, negb_true_iff.
  rewrite <- has_keys. apply has_filter. now rewrite has_keys.
Qed.

Lemma lookup_filter_wf {V : Type} (P : string * V -> bool) (o : JsRecord V) (k : string) :
  Obj.wf o = true ->
  Obj.lookup (List.filter P o) k =
  match Obj.lookup o k with
  | Some v => if P (k, v) then Some v else None
  | None => None
  end.
Proof.
  unfold Obj.wf. induction o as [|[k' v'] o IH]; simpl; [reflexivity |].
  rewrite andb_true_iff, negb_true_iff. intros [H1 H2].
  destruct (String.eqb_spec k' k) as [-> | Hne].
  - destruct (P (k, v')) eqn:E; simpl.
    + now rewrite String.eqb_refl.
    + rewrite IH by assumption. now rewrite (lookup_absent o k H1).
  - destruct (P (k', v')); simpl; [| now apply IH].
    apply String.eqb_neq in Hne. rewrite Hne. now apply IH.
Qed.

Lemma filter_idem {A : Type} (P : A -> bool) (l : list A) :
  List.filter P (List.filter P l) = List.filter P l.
Proof.
  induction l as [|a l IH]; simpl; [reflexivity |].
  destruct (P a) eqn:E; simpl; [rewrite E; now f_equal | exact IH].
Qed.

(** ** [removeUndefined], [mergeResources], [unmarshallReservedKeys] *)

(** X6. [removeUndefined] keeps the fields whose value is not
    [undefined], with their values and in their order, and drops the
    others; applying it twice changes nothing more. *)
Theorem removeUndefined_keeps_defined_fields (o : Document) :
  Obj.wf o = true ->
  removeUndefined o = List.filter defined_entry o
  /\ forallb defined_entry (removeUndefined o) = true
  /\ removeUndefined (removeUndefined o) = removeUndefined o.
Proof.
  intros Hwf.
  assert (E : removeUndefined o = List.filter defined_entry o).
  { unfold removeUndefined. apply fromEntries_wf. now apply wf_filter. }
  split; [exact E | split; [apply defined_removeUndefined |]].
  rewrite E. unfold removeUndefined.
  change (fun e : string * jsval => negb (is_undefined (snd e))) with defined_entry.
  rewrite filter_idem. apply fromEntries_wf. now apply wf_filter.
Qed.

Lemma removeUndefined_witness :
  removeUndefined [("a", JNum 1); ("b", JUndefined); ("c", JNull)]
  = [("a", JNum 1); ("c", JNull)].
Proof.
  exact (proj1 (removeUndefined_keeps_defined_fields
                  [("a", JNum 1); ("b", JUndefined); ("c", JNull)] eq_refl)).
Defined.

Lemma lookup_removeUndefined (o : Document) (k : string) :
  Obj.wf o = true ->
  Obj.lookup (removeUndefined o) k =
  match Obj.lookup o k with
  | Some v => if is_undefined v then None else Some v
  | None => None
  end.
Proof.
  intros Hwf. unfold removeUndefined.
  rewrite fromEntries_lookup by (now apply wf_filter).
  rewrite lookup_filter_wf by assumption.
  destruct (Obj.lookup o k) as [v |]; [| reflexivity].
  simpl. now destruct (is_undefined v).
Qed.

Lemma wf_removeUndefined (o : Document) : Obj.wf (removeUndefined o) = true.
Proof. unfold removeUndefined, Obj.fromEntries. now apply wf_assign. Qed.

Lemma lookup_mergeResources (old new : Document) (k : string) :
  Obj.lookup (mergeResources [old; new]) k =
  match Obj.lookup (removeUndefined new) k with
  | Some v => Some v
  | None => Obj.lookup (removeUndefined old) k
  end.
Proof.
  unfold mergeResources. cbn [fold_left].
  rewrite lookup_spread; [| apply wf_assign; reflexivity | apply wf_removeUndefined].
  destruct (Obj.lookup (removeUndefined new) k); [reflexivity |].
  unfold Obj.spread. rewrite lookup_assign by apply wf_removeUndefined.
  cbn [Obj.assign fold_left Obj.lookup].
  now destruct (Obj.lookup (removeUndefined old) k).
Qed.

(** X7. [mergeResources(old, new)] takes a field from [new] when [new]
    defines it ([null] counts as defined), and otherwise keeps the value
    that [old] defines: a field that [new] leaves out or holds as
    [undefined] does not erase the old value. The result holds no
    [undefined]. *)
Theorem mergeResources_prefers_defined_new (old new : Document) (k : string) :
  Obj.wf old = true ->
  Obj.wf new = true ->
  Obj.lookup (mergeResources [old; new]) k =
    match Obj.lookup new k with
    | Some v =>
        if is_undefined v then Obj.lookup (removeUndefined old) k else Some v
    | None => Obj.lookup (removeUndefined old) k
    end
  /\ Obj.lookup (mergeResources [old; new]) k <> Some JUndefined.
Proof.
  intros Hold Hnew.
  assert (E : Obj.lookup (mergeResources [old; new]) k =
              match Obj.lookup new k with
              | Some v =>
                  if is_undefined v then Obj.lookup (removeUndefined old) k else Some v
              | None => Obj.lookup (removeUndefined old) k
              end).
  { rewrite lookup_mergeResources, (lookup_removeUndefined new k Hnew).
    destruct (Obj.lookup new k) as [v |]; [| reflexivity].
    now destruct (is_undefined v). }
  split; [exact E |].
  rewrite E, (lookup_removeUndefined old k Hold). intros H.
  destruct (Obj.lookup new k) as [v |]; [destruct (is_undefined v) eqn:Ev |].
  - destruct (Obj.lookup old k) as [w |]; [| discriminate].
    destruct (is_undefined w) eqn:Ew; [discriminate |].
    injection H as ->. discriminate.
  - injection H as ->. discriminate.
  - destruct (Obj.lookup old k) as [w |]; [| discriminate].
    destruct (is_undefined w) eqn:Ew; [discriminate |].
    injection H as ->. discriminate.
Qed.

Lemma mergeResources_witness :
  Obj.lookup
    (mergeResources
       [[("email", JStr "a@b.com"); ("phone", JStr "1")];
        [("email", JStr "new@b.com"); ("phone", JUndefined)]])
    "phone" = Some (JStr "1").
Proof.
  exact (proj1 (mergeResources_prefers_defined_new
                  [("email", JStr "a@b.com"); ("phone", JStr "1")]
                  [("email", JStr "new@b.com"); ("phone", JUndefined)]
                  "phone" eq_refl eq_refl)).
Defined.

Lemma fold_left_ext_in {A B : Type} (f g : A -> B -> A) (l : list B) :
  (forall a b, In b l -> f a b = g a b) -> forall a, fold_left f l a = fold_left g l a.
Proof.
  induction l as [|b l IH]; intros H a; simpl; [reflexivity |].
  rewrite (H a b) by now left. apply IH. intros a' b' Hin. apply H. now right.
Qed.

Lemma replace_prefix_away (k : string) :
  JsString.replace RESERVED_KEYWORD_PREFIX "" (RESERVED_KEYWORD_PREFIX +:+ k) = k.
Proof. unfold JsString.replace. now rewrite replace_from_here. Qed.

(** X8. [unmarshallReservedKeys] leaves a record without aliased names
    as it is, and gives a field stored under the alias of a reserved
    word its own name back. *)
Theorem unmarshallReservedKeys_restores_names (data : Document) :
  Obj.wf data = true ->
  no_alias_key data = true ->
  unmarshallReservedKeys data = data
  /\ (forall prefix k v,
        isReservedKey k = true ->
        unmarshallReservedKeys [(mappedKey prefix k, v)] = [(k, v)]).
Proof.
  intros Hwf Hno. split.
  - unfold unmarshallReservedKeys.
    rewrite (fold_left_ext_in _ (fun acc e => Obj.set acc (fst e) (snd e))).
    + exact (fromEntries_wf data Hwf).
    + intros acc e Hin. unfold no_alias_key in Hno.
      rewrite forallb_forall in Hno. specialize (Hno e Hin).
      apply negb_true_iff in Hno. now rewrite Hno.
  - intros prefix k v Hk. unfold mappedKey. rewrite Hk.
    unfold unmarshallReservedKeys. cbn [fold_left fst snd].
    unfold JsString.startsWith. rewrite prefix_app_s, replace_prefix_away.
    reflexivity.
Qed.

Lemma unmarshallReservedKeys_witness :
  unmarshallReservedKeys Sample.stored = Sample.stored
  /\ unmarshallReservedKeys [("#reserved_name", JStr "Ann")] = [("name", JStr "Ann")].
Proof.
  destruct (unmarshallReservedKeys_restores_names Sample.stored eq_refl eq_refl)
    as [H1 H2].
  exact (conj H1 (H2 "#" "name" (JStr "Ann") eq_refl)).
Defined.

(** X14. For an index configuration, [buildIndexes] gives one entry per
    selected key attribute, in the order of declaration, each computed
    from the template of that attribute alone; an attribute that
    [onlyFields] leaves out has no entry. *)
Theorem buildIndexes_one_entry_per_selected_attribute (self : DbModel)
    (resource : Document) (cfg : IndexFieldsMap) (config : BuildIndexesConfig) :
  Obj.wf cfg = true ->
  buildIndexes self resource cfg config
  = map (fun e => (fst e, buildIndexValue self resource (snd e)))
      (List.filter (fun e => selected config (fst e)) cfg).
Proof.
  intros Hwf. unfold buildIndexes.
  rewrite (fold_set_fresh (buildIndexValue self resource)).
  - reflexivity.
  - now apply wf_filter.
  - induction (Obj.keys _); simpl; auto.
Qed.

Lemma buildIndexes_selected_witness :
  buildIndexes Sample.users Sample.entity Sample.fields
    (mkBuildConfig false (Some ["GSI1PK"; "GSI1SK"]))
  = [("GSI1PK", "acme#User"); ("GSI1SK", "acme#User#a@b.com#")].
Proof.
  exact (buildIndexes_one_entry_per_selected_attribute
           Sample.users Sample.entity Sample.fields
           (mkBuildConfig false (Some ["GSI1PK"; "GSI1SK"])) eq_refl).
Defined.

(** ** More of the expression compiler *)

Section ExpressionShape.

Variables head sep keyPrefix valuePrefix : string.

Lemma reduce_expression_tail (payload : Document) :
  forall index acc,
    reduce_from (expressionStep head sep keyPrefix valuePrefix) (S index) payload acc
    = acc +:+ laterClauses sep keyPrefix valuePrefix payload.
Proof.
  unfold laterClauses.
  induction payload as [|e payload IH]; intros index acc.
  - simpl. now rewrite app_empty_r_s.
  - cbn [reduce_from List.filter]. unfold expressionStep at 2.
    change (defined_entry e) with (negb (is_undefined (snd e))).
    destruct (is_undefined (snd e)); cbn [negb Nat.eqb].
    + apply IH.
    + rewrite IH. cbn [map]. rewrite app_assoc_s.
      destruct (List.filter defined_entry payload);
        cbn [map String.concat]; [now rewrite !app_empty_r_s | reflexivity].
Qed.

Lemma reduce_expression_defined_head (e : string * jsval) (payload : Document) :
  defined_entry e = true ->
  reduce (expressionStep head sep keyPrefix valuePrefix) (e :: payload) ""
  = head +:+ setClause keyPrefix valuePrefix e +:+ laterClauses sep keyPrefix valuePrefix payload.
Proof.
  intros He. unfold defined_entry in He. apply negb_true_iff in He.
  unfold reduce. cbn [reduce_from]. rewrite reduce_expression_tail.
  unfold expressionStep. rewrite He. cbn [Nat.eqb]. now rewrite app_assoc_s.
Qed.

Lemma reduce_expression_none_defined (payload : Document) :
  List.filter defined_entry payload = [] ->
  forall index acc,
    reduce_from (expressionStep head sep keyPrefix valuePrefix) index payload acc = acc.
Proof.
  induction payload as [|e payload IH]; intros Hnone index acc; [reflexivity |].
  cbn [List.filter] in Hnone. cbn [reduce_from]. unfold expressionStep at 2.
  change (defined_entry e) with (negb (is_undefined (snd e))) in Hnone.
  destruct (is_undefined (snd e)); [| discriminate].
  now apply IH.
Qed.

End ExpressionShape.

Lemma join_separated (sep first : string) (rest : list string) :
  JsString.join sep (first :: rest) =
  first +:+ String.concat "" (map (fun c => sep +:+ c) rest).
Proof.
  unfold JsString.join. revert first.
  induction rest as [|c rest IH]; intros first.
  - simpl. now rewrite app_empty_r_s.
  - change (String.concat sep (first :: c :: rest))
      with (first +:+ sep +:+ String.concat sep (c :: rest)).
    rewrite IH. cbn [map].
    destruct rest; cbn [map String.concat]; [now rewrite !app_empty_r_s |].
    now rewrite (app_assoc_s sep c).
Qed.

Lemma clauses_joined (sep keyPrefix valuePrefix : string) (e : string * jsval)
    (payload : Document) :
  defined_entry e = true ->
  setClause keyPrefix valuePrefix e +:+ laterClauses sep keyPrefix valuePrefix payload
  = JsString.join sep
      (map (setClause keyPrefix valuePrefix) (List.filter defined_entry (e :: payload))).
Proof.
  intros He. cbn [List.filter]. rewrite He. cbn [map].
  rewrite join_separated, map_map. reflexivity.
Qed.

Lemma setClause_not_empty (keyPrefix valuePrefix : string) (e : string * jsval) (x : string) :
  String.eqb (setClause keyPrefix valuePrefix e +:+ x) "" = false.
Proof.
  unfold setClause. rewrite app_assoc_s.
  now destruct (mappedKey keyPrefix (fst e)).
Qed.

(** X1. When the first field of the payload is defined,
    [getUpdateExpression] gives [SET] followed by one assignment per
    defined field, in order and separated by commas: fields that hold
    [undefined] do not appear. When no field is defined it gives
    [undefined]. *)
Theorem getUpdateExpression_covers_defined_fields (keyPrefix valuePrefix : string)
    (e : string * jsval) (payload : Document) :
  defined_entry e = true ->
  getUpdateExpression (e :: payload) keyPrefix valuePrefix
  = Some ("SET " +:+
          JsString.join ", "
            (map (setClause keyPrefix valuePrefix) (List.filter defined_entry (e :: payload))))
  /\ (forall skipped : Document,
        List.filter defined_entry skipped = [] ->
        getUpdateExpression skipped keyPrefix valuePrefix = None).
Proof.
  intros He. split.
  - unfold getUpdateExpression.
    change (updateExpressionStep keyPrefix valuePrefix)
      with (expressionStep "SET " ", " keyPrefix valuePrefix).
    rewrite reduce_expression_defined_head by assumption.
    rewrite clauses_joined by assumption. reflexivity.
  - intros skipped Hnone. unfold getUpdateExpression, reduce.
    change (updateExpressionStep keyPrefix valuePrefix)
      with (expressionStep "SET " ", " keyPrefix valuePrefix).
    now rewrite reduce_expression_none_defined.
Qed.

Lemma getUpdateExpression_witness :
  getUpdateExpression [("email", JStr "a@b.com"); ("phone", JUndefined); ("age", JNum 41)]
    "#" ":"
  = Some "SET #email = :email, #age = :age"
  /\ getUpdateExpression [("phone", JUndefined)] "#" ":" = None.
Proof.
  destruct (getUpdateExpression_covers_defined_fields "#" ":"
              ("email", JStr "a@b.com") [("phone", JUndefined); ("age", JNum 41)] eq_refl)
    as [H1 H2].
  exact (conj H1 (H2 [("phone", JUndefined)] eq_refl)).
Defined.

(** X2. When the first field of the payload is defined,
    [getConditionExpression] gives one equality per defined field, in
    order and joined by [AND]; when no field is defined it gives
    [undefined], which stages an unconditional write. *)
Theorem getConditionExpression_covers_defined_fields (keyPrefix valuePrefix : string)
    (e : string * jsval) (payload : Document) :
  defined_entry e = true ->
  getConditionExpression (e :: payload) keyPrefix valuePrefix
  = Some (JsString.join " AND "
            (map (setClause keyPrefix valuePrefix) (List.filter defined_entry (e :: payload))))
  /\ (forall skipped : Document,
        List.filter defined_entry skipped = [] ->
        getConditionExpression skipped keyPrefix valuePrefix = None).
Proof.
  intros He. split.
  - unfold getConditionExpression.
    change (reduce _ (e :: payload) "")
      with (reduce (expressionStep "" " AND " keyPrefix valuePrefix) (e :: payload) "").
    rewrite reduce_expression_defined_head by assumption.
    change ("" +:+ ?x) with x.
    rewrite setClause_not_empty.
    now rewrite clauses_joined.
  - intros skipped Hnone. unfold getConditionExpression.
    change (reduce _ skipped "")
      with (reduce_from (expressionStep "" " AND " keyPrefix valuePrefix) 0 skipped "").
    now rewrite reduce_expression_none_defined.
Qed.

Lemma getConditionExpression_witness :
  getConditionExpression [("status", JStr "open"); ("owner", JUndefined); ("age", JNum 41)]
    "fn" "fv"
  = Some "#reserved_status = fvstatus AND fnage = fvage"
  /\ getConditionExpression [] "#" ":" = None.
Proof.
  destruct (getConditionExpression_covers_defined_fields "fn" "fv"
              ("status", JStr "open") [("owner", JUndefined); ("age", JNum 41)] eq_refl)
    as [H1 H2].
  exact (conj H1 (H2 [] eq_refl)).
Defined.

Lemma names_fold_defined (prefix : string) (payload : Document) :
  forall acc,
    fold_left
      (fun acc e =>
         if is_undefined (snd e) then acc
         else Obj.set acc (mappedKey prefix (fst e)) (fst e))
      payload acc
    = Obj.assign acc (map (nameEntry prefix) (List.filter defined_entry payload)).
Proof.
  unfold Obj.assign.
  induction payload as [|e payload IH]; intros acc; [reflexivity |].
  cbn [fold_left List.filter]. change (defined_entry e) with (negb (is_undefined (snd e))).
  destruct (is_undefined (snd e)); cbn [negb map fold_left]; apply IH.
Qed.

Lemma names_of_payload (prefix : string) (payload : Document) :
  default [] (getExpressionAttributeNames payload prefix)
  = Obj.assign [] (map (nameEntry prefix) (List.filter defined_entry payload)).
Proof.
  unfold getExpressionAttributeNames. rewrite names_fold_defined.
  now destruct (Obj.assign [] (map (nameEntry prefix) (List.filter defined_entry payload))).
Qed.

Lemma set_not_nil {V : Type} (o : JsRecord V) (k : string) (v : V) : Obj.set o k v <> [].
Proof. destruct o as [|[k' v'] o]; simpl; [| destruct (String.eqb k' k)]; discriminate. Qed.

Lemma assign_not_nil {V : Type} (t src : JsRecord V) : t <> [] -> Obj.assign t src <> [].
Proof.
  unfold Obj.assign. revert t.
  induction src as [|e src IH]; intros t Ht; simpl; [assumption |].
  apply IH, set_not_nil.
Qed.

Lemma assign_nil_iff {V : Type} (src : JsRecord V) : Obj.assign [] src = [] <-> src = [].
Proof.
  split; [| now intros ->].
  destruct src as [|e src]; [reflexivity |].
  intros H. exfalso. revert H. unfold Obj.assign. simpl.
  apply (assign_not_nil [(fst e, snd e)] src). discriminate.
Qed.

Lemma map_nil_iff {A B : Type} (f : A -> B) (l : list A) : map f l = [] <-> l = [].
Proof. destruct l; simpl; split; intros H; try reflexivity; discriminate. Qed.

Lemma lookup_In {V : Type} (o : JsRecord V) (k : string) (v : V) :
  Obj.lookup o k = Some v -> In (k, v) o.
Proof.
  induction o as [|[k' v'] o IH]; cbn [Obj.lookup]; [discriminate |].
  destruct (String.eqb_spec k' k) as [-> | Hne].
  - intros [= ->]. now left.
  - intros H. right. now apply IH.
Qed.

Lemma value_names (payload : Document) (prefix : string) (values : option Document)
    (name : string) (attr : jsval) :
  getExpressionAttributeValues payload prefix = Ok values ->
  Obj.lookup (default [] values) name = Some attr ->
  exists k, name = prefix +:+ k.
Proof.
  intros H L. apply getExpressionAttributeValues_ok in H as (l & _ & E).
  rewrite E in L. apply lookup_assign_inv in L as [L | L]; [| discriminate].
  apply in_map_iff in L as ([k w] & Ew & _).
  unfold valueEntry in Ew. cbn [fst snd] in Ew. injection Ew as <- _. now exists k.
Qed.

Lemma wf_values (payload : Document) (prefix : string) (values : option Document) :
  getExpressionAttributeValues payload prefix = Ok values ->
  Obj.wf (default [] values) = true.
Proof.
  intros H. apply getExpressionAttributeValues_ok in H as (l & _ & ->).
  now apply wf_assign.
Qed.

(** X3. When [getExpressionAttributeValues] returns, its map binds the
    placeholder of every field of the payload that holds a defined value
    to that value as [marshall] gives it, binds nothing for a field that
    is missing or [undefined], holds no other name, and is [undefined]
    exactly when the payload has no defined field; every defined value
    was accepted by [marshall]. When it throws, the exception is the one
    [marshall] raises for the defined value of some field. [marshall]
    gives [null], a boolean, a string and a safe integer as they are,
    and refuses an integer that is not safe. *)
Theorem attribute_values_bind_defined_fields (payload : Document) (prefix : string) :
  Obj.wf payload = true ->
  match getExpressionAttributeValues payload prefix with
  | Ok values =>
      (forall k,
          Obj.lookup (default [] values) (prefix +:+ k)
          = match Obj.lookup payload k with
            | Some v =>
                if is_undefined v then None
                else match marshall_value v with
                     | Ok attr => Some attr
                     | Throw _ => None
                     end
            | None => None
            end)
      /\ (forall k v,
            Obj.lookup payload k = Some v -> is_undefined v = false ->
            exists attr, marshall_value v = Ok attr)
      /\ (forall name attr,
            Obj.lookup (default [] values) name = Some attr ->
            exists k v,
              name = prefix +:+ k /\ Obj.lookup payload k = Some v
              /\ is_undefined v = false /\ marshall_value v = Ok attr)
      /\ (values = None <-> List.filter defined_entry payload = [])
  | Throw e =>
      exists k v,
        In (k, v) payload /\ is_undefined v = false /\ marshall_value v = Throw e
  end
  /\ (forall v, flat_value v = true -> marshall_value v = Ok v)
  /\ (forall n, flat_value (JNum n) = false ->
                marshall_value (JNum n) = Throw (MarshallNumberError n)).
Proof.
  intros Hwf. split; [| split].
  - destruct (getExpressionAttributeValues payload prefix) as [values | e] eqn:E.
    + split; [| split; [| split]].
      * intros k. now apply values_lookup.
      * intros k v Hk Hv.
        apply getExpressionAttributeValues_ok in E as (l & Hl & _).
        exact (convertEntriesok_In _ _ payload l k v Hl (lookup_In _ _ _ Hk) Hv).
      * intros name attr. now apply values_lookup_inv.
      * rewrite getExpressionAttributeValues_entries in E.
        destruct (convertEntries is_undefined marshall_value payload) as [l |] eqn:Hl;
          [| discriminate].
        cbn [result_bind] in E. injection E as <-.
        pose proof (convertEntries_nil _ _ payload l Hl) as Hnil.
        pose proof (assign_nil_iff (map (valueEntry prefix) l)) as Ha.
        pose proof (map_nil_iff (valueEntry prefix) l) as Hm.
        change (fun e : string * jsval => negb (is_undefined (snd e)))
          with defined_entry in Hnil.
        destruct (Obj.assign [] (map (valueEntry prefix) l)).
        -- split; [intros _; apply Hnil, Hm, Ha; reflexivity | reflexivity].
        -- split; [discriminate |]. intros H. apply Hnil, Hm, Ha in H. discriminate H.
    + rewrite getExpressionAttributeValues_entries in E.
      destruct (convertEntries is_undefined marshall_value payload) as [l |] eqn:Hl;
        [discriminate |].
      cbn [result_bind] in E. injection E as <-.
      now apply convertEntries_throws.
  - intros v. apply convertToAttr_flat.
  - intros n H. unfold marshall_value. cbn [convertToAttr flat_value] in *.
    apply negb_false_iff in H. now rewrite H.
Qed.

Lemma attribute_values_witness :
  (exists values,
      getExpressionAttributeValues [("a", JNum 1); ("b", JUndefined)] ":" = Ok values
      /\ Obj.lookup (default [] values) ":a" = Some (JNum 1)
      /\ Obj.lookup (default [] values) ":b" = None)
  /\ marshall_value (JNum 9007199254740992) = Throw (MarshallNumberError 9007199254740992).
Proof.
  pose proof (attribute_values_bind_defined_fields [("a", JNum 1); ("b", JUndefined)] ":"
                eq_refl) as (H & _ & Hn).
  split; [| exact (Hn 9007199254740992 eq_refl)].
  destruct (getExpressionAttributeValues [("a", JNum 1); ("b", JUndefined)] ":")
    as [values | e] eqn:E.
  - exists values. destruct H as [H _]. exact (conj eq_refl (conj (H "a") (H "b"))).
  - vm_compute in E. discriminate E.
Defined.

(** X4. The name map has the alias of every defined field of the
    payload, every alias in it stands for a defined field of the
    payload, and it is [undefined] exactly when the payload has no
    defined field. *)
Theorem attribute_names_alias_defined_fields (payload : Document) (prefix : string) :
  (forall k v,
      In (k, v) payload -> is_undefined v = false ->
      Obj.has (default [] (getExpressionAttributeNames payload prefix)) (mappedKey prefix k)
      = true)
  /\ (forall alias k,
        Obj.lookup (default [] (getExpressionAttributeNames payload prefix)) alias = Some k ->
        alias = mappedKey prefix k
        /\ exists v, In (k, v) payload /\ is_undefined v = false)
  /\ (getExpressionAttributeNames payload prefix = None
      <-> List.filter defined_entry payload = []).
Proof.
  split; [| split].
  - intros k v Hin Hdef. rewrite names_of_payload, has_assign.
    apply orb_true_iff. right. rewrite has_keys.
    apply existsb_exists. exists (mappedKey prefix k). split; [| apply String.eqb_refl].
    unfold Obj.keys. rewrite map_map. apply in_map_iff. exists (k, v).
    split; [reflexivity |]. apply filter_In. split; [assumption |].
    unfold defined_entry. simpl. now rewrite Hdef.
  - intros alias k H. rewrite names_of_payload in H.
    apply lookup_assign_inv in H as [H | H]; [| discriminate].
    apply in_map_iff in H as ([k' v] & E & Hin).
    unfold nameEntry in E. simpl in E. injection E as <- <-.
    apply filter_In in Hin as [Hin Hdef].
    split; [reflexivity |]. exists v. split; [assumption |].
    unfold defined_entry in Hdef. now apply negb_true_iff in Hdef.
  - unfold getExpressionAttributeNames. rewrite names_fold_defined.
    pose proof (assign_nil_iff (map (nameEntry prefix) (List.filter defined_entry payload))) as Ha.
    pose proof (map_nil_iff (nameEntry prefix) (List.filter defined_entry payload)) as Hm.
    destruct (Obj.assign [] (map (nameEntry prefix) (List.filter defined_entry payload))).
    { split; [intros _; apply Hm, Ha; reflexivity | reflexivity]. }
    split; [discriminate |]. intros H. apply Hm, Ha in H. discriminate H.
Qed.

Lemma attribute_names_witness :
  Obj.has
    (default [] (getExpressionAttributeNames [("name", JStr "Ann"); ("age", JUndefined)] "#"))
    "#reserved_name" = true.
Proof.
  exact (proj1 (attribute_names_alias_defined_fields
                  [("name", JStr "Ann"); ("age", JUndefined)] "#")
           "name" (JStr "Ann") (or_introl eq_refl) eq_refl).
Defined.

(** X5. In the maps that [trxUpdateOne] merges, the bindings of the
    filter, compiled with the prefix [fv], and those of the update data,
    compiled with [:], do not touch each other: after the merge every
    placeholder of either map is bound as it is in its own map. *)
Theorem update_and_filter_values_do_not_collide (updateData filter : Document)
    (updateValues filterValues : option Document) (k : string) :
  getExpressionAttributeValues updateData ":" = Ok updateValues ->
  getExpressionAttributeValues filter "fv" = Ok filterValues ->
  Obj.lookup (spread_optional updateValues filterValues) (":" +:+ k)
  = Obj.lookup (default [] updateValues) (":" +:+ k)
  /\ Obj.lookup (spread_optional updateValues filterValues) ("fv" +:+ k)
     = Obj.lookup (default [] filterValues) ("fv" +:+ k).
Proof.
  intros Hu Hf. unfold spread_optional.
  split; rewrite lookup_spread by (eapply wf_values; eassumption).
  - destruct (Obj.lookup (default [] filterValues) (":" +:+ k)) as [v |] eqn:E;
      [| reflexivity].
    destruct (value_names filter "fv" filterValues _ v Hf E) as [k' E'].
    discriminate E'.
  - destruct (Obj.lookup (default [] filterValues) ("fv" +:+ k)) as [v |];
      [reflexivity |].
    destruct (Obj.lookup (default [] updateValues) ("fv" +:+ k)) as [w |] eqn:E;
      [| reflexivity].
    destruct (value_names updateData ":" updateValues _ w Hu E) as [k' E'].
    discriminate E'.
Qed.

Lemma update_and_filter_values_witness :
  Obj.lookup
    (spread_optional (Some [(":email", JStr "new@b.com")]) (Some [("fvemail", JStr "a@b.com")]))
    ":email"
  = Some (JStr "new@b.com")
  /\ Obj.lookup
       (spread_optional (Some [(":email", JStr "new@b.com")])
          (Some [("fvemail", JStr "a@b.com")]))
       "fvemail"
     = Some (JStr "a@b.com").
Proof.
  exact (update_and_filter_values_do_not_collide
           [("email", JStr "new@b.com")] [("email", JStr "a@b.com")]
           (Some [(":email", JStr "new@b.com")]) (Some [("fvemail", JStr "a@b.com")])
           "email" eq_refl eq_refl).
Defined.

(** ** More of the key builder *)

Section KeyBuilderFacts.

Import JsString.

Lemma split_head_clean c (s : string) : includes_char c (split_head c s) = false.
Proof.
  induction s as [|x s IH]; simpl; [reflexivity |].
  destruct (Ascii.eqb x c) eqn:E; [reflexivity |]. simpl. now rewrite E.
Qed.

Lemma buildIndexValue_clean (self : DbModel) (resource : Document) (segments : list string) :
  includes_char lbrace (buildIndexValue self resource segments) = false.
Proof. unfold buildIndexValue. rewrite truncate_split_head. apply split_head_clean. Qed.

Lemma lookup_fold_set_inv {V W : Type} (g : W -> V) (l : JsRecord W) :
  forall (acc : JsRecord V) (k : string) (v : V),
    Obj.lookup (fold_left (fun acc e => Obj.set acc (fst e) (g (snd e))) l acc) k = Some v ->
    (exists w, In (k, w) l /\ v = g w) \/ Obj.lookup acc k = Some v.
Proof.
  induction l as [|[k' w'] l IH]; intros acc k v H; simpl in *; [now right |].
  apply IH in H as [(w & Hin & ->) | H].
  - left. exists w. split; [now right | reflexivity].
  - destruct (String.eqb_spec k' k) as [-> | Hne].
    + rewrite lookup_set_eq in H. injection H as <-.
      left. exists w'. split; [now left | reflexivity].
    + rewrite lookup_set_ne in H by assumption. now right.
Qed.

Lemma buildIndexes_lookup_inv (self : DbModel) (resource : Document) (cfg : IndexFieldsMap)
    (config : BuildIndexesConfig) (attr : string) (v : string) :
  Obj.lookup (buildIndexes self resource cfg config) attr = Some v ->
  exists segments,
    In (attr, segments) cfg /\ selected config attr = true
    /\ v = buildIndexValue self resource segments.
Proof.
  unfold buildIndexes. intros H.
  apply (lookup_fold_set_inv (buildIndexValue self resource)) in H
    as [(segments & Hin & ->) | H]; [| discriminate].
  apply filter_In in Hin as [Hin Hsel]. now exists segments.
Qed.

Lemma exec_all_from_lbrace (s : string) :
  forall skip m, In m (exec_all_from skip s) -> exists r, fst m = String lbrace r.
Proof.
  induction s as [|c s IH]; intros skip m H; [contradiction |].
  cbn [exec_all_from] in H. destruct skip as [|k]; [| now apply (IH k)].
  destruct (Ascii.eqb c lbrace); [| now apply (IH O)].
  destruct (until_rbrace s) as [[[|n name] after] |]; try (now apply (IH O)).
  destruct H as [<- | H]; [eexists; reflexivity | exact (IH _ m H)].
Qed.

Lemma replace_step_keeps_prefix (resource : Document) (t : string) :
  includes_char lbrace t = false ->
  forall m x, (exists r, fst m = String lbrace r) ->
    exists y, replace_step resource (t +:+ x) m = t +:+ y.
Proof.
  intros Ht m x [r Hr]. unfold replace_step.
  destruct (js_truthy (Obj.get resource (snd m))); [| now exists x].
  rewrite Hr. unfold replace. rewrite replace_from_skip by assumption.
  eexists; reflexivity.
Qed.

Lemma fold_replace_keeps_prefix (resource : Document) (t : string)
    (ms : list (string * string)) :
  includes_char lbrace t = false ->
  (forall m, In m ms -> exists r, fst m = String lbrace r) ->
  forall x, exists y, fold_left (replace_step resource) ms (t +:+ x) = t +:+ y.
Proof.
  intros Ht. induction ms as [|m ms IH]; intros Hms x; [now exists x |].
  cbn [fold_left].
  destruct (replace_step_keeps_prefix resource t Ht m x (Hms m (or_introl eq_refl)))
    as [y ->].
  apply IH. intros m' Hm'. apply Hms. now right.
Qed.

Lemma join_head (sep t : string) (l : list string) : exists x, join sep (t :: l) = t +:+ x.
Proof.
  unfold join. destruct l as [|a l]; simpl.
  - exists "". now rewrite app_empty_r_s.
  - eexists; reflexivity.
Qed.

Lemma buildIndexValue_tenant (self : DbModel) (resource : Document) (segments : list string) :
  includes_char lbrace (tenantId self) = false ->
  String.prefix (tenantId self) (buildIndexValue self resource segments) = true.
Proof.
  intros Ht. unfold buildIndexValue. rewrite truncate_split_head.
  unfold replaceFieldWithValue.
  destruct (join_head indexValueSeparator (tenantId self) segments) as [x Hx].
  destruct (fold_replace_keeps_prefix resource (tenantId self)
              (exec_all (join indexValueSeparator (tenantId self :: segments))) Ht
              (exec_all_from_lbrace _ O) x) as [y Hy].
  rewrite Hx at 2.
  change (fold_left _ (exec_all ?s) ?a) with (fold_left (replace_step resource) (exec_all s) a).
  rewrite Hy, split_head_app by assumption. apply prefix_app_s.
Qed.

Lemma prefix_app_same (t a b : string) :
  String.prefix (t +:+ a) (t +:+ b) = String.prefix a b.
Proof.
  induction t as [|c t IH]; [reflexivity |].
  change (String c t +:+ a) with (String c (t +:+ a)).
  change (String c t +:+ b) with (String c (t +:+ b)).
  now rewrite prefix_cons_s, Ascii.eqb_refl.
Qed.

Lemma interpret_mono (r1 r2 : Document) (ps : list piece) :
  (forall g, In g (holes ps) -> js_truthy (Obj.get r1 g) = true ->
             Obj.get r2 g = Obj.get r1 g) ->
  String.prefix (interpret r1 ps) (interpret r2 ps) = true.
Proof.
  induction ps as [|p ps IH]; intros H; [reflexivity |].
  destruct p as [text | g]; cbn [interpret].
  - rewrite prefix_app_same. apply IH. intros g Hg. apply H.
    exact Hg.
  - destruct (js_truthy (Obj.get r1 g)) eqn:E; [| apply prefix_nil_s].
    rewrite (H g (or_introl eq_refl) E), E, prefix_app_same.
    apply IH. intros g' Hg'. apply H. now right.
Qed.

Lemma interpret_ext (r1 r2 : Document) (ps : list piece) :
  (forall g, In g (holes ps) -> Obj.get r2 g = Obj.get r1 g) ->
  interpret r1 ps = interpret r2 ps.
Proof.
  induction ps as [|p ps IH]; intros H; [reflexivity |].
  destruct p as [text | g]; cbn [interpret].
  - f_equal. apply IH. intros g Hg. now apply H.
  - rewrite (H g (or_introl eq_refl)).
    destruct (js_truthy (Obj.get r1 g)); [| reflexivity].
    f_equal. apply IH. intros g' Hg'. apply H. now right.
Qed.

Lemma plain_hole_ext (r1 r2 : Document) (ps : list piece) :
  (forall g, In g (holes ps) -> Obj.get r2 g = Obj.get r1 g) ->
  forallb (plain_hole r1) ps = true -> forallb (plain_hole r2) ps = true.
Proof.
  induction ps as [|p ps IH]; intros H; [reflexivity |].
  cbn [forallb]. rewrite !andb_true_iff. intros [Hp Hps].
  destruct p as [text | g].
  - split; [reflexivity |]. apply IH; [| assumption]. intros g Hg. now apply H.
  - split.
    + cbn [plain_hole] in *. now rewrite (H g (or_introl eq_refl)).
    + apply IH; [| assumption]. intros g' Hg'. apply H. now right.
Qed.

Lemma holes_keyTemplate (tenant : string) (segments : list piece) :
  holes (keyTemplate tenant segments) = holes segments.
Proof.
  unfold keyTemplate, holes. cbn [flat_map app].
  induction segments as [|p segments IH]; [reflexivity |].
  cbn [flat_map app]. now rewrite IH.
Qed.

Lemma interpret_resolved (resource : Document) (tenant : string) (segments : list piece) :
  forallb (resolved_piece resource) segments = true ->
  interpret resource (keyTemplate tenant segments) =
  join indexValueSeparator (tenant :: map (piece_text resource) segments).
Proof.
  intros Hres. unfold join, keyTemplate.
  replace (map (piece_text resource) segments)
    with (map render_piece (map (fun p => Lit (piece_text resource p)) segments))
    by (rewrite map_map; reflexivity).
  rewrite join_cons_render. cbn [interpret]. f_equal.
  induction segments as [|p segments IH]; [reflexivity |].
  simpl in Hres. apply andb_true_iff in Hres as [Hp Hres].
  cbn [flat_map app interpret map render render_piece]. f_equal.
  destruct p as [text | g].
  - cbn [piece_text]. f_equal. now apply IH.
  - simpl in Hp. apply andb_true_iff in Hp as [Hg _].
    rewrite Hg. cbn [piece_text]. f_equal. now apply IH.
Qed.

Lemma get_set_other (resource : Document) (k g : string) (v : jsval) :
  k <> g -> Obj.get (Obj.set resource k v) g = Obj.get resource g.
Proof. intros H. unfold Obj.get. now rewrite lookup_set_ne. Qed.

End KeyBuilderFacts.

(** X9. No key that [buildIndexes] returns holds an opening brace:
    whatever the templates and the entity, an unresolved placeholder
    never reaches a key. *)
Theorem built_keys_have_no_placeholder (self : DbModel) (resource : Document)
    (cfg : IndexFieldsMap) (config : BuildIndexesConfig) (attr : string) (v : string) :
  Obj.lookup (buildIndexes self resource cfg config) attr = Some v ->
  JsString.includes_char JsString.lbrace v = false.
Proof.
  intros H. apply buildIndexes_lookup_inv in H as (segments & _ & _ & ->).
  apply buildIndexValue_clean.
Qed.

Lemma built_keys_have_no_placeholder_witness :
  JsString.includes_char JsString.lbrace "acme#User#a@b.com#" = false.
Proof.
  exact (built_keys_have_no_placeholder Sample.users Sample.entity Sample.fields
           Sample.all_fields "GSI1SK" "acme#User#a@b.com#" eq_refl).
Defined.

(** X10. For a tenant whose identifier has no opening brace, every key
    that [buildIndexes] returns starts with the tenant identifier,
    whatever the templates and the values of the entity. *)
Theorem built_keys_start_with_tenant (self : DbModel) (resource : Document)
    (cfg : IndexFieldsMap) (config : BuildIndexesConfig) (attr : string) (v : string) :
  JsString.includes_char JsString.lbrace (tenantId self) = false ->
  Obj.lookup (buildIndexes self resource cfg config) attr = Some v ->
  String.prefix (tenantId self) v = true.
Proof.
  intros Ht H. apply buildIndexes_lookup_inv in H as (segments & _ & _ & ->).
  now apply buildIndexValue_tenant.
Qed.

Lemma built_keys_start_with_tenant_witness :
  String.prefix "acme" "acme#User#a@b.com#" = true.
Proof.
  exact (built_keys_start_with_tenant Sample.users Sample.entity Sample.fields
           Sample.all_fields "GSI1SK" "acme#User#a@b.com#" eq_refl eq_refl).
Defined.

(** X11. When the entity has a truthy plain value for every placeholder
    of a well-formed template, the key is the tenant identifier, the
    literal segments and the texts of the fields, joined by the
    separator: nothing is cut off. *)
Theorem resolved_template_gives_full_key (self : DbModel) (resource : Document)
    (cfg : IndexFieldsMap) (config : BuildIndexesConfig) (attr : string)
    (segments : list piece) :
  Obj.wf cfg = true ->
  Obj.lookup cfg attr = Some (map render_piece segments) ->
  selected config attr = true ->
  JsString.includes_char JsString.lbrace (tenantId self) = false ->
  forallb wf_piece segments = true ->
  forallb (resolved_piece resource) segments = true ->
  Obj.lookup (buildIndexes self resource cfg config) attr
  = Some (JsString.join indexValueSeparator
            (tenantId self :: map (piece_text resource) segments)).
Proof.
  intros Hwf Hattr Hsel Ht Hpieces Hres.
  rewrite (buildIndexes_lookup self resource cfg config attr _ Hwf Hattr Hsel).
  f_equal. rewrite buildIndexValue_interpret; try assumption.
  - now apply interpret_resolved.
  - now apply resolved_plain.
Qed.

Lemma resolved_template_witness :
  Obj.lookup (buildIndexes Sample.users Sample.entity Sample.fields Sample.all_fields) "PK"
  = Some "acme#User#7".
Proof.
  exact (resolved_template_gives_full_key Sample.users Sample.entity Sample.fields
           Sample.all_fields "PK" [Lit "User"; Hole "id"]
           eq_refl eq_refl eq_refl eq_refl eq_refl eq_refl).
Defined.

(** X12. For a well-formed template and entities whose truthy values
    for its placeholders are plain, the key built from a partial entity
    is a prefix of the key built from every entity that has the same
    values where the partial one has truthy values: a [begins_with]
    query made from the partial entity matches the keys stored for the
    complete ones. *)
Theorem partial_key_is_prefix_of_full_key (self : DbModel) (partial full : Document)
    (cfg : IndexFieldsMap) (config : BuildIndexesConfig) (attr : string)
    (segments : list piece) :
  Obj.wf cfg = true ->
  Obj.lookup cfg attr = Some (map render_piece segments) ->
  selected config attr = true ->
  JsString.includes_char JsString.lbrace (tenantId self) = false ->
  forallb wf_piece segments = true ->
  forallb (plain_hole partial) segments = true ->
  forallb (plain_hole full) segments = true ->
  (forall g, In g (holes segments) -> js_truthy (Obj.get partial g) = true ->
             Obj.get full g = Obj.get partial g) ->
  exists kp kf,
    Obj.lookup (buildIndexes self partial cfg config) attr = Some kp
    /\ Obj.lookup (buildIndexes self full cfg config) attr = Some kf
    /\ String.prefix kp kf = true.
Proof.
  intros Hwf Hattr Hsel Ht Hpieces Hp Hf Hagree.
  exists (buildIndexValue self partial (map render_piece segments)),
         (buildIndexValue self full (map render_piece segments)).
  split; [now apply buildIndexes_lookup | split; [now apply buildIndexes_lookup |]].
  rewrite !buildIndexValue_interpret by assumption.
  apply interpret_mono. now rewrite holes_keyTemplate.
Qed.

Lemma partial_key_is_prefix_witness :
  exists kp kf,
    Obj.lookup
      (buildIndexes Sample.users [("email", JStr "a@b.com")] Sample.fields Sample.all_fields)
      "GSI1SK" = Some kp
    /\ Obj.lookup
         (buildIndexes Sample.users
            [("email", JStr "a@b.com"); ("nationalId", JStr "X1")]
            Sample.fields Sample.all_fields)
         "GSI1SK" = Some kf
    /\ String.prefix kp kf = true.
Proof.
  refine (partial_key_is_prefix_of_full_key Sample.users
            [("email", JStr "a@b.com")]
            [("email", JStr "a@b.com"); ("nationalId", JStr "X1")]
            Sample.fields Sample.all_fields "GSI1SK"
            [Lit "User"; Hole "email"; Hole "nationalId"]
            eq_refl eq_refl eq_refl eq_refl eq_refl eq_refl eq_refl _).
  intros g [<- | [<- | []]] H; [reflexivity | discriminate H].
Defined.

(** X13. For a well-formed template and an entity whose truthy values
    for its placeholders are plain, a field that the template of a key
    attribute does not name has no part in the key: setting it, to any
    value, leaves the key as it was. *)
Theorem key_ignores_fields_outside_template (self : DbModel) (resource : Document)
    (cfg : IndexFieldsMap) (config : BuildIndexesConfig) (attr : string)
    (segments : list piece) (k : string) (v : jsval) :
  Obj.wf cfg = true ->
  Obj.lookup cfg attr = Some (map render_piece segments) ->
  JsString.includes_char JsString.lbrace (tenantId self) = false ->
  forallb wf_piece segments = true ->
  forallb (plain_hole resource) segments = true ->
  ~ In k (holes segments) ->
  Obj.lookup (buildIndexes self (Obj.set resource k v) cfg config) attr
  = Obj.lookup (buildIndexes self resource cfg config) attr.
Proof.
  intros Hwf Hattr Ht Hpieces Hplain Hk.
  assert (Hget : forall g, In g (holes segments) ->
                           Obj.get (Obj.set resource k v) g = Obj.get resource g).
  { intros g Hg. apply get_set_other. intros ->. now apply Hk. }
  destruct (selected config attr) eqn:Hsel.
  - rewrite !(buildIndexes_lookup _ _ cfg config attr _ Hwf Hattr Hsel). f_equal.
    rewrite !buildIndexValue_interpret; try assumption.
    + symmetry. apply interpret_ext. now rewrite holes_keyTemplate.
    + now apply (plain_hole_ext resource).
  - now rewrite !buildIndexes_lookup_unselected.
Qed.

Lemma key_ignores_fields_witness :
  Obj.lookup
    (buildIndexes Sample.users (Obj.set Sample.entity "email" (JStr "new@b.com"))
       Sample.fields Sample.all_fields) "PK"
  = Obj.lookup (buildIndexes Sample.users Sample.entity Sample.fields Sample.all_fields) "PK".
Proof.
  refine (key_ignores_fields_outside_template Sample.users Sample.entity Sample.fields
            Sample.all_fields "PK" [Lit "User"; Hole "id"] "email" (JStr "new@b.com")
            eq_refl eq_refl eq_refl eq_refl eq_refl _).
  intros [H | []]. discriminate H.
Defined.


(** ** More of the query executor *)

Lemma In_has {V : Type} (o : JsRecord V) (k : string) (v : V) :
  In (k, v) o -> Obj.has o k = true.
Proof.
  intros H. rewrite has_keys. apply existsb_exists. exists k.
  split; [| apply String.eqb_refl].
  unfold Obj.keys. apply in_map_iff. now exists (k, v).
Qed.

Lemma has_In {V : Type} (o : JsRecord V) (k : string) :
  Obj.has o k = true -> exists v, In (k, v) o.
Proof.
  unfold Obj.has. induction o as [|[k' v'] o IH]; simpl; [discriminate |].
  destruct (String.eqb_spec k' k) as [-> | Hne].
  - intros _. exists v'. now left.
  - intros H. destruct (IH H) as [v Hv]. exists v. now right.
Qed.

Lemma has_fold_set {V W : Type} (g : W -> V) (l : JsRecord W) :
  forall (acc : JsRecord V) (k : string),
    Obj.has (fold_left (fun acc e => Obj.set acc (fst e) (g (snd e))) l acc) k
    = Obj.has acc k || Obj.has l k.
Proof.
  induction l as [|[k' w'] l IH]; intros acc k; simpl.
  - now rewrite orb_false_r.
  - rewrite IH, has_set, (has_keys ((k', w') :: l)), (has_keys l). simpl.
    rewrite (String.eqb_sym k k'). now rewrite orb_assoc.
Qed.

Lemma has_filter_key {V : Type} (P : string -> bool) (o : JsRecord V) (k : string) :
  Obj.has (List.filter (fun e => P (fst e)) o) k = P k && Obj.has o k.
Proof. unfold Obj.has. rewrite lookup_filter_key. now destruct (P k). Qed.

Lemma has_buildIndexes (self : DbModel) (resource : Document) (cfg : IndexFieldsMap)
    (config : BuildIndexesConfig) (attr : string) :
  Obj.has (buildIndexes self resource cfg config) attr
  = selected config attr && Obj.has cfg attr.
Proof.
  unfold buildIndexes.
  rewrite (has_fold_set (buildIndexValue self resource)).
  now rewrite (has_filter_key (selected config)).
Qed.

Lemma index_value_present (indexValues : JsRecord string) (k : string) :
  Obj.has indexValues k = true -> is_undefined (index_value indexValues k) = false.
Proof. unfold Obj.has, index_value. now destruct (Obj.lookup indexValues k). Qed.

Lemma index_value_missing (indexValues : JsRecord string) (k : string) :
  Obj.has indexValues k = false -> index_value indexValues k = JUndefined.
Proof. unfold Obj.has, index_value. now destruct (Obj.lookup indexValues k). Qed.

Lemma index_value_flat (indexValues : JsRecord string) (k : string) :
  Obj.has indexValues k = true -> flat_value (index_value indexValues k) = true.
Proof. unfold Obj.has, index_value. now destruct (Obj.lookup indexValues k). Qed.

Lemma marshall_pair_undeclared (indexValues : JsRecord string) (a b ka kb : string) :
  Obj.has indexValues a = false \/ Obj.has indexValues b = false ->
  marshall [(ka, index_value indexValues a); (kb, index_value indexValues b)] false
  = Throw MarshallError.
Proof.
  unfold marshall, index_value, Obj.has.
  destruct (Obj.lookup indexValues a), (Obj.lookup indexValues b); intros [H | H];
    try discriminate H; reflexivity.
Qed.

Lemma selected_first (t : bool) (a b : string) :
  selected (mkBuildConfig t (Some [a; b])) a = true.
Proof. unfold selected. simpl. now rewrite String.eqb_refl. Qed.

Lemma selected_second (t : bool) (a b : string) :
  selected (mkBuildConfig t (Some [a; b])) b = true.
Proof. unfold selected. simpl. now rewrite String.eqb_refl, orb_true_r. Qed.

Lemma decodeLastEvaluatedKey_total (rt : Runtime) (cursor : string) :
  exists key, decodeLastEvaluatedKey rt cursor = Ok key.
Proof.
  unfold decodeLastEvaluatedKey, result_catch.
  destruct (JSON_parse rt (Buffer_from_base64 rt cursor)) as [key | e]; eauto.
Qed.

(** X15. A cursor that does not decode to JSON is not an error: the
    query is the one made without a cursor, from the start of the
    index. *)
Theorem query_ignores_unreadable_cursor (rt : Runtime) (self : DbModel)
    (queryIndexValues : Document) (queryIndex : DbIndex) (config : QueryConfig)
    (cursor : string) (e : exn) :
  JSON_parse rt (Buffer_from_base64 rt cursor) = Throw e ->
  query rt self queryIndexValues queryIndex
    (mkQueryConfig (skMatch config) (limit config) (Some cursor) (sort config))
  = query rt self queryIndexValues queryIndex
      (mkQueryConfig (skMatch config) (limit config) None (sort config)).
Proof.
  intros Hparse. unfold query. cbn [skMatch limit lastId sort string_truthy default].
  change (id cursor) with cursor.
  unfold decodeLastEvaluatedKey, result_catch. rewrite Hparse.
  now destruct (negb (String.eqb cursor "")).
Qed.

Lemma query_unreadable_cursor_witness :
  query (Sample.store [] [Sample.stored]) Sample.users [("email", JStr "a@b.com")]
    Sample.gsi1 (mkQueryConfig begins_with (Some 10) (Some "not a cursor") None)
  = query (Sample.store [] [Sample.stored]) Sample.users [("email", JStr "a@b.com")]
      Sample.gsi1 (mkQueryConfig begins_with (Some 10) None None).
Proof.
  exact (query_ignores_unreadable_cursor (Sample.store [] [Sample.stored]) Sample.users
           [("email", JStr "a@b.com")] Sample.gsi1
           (mkQueryConfig begins_with (Some 10) None None) "not a cursor" SyntaxError
           eq_refl).
Defined.

(** X16. When the model declares both key attributes of the queried
    index, [query] sends one command, with the key condition of the
    match mode and the limit of the configuration, and fails only as the
    store does: an exception of the client is passed on, a status other
    than 200 is an error that carries it, and with status 200 the page
    has one entry per item of the response; an empty page never has a
    cursor, whatever last key the store reports. *)
Theorem query_fails_only_as_the_store_does (rt : Runtime) (self : DbModel)
    (queryIndexValues : Document) (queryIndex : DbIndex) (config : QueryConfig) :
  Obj.has (indexFieldsMap self) (partitionKey queryIndex) = true ->
  Obj.has (indexFieldsMap self) (sortKey queryIndex) = true ->
  exists command,
    q_KeyConditionExpression command
    = getKeyConditionExpression queryIndex (skMatch config) ":"
    /\ q_Limit command = limit config
    /\ match send_query rt command with
       | Throw e => query rt self queryIndexValues queryIndex config = Throw e
       | Ok response =>
           if q_httpStatusCode response =? 200
           then exists page,
               query rt self queryIndexValues queryIndex config = Ok page
               /\ List.length (data page) = List.length (default [] (q_Items response))
               /\ (data page = [] -> page_lastId page = None)
           else query rt self queryIndexValues queryIndex config
                = Throw (Error_QueryFailed (q_httpStatusCode response))
       end.
Proof.
  intros Hpk Hsk. unfold query.
  set (indexValues := buildIndexes self queryIndexValues (indexFieldsMap self) _).
  assert (Hp : flat_value (index_value indexValues (partitionKey queryIndex)) = true).
  { apply index_value_flat. unfold indexValues.
    now rewrite has_buildIndexes, selected_first, Hpk. }
  assert (Hs : flat_value (index_value indexValues (sortKey queryIndex)) = true).
  { apply index_value_flat. unfold indexValues.
    now rewrite has_buildIndexes, selected_second, Hsk. }
  rewrite marshall_flat by (cbn [forallb snd]; now rewrite Hp, Hs).
  cbn [result_bind].
  assert (Hkey : exists key,
             (if string_truthy (lastId config)
              then decodeLastEvaluatedKey rt (default "" (lastId config))
              else Ok JUndefined) = Ok key).
  { destruct (string_truthy (lastId config)); [apply decodeLastEvaluatedKey_total | eauto]. }
  destruct Hkey as [key ->]. cbn [result_bind].
  exists (mkQueryInput (tableName queryIndex) (indexName queryIndex)
            (getKeyConditionExpression queryIndex (skMatch config) ":")
            [(":pk", index_value indexValues (partitionKey queryIndex));
             (":sk", index_value indexValues (sortKey queryIndex))]
            (limit config) key
            (match sort config with Some desc => false | _ => true end)).
  split; [reflexivity | split; [reflexivity |]].
  destruct (send_query rt _) as [response | e]; cbn [result_bind]; [| reflexivity].
  destruct (q_httpStatusCode response =? 200); cbn [negb]; [| reflexivity].
  destruct (q_Items response) as [[| it its] |].
  - eexists. split; [reflexivity | split; [reflexivity | reflexivity]].
  - eexists. split; [reflexivity | split].
    + cbn [data default]. now rewrite !length_map.
    + cbn [data map]. discriminate.
  - eexists. split; [reflexivity | split; [reflexivity | reflexivity]].
Qed.

Lemma query_fails_only_witness :
  exists command,
    q_KeyConditionExpression command
    = getKeyConditionExpression Sample.gsi1 begins_with ":"
    /\ q_Limit command = Some 10
    /\ match send_query (Sample.store [] []) command with
       | Throw e =>
           query (Sample.store [] []) Sample.users [("email", JStr "a@b.com")] Sample.gsi1
             (mkQueryConfig begins_with (Some 10) None None) = Throw e
       | Ok response =>
           if q_httpStatusCode response =? 200
           then exists page,
               query (Sample.store [] []) Sample.users [("email", JStr "a@b.com")]
                 Sample.gsi1 (mkQueryConfig begins_with (Some 10) None None) = Ok page
               /\ List.length (data page) = List.length (default [] (q_Items response))
               /\ (data page = [] -> page_lastId page = None)
           else query (Sample.store [] []) Sample.users [("email", JStr "a@b.com")]
                  Sample.gsi1 (mkQueryConfig begins_with (Some 10) None None)
                = Throw (Error_QueryFailed (q_httpStatusCode response))
       end.
Proof.
  exact (query_fails_only_as_the_store_does (Sample.store [] []) Sample.users
           [("email", JStr "a@b.com")] Sample.gsi1
           (mkQueryConfig begins_with (Some 10) None None) eq_refl eq_refl).
Defined.

(** X17. When the model does not declare one of the key attributes of
    the queried index, [query] fails on its own, with the error of
    [marshall] for an [undefined] value, whatever the store would
    answer. *)
Theorem query_on_undeclared_key_attribute (rt : Runtime) (self : DbModel)
    (queryIndexValues : Document) (queryIndex : DbIndex) (config : QueryConfig) :
  Obj.has (indexFieldsMap self) (partitionKey queryIndex) = false
  \/ Obj.has (indexFieldsMap self) (sortKey queryIndex) = false ->
  query rt self queryIndexValues queryIndex config = Throw MarshallError.
Proof.
  intros H. unfold query.
  set (indexValues := buildIndexes self queryIndexValues (indexFieldsMap self) _).
  assert (Hm : marshall
                 [(":pk", index_value indexValues (partitionKey queryIndex));
                  (":sk", index_value indexValues (sortKey queryIndex))] false
               = Throw MarshallError).
  { apply marshall_pair_undeclared. unfold indexValues.
    rewrite !has_buildIndexes.
    destruct H as [-> | ->]; rewrite andb_false_r; auto. }
  now rewrite Hm.
Qed.

Lemma query_on_undeclared_key_witness :
  query (Sample.store [] [Sample.stored]) Sample.users [("email", JStr "a@b.com")]
    (mkDbIndex "main" (Some "GSI2") "GSI2PK" "GSI2SK")
    (mkQueryConfig exact None None None)
  = Throw MarshallError.
Proof.
  exact (query_on_undeclared_key_attribute (Sample.store [] [Sample.stored]) Sample.users
           [("email", JStr "a@b.com")] (mkDbIndex "main" (Some "GSI2") "GSI2PK" "GSI2SK")
           (mkQueryConfig exact None None None) (or_introl eq_refl)).
Defined.


(** ** Transactions from staging to execution *)

Section StagingFacts.

Lemma last_index {A : Type} (l : list A) (x : A) :
  Z.of_nat (List.length (l ++ [x])) - 1 = Z.of_nat (List.length l).
Proof. rewrite length_app. simpl. lia. Qed.

Lemma staged_after (item : TransactWriteItem) (payload : exn) (s : Scratch) :
  (push_item item ;;; trxSetErrorHandler "ConditionalCheckFailed" payload) s
  = (Ok tt, with_item s item payload).
Proof.
  unfold bind, push_item, trxSetErrorHandler, bind, get_scratch, put_scratch, with_item.
  cbn [items errorPayloads]. now rewrite last_index.
Qed.

Lemma trxInsertOne_run (self : DbModel) (id : string) (now : jsval) (data : Document)
    (s : Scratch) :
  trxInsertOne self id now data s
  = match marshall
            (Obj.spread (insertBaseData id now data)
               (strings_as_document
                  (buildIndexes self (insertBaseData id now data)
                     (indexFieldsMap self) (mkBuildConfig false None))))
            true with
    | Ok item =>
        (Ok (mkInserted id now now),
         with_item s
           (Put (mkPut (tableName (writeIndex self)) (notExistsCondition (writeIndex self))
                   item))
           (Error_InsertFailed (entityName self)))
    | Throw e => (Throw e, s)
    end.
Proof.
  unfold trxInsertOne. fold (insertBaseData id now data).
  unfold bind at 1, lift at 1.
  destruct (marshall _ true) as [item | e]; [| reflexivity].
  unfold bind, push_item, trxSetErrorHandler, bind, get_scratch, put_scratch, with_item, ret.
  cbn [items errorPayloads]. now rewrite last_index.
Qed.

Lemma trxUpdateOne_run (self : DbModel) (clock : Z) (data oldResource filter : Document)
    (s : Scratch) :
  let baseData := updateBaseData (Z.quot clock 1000) data in
  let indexFields := updateIndexFields self baseData oldResource in
  let updateData := updateDataOf self baseData indexFields in
  trxUpdateOne self clock data oldResource filter s
  = match getExpressionAttributeValues updateData ":" with
    | Throw e => (Throw e, s)
    | Ok updateValues =>
        match getExpressionAttributeValues filter "fv" with
        | Throw e => (Throw e, s)
        | Ok filterValues =>
            match marshall
                    (Obj.set
                       (Obj.set [] (partitionKey (writeIndex self))
                          (index_value indexFields (partitionKey (writeIndex self))))
                       (sortKey (writeIndex self))
                       (index_value indexFields (sortKey (writeIndex self))))
                    false with
            | Throw e => (Throw e, s)
            | Ok key =>
                (Ok tt,
                 with_item s
                   (Update
                      (mkUpdate (tableName (writeIndex self)) key
                         (getConditionExpression filter "fn" "fv")
                         (getUpdateExpression updateData "#" ":")
                         (spread_optional (getExpressionAttributeNames updateData "#")
                            (getExpressionAttributeNames filter "fn"))
                         (spread_optional updateValues filterValues)))
                   (Error_UpdateFailed (entityName self)))
            end
        end
    end.
Proof.
  intros baseData indexFields updateData. unfold trxUpdateOne.
  fold baseData. fold indexFields. fold updateData.
  unfold bind at 1, lift at 1.
  destruct (getExpressionAttributeValues updateData ":") as [updateValues | e];
    [| reflexivity].
  unfold bind at 1, lift at 1.
  destruct (getExpressionAttributeValues filter "fv") as [filterValues | e];
    [| reflexivity].
  unfold bind at 1, lift at 1.
  destruct (marshall _ false) as [key | e]; [| reflexivity].
  apply staged_after.
Qed.

Lemma trxDeleteOne_run (self : DbModel) (oldResource filter : Document) (s : Scratch) :
  trxDeleteOne self oldResource filter s
  = match getExpressionAttributeValues filter ":" with
    | Throw e => (Throw e, s)
    | Ok values =>
        (Ok tt,
         with_item s
           (Delete
              (mkDelete (tableName (writeIndex self))
                 (strings_as_document
                    (buildIndexes self oldResource (indexFieldsMap self)
                       (mkBuildConfig false
                          (Some [partitionKey (writeIndex self);
                                 sortKey (writeIndex self)]))))
                 (getConditionExpression filter "#" ":")
                 (getExpressionAttributeNames filter "#")
                 values))
           (ConditionCheckError (entityName self) filter))
    end.
Proof.
  unfold trxDeleteOne. rewrite marshall_strings.
  unfold bind at 1, lift at 1. unfold bind at 1, lift at 1.
  destruct (getExpressionAttributeValues filter ":") as [values | e]; [| reflexivity].
  apply staged_after.
Qed.

Lemma flat_constraintRow (self : DbModel) (values : list jsval) :
  forallb (fun e => flat_value (snd e)) (constraintRow self values) = true.
Proof.
  unfold constraintRow. cbn [Obj.set].
  destruct (String.eqb (partitionKey (writeIndex self)) (sortKey (writeIndex self)));
    reflexivity.
Qed.

Lemma trxInsertUniqueConstraint_run (self : DbModel) (values : list jsval) (s : Scratch) :
  trxInsertUniqueConstraint self values s
  = (Ok tt,
     with_item s
       (Put (mkPut (tableName (writeIndex self)) (notExistsCondition (writeIndex self))
               (constraintRow self values)))
       (UniqueContraintError values)).
Proof.
  unfold trxInsertUniqueConstraint.
  rewrite marshall_flat by apply flat_constraintRow.
  unfold bind at 1, lift at 1. apply staged_after.
Qed.

Lemma trxRemoveUniqueConstraint_run (self : DbModel) (values : list jsval) (s : Scratch) :
  trxRemoveUniqueConstraint self values s
  = (Ok tt,
     with_item s
       (Delete (mkDelete (tableName (writeIndex self)) (constraintRow self values)
                  None None None))
       (Error_RemoveConstraintFailed (entityName self) values)).
Proof.
  unfold trxRemoveUniqueConstraint.
  rewrite marshall_flat by apply flat_constraintRow.
  unfold bind at 1, lift at 1. apply staged_after.
Qed.

(** One staging call either throws, and changes nothing, or adds one
    item and the handler of the call at its position. *)
Lemma stage_step (self : DbModel) (c : TrxCall) (s : Scratch) :
  (exists e, stage self c s = (Throw e, s))
  \/ exists item, stage self c s = (Ok tt, with_item s item (registered_error self c)).
Proof.
  destruct c as [id now data | clock data old filter | old filter | values | values];
    cbn [stage registered_error].
  - unfold bind. rewrite trxInsertOne_run.
    destruct (marshall _ true) as [item | e]; [right | left]; eexists; reflexivity.
  - rewrite trxUpdateOne_run.
    destruct (getExpressionAttributeValues _ ":") as [uv | e];
      [| left; eexists; reflexivity].
    destruct (getExpressionAttributeValues filter "fv") as [fv | e];
      [| left; eexists; reflexivity].
    destruct (marshall _ false) as [key | e]; [right | left]; eexists; reflexivity.
  - rewrite trxDeleteOne_run.
    destruct (getExpressionAttributeValues filter ":") as [values | e]; [right | left];
      eexists; reflexivity.
  - right. rewrite trxInsertUniqueConstraint_run. eexists; reflexivity.
  - right. rewrite trxRemoveUniqueConstraint_run. eexists; reflexivity.
Qed.

Lemma stage_all_registers (self : DbModel) (cs : list TrxCall) :
  forall s0 s,
    stage_all self cs s0 = (Ok tt, s) ->
    List.length (items s) = (List.length (items s0) + List.length cs)%nat
    /\ (forall i c,
          nth_error cs i = Some c ->
          errorPayloads s
            !! errorKey "ConditionalCheckFailed" (Z.of_nat (List.length (items s0) + i))
          = Some (registered_error self c))
    /\ (forall reason j,
          0 <= j ->
          reason <> "ConditionalCheckFailed"
          \/ j < Z.of_nat (List.length (items s0))
          \/ Z.of_nat (List.length (items s)) <= j ->
          errorPayloads s !! errorKey reason j = errorPayloads s0 !! errorKey reason j).
Proof.
  induction cs as [|c cs IH]; intros s0 s H.
  - cbn [stage_all] in H. unfold ret in H. injection H as <-.
    split; [simpl; lia | split; [| reflexivity]].
    intros [|i] c Hc; discriminate Hc.
  - cbn [stage_all] in H. unfold bind in H.
    destruct (stage_step self c s0) as [[e Hf] | [item Hok]].
    + rewrite Hf in H. discriminate H.
    + rewrite Hok in H. apply IH in H as (Hlen & Hreg & Hframe).
      assert (Hlen1 : List.length (items (with_item s0 item (registered_error self c)))
                      = S (List.length (items s0))).
      { unfold with_item. cbn [items]. rewrite length_app. simpl. lia. }
      rewrite Hlen1 in Hlen, Hreg, Hframe.
      split; [simpl; lia | split].
      * intros [|i] c' Hc'.
        -- injection Hc' as <-. rewrite Nat.add_0_r.
           rewrite Hframe by lia.
           unfold with_item. cbn [errorPayloads]. apply lookup_insert_eq.
        -- cbn [nth_error] in Hc'. specialize (Hreg i c' Hc').
           now replace (List.length (items s0) + S i)%nat
             with (S (List.length (items s0)) + i)%nat by lia.
      * intros reason j Hj Hcond.
        assert (Hcond1 : reason <> "ConditionalCheckFailed"
                         \/ j < Z.of_nat (S (List.length (items s0)))
                         \/ Z.of_nat (List.length (items s)) <= j).
        { destruct Hcond as [? | [? | ?]]; [now left | right; left; lia | now right; right]. }
        rewrite (Hframe reason j Hj Hcond1).
        unfold with_item. cbn [errorPayloads]. apply lookup_insert_ne.
        intros Heq. apply errorKey_inj in Heq as [<- <-]; [| lia | assumption].
        destruct Hcond as [Hc | [Hc | Hc]]; [now apply Hc | lia | lia].
Qed.

End StagingFacts.

(** X18. After a script of staging calls has run on an empty
    transaction, the transaction has one item per call and the handler
    map holds, under [ConditionalCheckFailed] and the position of each
    call, the error of that call. *)
Theorem staged_calls_register_their_errors (self : DbModel) (cs : list TrxCall)
    (s : Scratch) :
  stage_all self cs emptyScratch = (Ok tt, s) ->
  List.length (items s) = List.length cs
  /\ (forall i c,
        nth_error cs i = Some c ->
        errorPayloads s !! errorKey "ConditionalCheckFailed" (Z.of_nat i)
        = Some (registered_error self c)).
Proof.
  intros H. apply stage_all_registers in H as (Hlen & Hreg & _).
  split; [exact Hlen | exact Hreg].
Qed.

Lemma staged_calls_witness :
  List.length (items Sample.staged) = 2%nat
  /\ (forall i c,
        nth_error
          [CallInsertOne "id-1" (JNum 1700) [("email", JStr "a@b.com")];
           CallInsertUniqueConstraint [JStr "a@b.com"]] i = Some c ->
        errorPayloads Sample.staged !! errorKey "ConditionalCheckFailed" (Z.of_nat i)
        = Some (registered_error Sample.users c)).
Proof.
  exact (staged_calls_register_their_errors Sample.users
           [CallInsertOne "id-1" (JNum 1700) [("email", JStr "a@b.com")];
            CallInsertUniqueConstraint [JStr "a@b.com"]]
           Sample.staged eq_refl).
Defined.

(** X19. When the store aborts the transaction of a script and the first
    entry of its report that is not [None] has the code
    [ConditionalCheckFailed], [trxExecute] raises the error of the call
    at the position of that entry, and empties the transaction. *)
Theorem failed_condition_raises_the_error_of_its_call (rt : Runtime) (self : DbModel)
    (cs : list TrxCall) (s : Scratch) (pre : list CancellationReason)
    (r : CancellationReason) (suf : list CancellationReason) (c : TrxCall) :
  stage_all self cs emptyScratch = (Ok tt, s) ->
  forallb code_is_None pre = true ->
  Code r = Some "ConditionalCheckFailed" ->
  nth_error cs (List.length pre) = Some c ->
  send_transact rt (items s) = Throw (TransactionCanceledException (Some (pre ++ r :: suf))) ->
  trxExecute rt s = (Throw (registered_error self c), emptyScratch).
Proof.
  intros Hstage Hpre Hr Hc Hsend.
  apply stage_all_registers in Hstage as (_ & Hreg & _).
  rewrite (trxExecute_client_throws rt s _ Hsend).
  rewrite trxHandleError_first_failure
    by (try assumption; unfold code_is_None; now rewrite Hr).
  cbn [fst]. unfold raised_for, code_text. rewrite Hr.
  pose proof (Hreg _ _ Hc) as Hc'.
  change (List.length (items emptyScratch) + List.length pre)%nat
    with (List.length pre) in Hc'.
  now rewrite Hc'.
Qed.

Lemma failed_condition_witness :
  trxExecute (Sample.store [Sample.noop; Sample.failed] []) Sample.staged
  = (Throw (UniqueContraintError [JStr "a@b.com"]), emptyScratch).
Proof.
  exact (failed_condition_raises_the_error_of_its_call
           (Sample.store [Sample.noop; Sample.failed] []) Sample.users
           [CallInsertOne "id-1" (JNum 1700) [("email", JStr "a@b.com")];
            CallInsertUniqueConstraint [JStr "a@b.com"]]
           Sample.staged [Sample.noop] Sample.failed []
           (CallInsertUniqueConstraint [JStr "a@b.com"])
           eq_refl eq_refl eq_refl eq_refl eq_refl).
Defined.

(** X20. When the first entry of the report that is not [None] has
    another code than [ConditionalCheckFailed], no call of the script
    has a handler for it: [trxExecute] raises the unclassified error
    that names the position and the entry. *)
Theorem other_failure_is_unhandled (rt : Runtime) (self : DbModel)
    (cs : list TrxCall) (s : Scratch) (pre : list CancellationReason)
    (r : CancellationReason) (suf : list CancellationReason) :
  stage_all self cs emptyScratch = (Ok tt, s) ->
  forallb code_is_None pre = true ->
  code_is_None r = false ->
  code_text r <> "ConditionalCheckFailed" ->
  send_transact rt (items s) = Throw (TransactionCanceledException (Some (pre ++ r :: suf))) ->
  trxExecute rt s = (Throw (Error_Unhandled (Z.of_nat (List.length pre)) r), emptyScratch).
Proof.
  intros Hstage Hpre Hr Hcode Hsend.
  apply stage_all_registers in Hstage as (_ & _ & Hframe).
  rewrite (trxExecute_client_throws rt s _ Hsend).
  rewrite trxHandleError_first_failure by assumption.
  cbn [fst]. unfold raised_for.
  rewrite Hframe by (try lia; now left).
  reflexivity.
Qed.

Lemma other_failure_witness :
  trxExecute (Sample.store [Sample.noop; Sample.conflict] []) Sample.staged
  = (Throw (Error_Unhandled 1 Sample.conflict), emptyScratch).
Proof.
  refine (other_failure_is_unhandled
            (Sample.store [Sample.noop; Sample.conflict] []) Sample.users
            [CallInsertOne "id-1" (JNum 1700) [("email", JStr "a@b.com")];
             CallInsertUniqueConstraint [JStr "a@b.com"]]
            Sample.staged [Sample.noop] Sample.conflict []
            eq_refl eq_refl eq_refl _ eq_refl).
  discriminate.
Defined.


(** ** What the staged items hold *)

Section ItemFacts.

Lemma selected_all (t : bool) (k : string) : selected (mkBuildConfig t None) k = true.
Proof. reflexivity. Qed.

Lemma lookup_buildIndexes (self : DbModel) (resource : Document) (cfg : IndexFieldsMap)
    (config : BuildIndexesConfig) (attr : string) :
  Obj.wf cfg = true ->
  Obj.lookup (buildIndexes self resource cfg config) attr
  = if selected config attr
    then option_map (buildIndexValue self resource) (Obj.lookup cfg attr)
    else None.
Proof.
  intros Hwf. destruct (selected config attr) eqn:Hsel.
  - destruct (Obj.lookup cfg attr) as [segments |] eqn:E.
    + now apply buildIndexes_lookup.
    + pose proof (has_buildIndexes self resource cfg config attr) as H.
      unfold Obj.has in H. rewrite E, andb_false_r in H.
      now destruct (Obj.lookup (buildIndexes self resource cfg config) attr).
  - now apply buildIndexes_lookup_unselected.
Qed.

Lemma wf_strings_as_document (o : JsRecord string) :
  Obj.wf o = true -> Obj.wf (strings_as_document o) = true.
Proof. unfold Obj.wf. now rewrite keys_strings_as_document. Qed.

Lemma wf_insertBaseData (id : string) (now : jsval) (data : Document) :
  Obj.wf (insertBaseData id now data) = true.
Proof. unfold insertBaseData. apply wf_assign, wf_assign. reflexivity. Qed.

Lemma lookup_insertBaseData (id : string) (now : jsval) (data : Document) (k : string) :
  Obj.wf data = true ->
  Obj.lookup (insertBaseData id now data) k
  = if String.eqb "id" k then Some (JStr id)
    else if String.eqb "createdAt" k then Some now
    else if String.eqb "updatedAt" k then Some now
    else Obj.lookup data k.
Proof.
  intros Hwf. unfold insertBaseData.
  rewrite lookup_assign by reflexivity. cbn [Obj.lookup].
  destruct (String.eqb "id" k); [reflexivity |].
  destruct (String.eqb "createdAt" k); [reflexivity |].
  destruct (String.eqb "updatedAt" k); [reflexivity |].
  rewrite lookup_assign by assumption.
  now destruct (Obj.lookup data k).
Qed.

Lemma wf_createData (self : DbModel) (base : Document) :
  Obj.wf
    (Obj.spread base
       (strings_as_document
          (buildIndexes self base (indexFieldsMap self) (mkBuildConfig false None))))
  = true.
Proof. unfold Obj.spread. apply wf_assign, wf_assign. reflexivity. Qed.

Lemma lookup_createData (self : DbModel) (base : Document) (k : string) :
  Obj.wf base = true ->
  Obj.wf (indexFieldsMap self) = true ->
  Obj.lookup
    (Obj.spread base
       (strings_as_document
          (buildIndexes self base (indexFieldsMap self) (mkBuildConfig false None))))
    k
  = match Obj.lookup (indexFieldsMap self) k with
    | Some segments => Some (JStr (buildIndexValue self base segments))
    | None => Obj.lookup base k
    end.
Proof.
  intros Hbase Hcfg.
  rewrite lookup_spread
    by (try assumption; apply wf_strings_as_document, wf_buildIndexes).
  rewrite lookup_strings_as_document, lookup_buildIndexes, selected_all by assumption.
  now destruct (Obj.lookup (indexFieldsMap self) k).
Qed.

Lemma selected_pair (t : bool) (a b k : string) :
  selected (mkBuildConfig t (Some [a; b])) k = String.eqb k a || String.eqb k b.
Proof. unfold selected. cbn [onlyFields existsb]. now rewrite orb_false_r. Qed.

Lemma is_undefined_eq (v : jsval) : is_undefined v = true -> v = JUndefined.
Proof. now destruct v. Qed.

Lemma update_key_flat (indexFields : JsRecord string) (pk sk : string) :
  Obj.has indexFields pk = true ->
  Obj.has indexFields sk = true ->
  forallb (fun e => flat_value (snd e))
    (Obj.set (Obj.set [] pk (index_value indexFields pk)) sk (index_value indexFields sk))
  = true.
Proof.
  intros Hpk Hsk. apply index_value_flat in Hpk, Hsk.
  cbn [Obj.set]. destruct (String.eqb pk sk); cbn [forallb snd]; now rewrite ?Hpk, ?Hsk.
Qed.

Lemma update_key_throws (indexFields : JsRecord string) (pk sk : string) :
  Obj.has indexFields pk = false \/ Obj.has indexFields sk = false ->
  marshall
    (Obj.set (Obj.set [] pk (index_value indexFields pk)) sk (index_value indexFields sk))
    false
  = Throw MarshallError.
Proof.
  intros H. cbn [Obj.set].
  destruct (String.eqb_spec pk sk) as [-> | Hne].
  - assert (Hsk : Obj.has indexFields sk = false) by now destruct H.
    now rewrite (index_value_missing _ _ Hsk).
  - now apply marshall_pair_undeclared.
Qed.

Lemma has_updateIndexFields (self : DbModel) (baseData oldResource : Document)
    (attr : string) :
  Obj.has (updateIndexFields self baseData oldResource) attr
  = Obj.has (indexFieldsMap self) attr.
Proof. unfold updateIndexFields. now rewrite has_buildIndexes, selected_all. Qed.

Lemma get_merge_untouched (old data : Document) (now : Z) (g : string) :
  Obj.wf old = true ->
  Obj.inherited g = JUndefined ->
  Obj.has (removeUndefined data) g = false ->
  g <> "updatedAt" ->
  Obj.get (mergeResources [old; updateBaseData now data]) g = Obj.get old g.
Proof.
  intros Hold Hin Hdata Hne. unfold Obj.get.
  rewrite lookup_mergeResources.
  rewrite (lookup_removeUndefined (updateBaseData now data))
    by apply wf_updateBaseData.
  assert (Hb : Obj.lookup (updateBaseData now data) g = None).
  { unfold updateBaseData. rewrite lookup_assign by reflexivity. cbn [Obj.lookup].
    apply not_eq_sym in Hne. apply String.eqb_neq in Hne. rewrite Hne.
    rewrite lookup_assign by apply wf_removeUndefined. cbn [Obj.lookup].
    unfold Obj.has in Hdata. now destruct (Obj.lookup (removeUndefined data) g). }
  rewrite Hb, lookup_removeUndefined by assumption.
  destruct (Obj.lookup old g) as [v |]; [| reflexivity].
  destruct (is_undefined v) eqn:E; [| reflexivity].
  rewrite Hin. symmetry. now apply is_undefined_eq.
Qed.

End ItemFacts.

Section MarshallFacts.

Lemma convertToAttr_error (b : bool) :
  forall v e, convertToAttr b v = Throw e -> is_marshall_error e = true.
Proof.
  fix IH 1. intros [| | c | n | t | fields | name] e; cbn [convertToAttr];
    try discriminate.
  - now intros [= <-].
  - destruct (_ || _); [now intros [= <-] | discriminate].
  - destruct (convertEntries (skipped b) (convertToAttr b) fields) as [m | e'] eqn:E;
      cbn [result_bind]; [discriminate |].
    intros [= <-]. revert E.
    induction fields as [|x fields IHf]; cbn [convertEntries]; [discriminate |].
    destruct (skipped b (snd x)); [exact IHf |].
    destruct (convertToAttr b (snd x)) as [attr | e0] eqn:Ex; cbn [result_bind].
    + destruct (convertEntries (skipped b) (convertToAttr b) fields); cbn [result_bind];
        [discriminate |].
      intros [= <-]. now apply IHf.
    + intros [= <-]. exact (IH (snd x) _ Ex).
  - now intros [= <-].
Qed.

Lemma marshall_error (o : Document) (b : bool) (e : exn) :
  marshall o b = Throw e -> is_marshall_error e = true.
Proof.
  intros H. apply marshall_throws in H as (k & v & _ & _ & H).
  now apply (convertToAttr_error b v).
Qed.

Lemma getExpressionAttributeValues_throws (payload : Document) (prefix : string) (e : exn) :
  getExpressionAttributeValues payload prefix = Throw e ->
  exists k v, In (k, v) payload /\ is_undefined v = false /\ marshall_value v = Throw e.
Proof.
  rewrite getExpressionAttributeValues_entries.
  destruct (convertEntries is_undefined marshall_value payload) as [l |] eqn:Hl;
    [discriminate |].
  cbn [result_bind]. intros [= <-]. now apply convertEntries_throws.
Qed.

Lemma getExpressionAttributeValues_error (payload : Document) (prefix : string) (e : exn) :
  getExpressionAttributeValues payload prefix = Throw e -> is_marshall_error e = true.
Proof.
  intros H. apply getExpressionAttributeValues_throws in H as (k & v & _ & _ & H).
  now apply (convertToAttr_error true v).
Qed.

Lemma defined_marshall (o m : Document) (b : bool) :
  marshall o b = Ok m -> forallb defined_entry m = true.
Proof.
  unfold marshall. revert m. induction o as [|[k v] o IH]; intros m.
  - intros [= <-]. reflexivity.
  - cbn [convertEntries fst snd].
    destruct (skipped b v); [apply IH |].
    destruct (convertToAttr b v) as [attr |] eqn:Hc; cbn [result_bind]; [| discriminate].
    destruct (convertEntries _ _ o) as [m' |]; cbn [result_bind]; [| discriminate].
    intros [= <-]. cbn [forallb]. unfold defined_entry at 1. cbn [snd].
    rewrite (convertToAttr_defined b v attr Hc). cbn [negb andb]. now apply IH.
Qed.

End MarshallFacts.

(** X21. A staging call either adds one item, with the handler of the
    call at the position of the item, or throws an exception of
    [marshall] and leaves the transaction as it was: no item, no
    handler. The two calls for a unique constraint never throw. An
    update on a model that does not declare a key attribute of its
    write index always throws. *)
Theorem failed_staging_changes_nothing (self : DbModel) (c : TrxCall) (s : Scratch) :
  match stage self c s with
  | (Ok _, s') => exists item, s' = with_item s item (registered_error self c)
  | (Throw e, s') => s' = s /\ is_marshall_error e = true /\ is_constraint c = false
  end
  /\ (is_update c = true ->
      Obj.has (indexFieldsMap self) (partitionKey (writeIndex self)) = false
      \/ Obj.has (indexFieldsMap self) (sortKey (writeIndex self)) = false ->
      exists e, stage self c s = (Throw e, s)).
Proof.
  split.
  - destruct c as [id now data | clock data old filter | old filter | values | values];
      cbn [stage is_constraint registered_error].
    + unfold bind. rewrite trxInsertOne_run.
      destruct (marshall _ true) as [item | e] eqn:E.
      * eexists; reflexivity.
      * split; [reflexivity | split; [| reflexivity]]. now apply marshall_error in E.
    + rewrite trxUpdateOne_run.
      destruct (getExpressionAttributeValues _ ":") as [uv | e] eqn:Eu.
      2:{ split; [reflexivity | split; [| reflexivity]].
          now apply getExpressionAttributeValues_error in Eu. }
      destruct (getExpressionAttributeValues filter "fv") as [fv | e] eqn:Ef.
      2:{ split; [reflexivity | split; [| reflexivity]].
          now apply getExpressionAttributeValues_error in Ef. }
      destruct (marshall _ false) as [key | e] eqn:E.
      * eexists; reflexivity.
      * split; [reflexivity | split; [| reflexivity]]. now apply marshall_error in E.
    + rewrite trxDeleteOne_run.
      destruct (getExpressionAttributeValues filter ":") as [values | e] eqn:E.
      * eexists; reflexivity.
      * split; [reflexivity | split; [| reflexivity]].
        now apply getExpressionAttributeValues_error in E.
    + rewrite trxInsertUniqueConstraint_run. eexists; reflexivity.
    + rewrite trxRemoveUniqueConstraint_run. eexists; reflexivity.
  - intros Hc Hkey.
    destruct c as [id now data | clock data old filter | old filter | values | values];
      try discriminate Hc.
    cbn [stage]. rewrite trxUpdateOne_run.
    destruct (getExpressionAttributeValues _ ":") as [uv | e]; [| eexists; reflexivity].
    destruct (getExpressionAttributeValues filter "fv") as [fv | e];
      [| eexists; reflexivity].
    rewrite update_key_throws by (now rewrite !has_updateIndexFields).
    eexists; reflexivity.
Qed.

Lemma failed_staging_witness :
  exists e,
    stage (mkDbModel "acme" "User" Sample.primary [("PK", ["User"; "{id}"])])
      (CallUpdateOne 1700000 [("email", JStr "new@b.com")] Sample.entity [])
      Sample.staged
    = (Throw e, Sample.staged).
Proof.
  exact (proj2 (failed_staging_changes_nothing
                  (mkDbModel "acme" "User" Sample.primary [("PK", ["User"; "{id}"])])
                  (CallUpdateOne 1700000 [("email", JStr "new@b.com")] Sample.entity [])
                  Sample.staged)
           eq_refl (or_intror eq_refl)).
Defined.

(** X22. What [trxInsertOne] stages. When it returns, it returns the
    identifier and the two times of the call, and the item it stages
    holds: under every declared key attribute the key built from the
    payload with that identifier and those times, also where the
    payload has a field of that name; under [id], [createdAt] and
    [updatedAt] the identifier and the times of the call, whatever the
    payload holds there; under every other name the value of the
    payload as [marshall] gives it; and no [undefined] and no function.
    When it throws, it stages nothing, and the exception is the one that
    [marshall] raises for a field that is not a key attribute. *)
Theorem inserted_item_fields (self : DbModel) (id : string) (now : jsval)
    (data : Document) (s : Scratch) :
  Obj.wf data = true ->
  Obj.wf (indexFieldsMap self) = true ->
  match trxInsertOne self id now data s with
  | (Ok inserted, s') =>
      inserted = mkInserted id now now
      /\ exists item,
          s' = with_item s
                 (Put (mkPut (tableName (writeIndex self))
                         (notExistsCondition (writeIndex self)) item))
                 (Error_InsertFailed (entityName self))
          /\ forallb defined_entry item = true
          /\ forall k,
              Obj.lookup item k
              = match Obj.lookup (indexFieldsMap self) k with
                | Some segments =>
                    Some (JStr (buildIndexValue self (insertBaseData id now data)
                                  segments))
                | None =>
                    match Obj.lookup (insertBaseData id now data) k with
                    | Some v =>
                        if skipped true v then None
                        else match convertToAttr true v with
                             | Ok attr => Some attr
                             | Throw _ => None
                             end
                    | None => None
                    end
                end
  | (Throw e, s') =>
      s' = s
      /\ exists k v,
          Obj.lookup (insertBaseData id now data) k = Some v
          /\ Obj.lookup (indexFieldsMap self) k = None
          /\ skipped true v = false
          /\ convertToAttr true v = Throw e
  end
  /\ forall k,
      Obj.lookup (insertBaseData id now data) k
      = if String.eqb "id" k then Some (JStr id)
        else if String.eqb "createdAt" k then Some now
        else if String.eqb "updatedAt" k then Some now
        else Obj.lookup data k.
Proof.
  intros Hdata Hcfg. split; [| intros k; now apply lookup_insertBaseData].
  rewrite trxInsertOne_run.
  destruct (marshall _ true) as [item | e] eqn:E.
  - split; [reflexivity |]. exists item. split; [reflexivity | split].
    + exact (defined_marshall _ item true E).
    + intros k. unfold marshall in E.
      rewrite (lookup_convertEntries _ _ _ item k (wf_createData self _) E).
      rewrite lookup_createData by (try assumption; apply wf_insertBaseData).
      now destruct (Obj.lookup (indexFieldsMap self) k).
  - split; [reflexivity |].
    apply marshall_throws in E as (k & v & Hin & Hs & Hc).
    apply (In_lookup_wf _ k v (wf_createData self _)) in Hin.
    rewrite lookup_createData in Hin by (try assumption; apply wf_insertBaseData).
    exists k, v.
    destruct (Obj.lookup (indexFieldsMap self) k) as [segments |].
    + injection Hin as <-. discriminate Hc.
    + auto.
Qed.

Lemma inserted_item_witness :
  exists item,
    trxInsertOne Sample.users "id-1" (JNum 1700) [("email", JStr "a@b.com")] emptyScratch
    = (Ok (mkInserted "id-1" (JNum 1700) (JNum 1700)),
       with_item emptyScratch
         (Put (mkPut "main" (notExistsCondition Sample.primary) item))
         (Error_InsertFailed "User"))
    /\ Obj.lookup item "PK" = Some (JStr "acme#User#id-1")
    /\ Obj.lookup item "id" = Some (JStr "id-1")
    /\ Obj.lookup item "email" = Some (JStr "a@b.com").
Proof.
  pose proof (inserted_item_fields Sample.users "id-1" (JNum 1700)
                [("email", JStr "a@b.com")] emptyScratch eq_refl eq_refl) as [H _].
  destruct (trxInsertOne Sample.users "id-1" (JNum 1700) [("email", JStr "a@b.com")]
              emptyScratch) as [[inserted | e] s'] eqn:E.
  - destruct H as (-> & item & -> & _ & H). exists item.
    exact (conj eq_refl (conj (H "PK") (conj (H "id") (H "email")))).
  - vm_compute in E. discriminate E.
Defined.

(** X23. On a model that declares both key attributes of its write
    index, when an insert and a delete made from the resource that the
    insert built are both staged, the key of the delete has the two key
    attributes of the inserted item and nothing else. *)
Theorem delete_addresses_the_inserted_row (self : DbModel) (id : string) (now : jsval)
    (data filter : Document) (s s' s1 s2 : Scratch) (inserted : Inserted) :
  Obj.wf (indexFieldsMap self) = true ->
  Obj.has (indexFieldsMap self) (partitionKey (writeIndex self)) = true ->
  Obj.has (indexFieldsMap self) (sortKey (writeIndex self)) = true ->
  trxInsertOne self id now data s = (Ok inserted, s1) ->
  trxDeleteOne self (insertBaseData id now data) filter s' = (Ok tt, s2) ->
  exists item key values,
    s1 = with_item s
           (Put (mkPut (tableName (writeIndex self)) (notExistsCondition (writeIndex self))
                   item))
           (Error_InsertFailed (entityName self))
    /\ s2 = with_item s'
              (Delete
                 (mkDelete (tableName (writeIndex self)) key
                    (getConditionExpression filter "#" ":")
                    (getExpressionAttributeNames filter "#")
                    values))
              (ConditionCheckError (entityName self) filter)
    /\ forall k,
        Obj.lookup key k
        = if String.eqb k (partitionKey (writeIndex self))
             || String.eqb k (sortKey (writeIndex self))
          then Obj.lookup item k
          else None.
Proof.
  intros Hcfg Hpk Hsk Hins Hdel.
  rewrite trxInsertOne_run in Hins. rewrite trxDeleteOne_run in Hdel.
  destruct (marshall _ true) as [item | e] eqn:E; [| discriminate Hins].
  destruct (getExpressionAttributeValues filter ":") as [values | e]; [| discriminate Hdel].
  injection Hins as _ <-. injection Hdel as <-.
  eexists item, _, values. split; [reflexivity | split; [reflexivity |]].
  intros k.
  rewrite lookup_strings_as_document, lookup_buildIndexes, selected_pair by assumption.
  destruct (String.eqb k (partitionKey (writeIndex self))
            || String.eqb k (sortKey (writeIndex self))) eqn:Ek; [| reflexivity].
  unfold marshall in E.
  rewrite (lookup_convertEntries _ _ _ item k (wf_createData self _) E).
  rewrite lookup_createData by (try assumption; apply wf_insertBaseData).
  destruct (Obj.lookup (indexFieldsMap self) k) as [segments |] eqn:Lk; [reflexivity |].
  exfalso. apply orb_true_iff in Ek as [Ek | Ek]; apply String.eqb_eq in Ek; subst k.
  - unfold Obj.has in Hpk. now rewrite Lk in Hpk.
  - unfold Obj.has in Hsk. now rewrite Lk in Hsk.
Qed.

Lemma delete_addresses_witness :
  exists item key values,
    snd (trxInsertOne Sample.users "7" (JNum 1600) [("email", JStr "a@b.com")] emptyScratch)
    = with_item emptyScratch
        (Put (mkPut "main" (notExistsCondition Sample.primary) item))
        (Error_InsertFailed "User")
    /\ snd (trxDeleteOne Sample.users
              (insertBaseData "7" (JNum 1600) [("email", JStr "a@b.com")]) [] emptyScratch)
       = with_item emptyScratch
           (Delete
              (mkDelete "main" key (getConditionExpression [] "#" ":")
                 (getExpressionAttributeNames [] "#") values))
           (ConditionCheckError "User" [])
    /\ forall k,
        Obj.lookup key k
        = if String.eqb k "PK" || String.eqb k "SK" then Obj.lookup item k else None.
Proof.
  exact (delete_addresses_the_inserted_row Sample.users "7" (JNum 1600)
           [("email", JStr "a@b.com")] [] emptyScratch emptyScratch
           (snd (trxInsertOne Sample.users "7" (JNum 1600) [("email", JStr "a@b.com")]
                   emptyScratch))
           (snd (trxDeleteOne Sample.users
                   (insertBaseData "7" (JNum 1600) [("email", JStr "a@b.com")]) []
                   emptyScratch))
           (mkInserted "7" (JNum 1600) (JNum 1600))
           eq_refl eq_refl eq_refl eq_refl eq_refl).
Defined.

(** ** The body of an update *)

Section BodyFacts.

Lemma lookup_merged_values (updateData filter : Document)
    (updateValues filterValues : option Document) (k : string) :
  getExpressionAttributeValues updateData ":" = Ok updateValues ->
  getExpressionAttributeValues filter "fv" = Ok filterValues ->
  Obj.lookup (spread_optional updateValues filterValues) (":" +:+ k)
  = Obj.lookup (default [] updateValues) (":" +:+ k).
Proof.
  intros Hu Hf. unfold spread_optional.
  rewrite lookup_spread by (eapply wf_values; eassumption).
  destruct (Obj.lookup (default [] filterValues) (":" +:+ k)) as [v |] eqn:E;
    [| reflexivity].
  destruct (value_names filter "fv" filterValues _ v Hf E) as [k' E'].
  discriminate E'.
Qed.

Lemma defined_lookup (o : Document) (k : string) (v : jsval) :
  forallb defined_entry o = true -> Obj.lookup o k = Some v -> is_undefined v = false.
Proof.
  intros Hdef Hk. apply lookup_In in Hk.
  pose proof (proj1 (forallb_forall _ _) Hdef _ Hk) as H.
  unfold defined_entry in H. cbn [snd] in H. now apply negb_true_iff in H.
Qed.

(** The value map of a payload without [undefined], once compiled: a
    placeholder for every field, and for nothing else. *)
Lemma values_of_defined (payload : Document) (values : option Document) (k : string) :
  Obj.wf payload = true ->
  forallb defined_entry payload = true ->
  getExpressionAttributeValues payload ":" = Ok values ->
  match Obj.lookup payload k with
  | Some v =>
      exists attr,
        marshall_value v = Ok attr
        /\ Obj.lookup (default [] values) (":" +:+ k) = Some attr
  | None => Obj.lookup (default [] values) (":" +:+ k) = None
  end.
Proof.
  intros Hwf Hdef H. rewrite (values_lookup payload ":" values k Hwf H).
  destruct (Obj.lookup payload k) as [v |] eqn:Hk; [| reflexivity].
  rewrite (defined_lookup payload k v Hdef Hk).
  apply getExpressionAttributeValues_ok in H as (l & Hl & _).
  destruct (convertEntriesok_In _ _ payload l k v Hl (lookup_In _ _ _ Hk)
              (defined_lookup payload k v Hdef Hk)) as [attr Hattr].
  exists attr. now rewrite Hattr.
Qed.

Lemma lookup_updateBaseData_other (now : Z) (data : Document) (k : string) :
  k <> "updatedAt" ->
  Obj.has (removeUndefined data) k = false ->
  Obj.lookup (updateBaseData now data) k = None.
Proof.
  intros Hne Hk. unfold updateBaseData.
  rewrite lookup_assign by reflexivity. cbn [Obj.lookup].
  apply not_eq_sym in Hne. apply String.eqb_neq in Hne. rewrite Hne.
  rewrite lookup_assign by apply wf_removeUndefined. cbn [Obj.lookup].
  unfold Obj.has in Hk. now destruct (Obj.lookup (removeUndefined data) k).
Qed.

End BodyFacts.

(** C9 (amended). For every staged update of a model whose index
    configuration has no attribute twice and none called [updatedAt],
    and whose payload has no defined value under the name of either key
    attribute of the write index: the model declares both key attributes, and the operation is
    staged with their recomputed values as its [Key]; the update body
    (the update data, the [SET] expression with one assignment per field
    of the update data, the name map and the value map compiled from the
    update data, and the value placeholders of the staged operation) has
    nothing for either key attribute; every other index attribute is in
    the body with its recomputed value; and so is [updatedAt] with the
    current time. *)
Theorem update_body_excludes_write_keys (self : DbModel) (clock : Z)
    (data oldResource filter : Document) (s s' : Scratch) :
  let pk := partitionKey (writeIndex self) in
  let sk := sortKey (writeIndex self) in
  let now := Z.quot clock 1000 in
  let baseData := updateBaseData now data in
  let resource := mergeResources [oldResource; baseData] in
  let indexFields := updateIndexFields self baseData oldResource in
  let body := updateDataOf self baseData indexFields in
  let names := default [] (getExpressionAttributeNames body "#") in
  Obj.wf (indexFieldsMap self) = true ->
  Obj.has (indexFieldsMap self) "updatedAt" = false ->
  Obj.has (removeUndefined data) pk = false ->
  Obj.has (removeUndefined data) sk = false ->
  trxUpdateOne self clock data oldResource filter s = (Ok tt, s') ->
  exists (pkSegments skSegments : list string) (bodyValues filterValues : option Document),
    Obj.lookup (indexFieldsMap self) pk = Some pkSegments
    /\ Obj.lookup (indexFieldsMap self) sk = Some skSegments
    /\ getExpressionAttributeValues body ":" = Ok bodyValues
    /\ getExpressionAttributeValues filter "fv" = Ok filterValues
    /\ s' = with_item s
              (Update
                 (mkUpdate (tableName (writeIndex self))
                    (Obj.set
                       (Obj.set [] pk (JStr (buildIndexValue self resource pkSegments)))
                       sk (JStr (buildIndexValue self resource skSegments)))
                    (getConditionExpression filter "fn" "fv")
                    (Some ("SET " +:+ JsString.join ", " (map (setClause "#" ":") body)))
                    (Obj.spread names (default [] (getExpressionAttributeNames filter "fn")))
                    (spread_optional bodyValues filterValues)))
              (Error_UpdateFailed (entityName self))
    /\ Obj.has body pk = false
    /\ Obj.has body sk = false
    /\ Obj.has (spread_optional bodyValues filterValues) (":" +:+ pk) = false
    /\ Obj.has (spread_optional bodyValues filterValues) (":" +:+ sk) = false
    /\ (forall k segments,
          Obj.lookup (indexFieldsMap self) k = Some segments ->
          k <> pk -> k <> sk ->
          Obj.lookup body k = Some (JStr (buildIndexValue self resource segments))
          /\ Obj.lookup (spread_optional bodyValues filterValues) (":" +:+ k)
             = Some (JStr (buildIndexValue self resource segments)))
    /\ Obj.lookup body "updatedAt" = Some (JNum now)
    /\ Obj.lookup (spread_optional bodyValues filterValues) ":updatedAt" = Some (JNum now)
    /\ (forall alias k, Obj.lookup names alias = Some k -> Obj.has body k = true)
    /\ (forall k, Obj.has body k = true -> Obj.has names (mappedKey "#" k) = true)
    /\ (forall k, Obj.has (default [] bodyValues) (":" +:+ k) = Obj.has body k).
Proof.
  intros pk sk now baseData resource indexFields body names Hwf Hupd Hdpk Hdsk Hrun.
  assert (Hfields : forall k segments,
             Obj.lookup (indexFieldsMap self) k = Some segments ->
             Obj.lookup indexFields k = Some (buildIndexValue self resource segments)).
  { intros k segments Hk. unfold indexFields, updateIndexFields.
    now apply buildIndexes_lookup. }
  assert (Hwfb : Obj.wf baseData = true) by apply wf_updateBaseData.
  assert (Hwfi : Obj.wf indexFields = true) by apply wf_buildIndexes.
  assert (Hdefb : forallb defined_entry body = true)
    by (apply defined_updateDataOf, defined_updateBaseData).
  assert (Hwfbody : Obj.wf body = true) by apply wf_updateDataOf.
  pose proof (trxUpdateOne_run self clock data oldResource filter s) as E.
  cbv zeta in E. fold now baseData in E. fold indexFields in E. fold body in E.
  fold pk sk in E. rewrite Hrun in E.
  destruct (getExpressionAttributeValues body ":") as [bodyValues | e] eqn:Ebody;
    [| discriminate E].
  destruct (getExpressionAttributeValues filter "fv") as [filterValues | e] eqn:Efilter;
    [| discriminate E].
  assert (Hhas : Obj.has indexFields pk = true /\ Obj.has indexFields sk = true).
  { destruct (Obj.has indexFields pk) eqn:H1; destruct (Obj.has indexFields sk) eqn:H2;
      try (split; reflexivity); exfalso;
      rewrite update_key_throws in E by (rewrite ?H1, ?H2; auto); discriminate E. }
  destruct Hhas as [Hipk Hisk].
  rewrite marshall_flat in E by (now apply update_key_flat).
  injection E as E.
  assert (Hcpk : Obj.has (indexFieldsMap self) pk = true)
    by (now rewrite <- (has_updateIndexFields self baseData oldResource)).
  assert (Hcsk : Obj.has (indexFieldsMap self) sk = true)
    by (now rewrite <- (has_updateIndexFields self baseData oldResource)).
  unfold Obj.has in Hcpk, Hcsk.
  destruct (Obj.lookup (indexFieldsMap self) pk) as [pkSegments |] eqn:Hpk;
    [| discriminate Hcpk].
  destruct (Obj.lookup (indexFieldsMap self) sk) as [skSegments |] eqn:Hsk;
    [| discriminate Hcsk].
  assert (Hpk_upd : pk <> "updatedAt").
  { intros Heq. unfold Obj.has in Hupd. rewrite <- Heq, Hpk in Hupd. discriminate. }
  assert (Hsk_upd : sk <> "updatedAt").
  { intros Heq. unfold Obj.has in Hupd. rewrite <- Heq, Hsk in Hupd. discriminate. }
  assert (Hbody_pk : Obj.lookup body pk = None).
  { unfold body. rewrite lookup_updateDataOf by assumption.
    fold pk. rewrite String.eqb_refl. cbn [negb andb].
    now apply lookup_updateBaseData_other. }
  assert (Hbody_sk : Obj.lookup body sk = None).
  { unfold body. rewrite lookup_updateDataOf by assumption.
    fold sk. rewrite String.eqb_refl, andb_false_r.
    now apply lookup_updateBaseData_other. }
  assert (Hbody_upd : Obj.lookup body "updatedAt" = Some (JNum now)).
  { unfold body. rewrite lookup_updateDataOf by assumption.
    assert (Hnone : Obj.lookup indexFields "updatedAt" = None).
    { pose proof (has_updateIndexFields self baseData oldResource "updatedAt") as H.
      fold indexFields in H. rewrite Hupd in H. unfold Obj.has in H.
      now destruct (Obj.lookup indexFields "updatedAt"). }
    rewrite Hnone. unfold baseData. rewrite lookup_updateBaseData_updatedAt.
    now destruct (negb _ && negb _). }
  assert (Hvalues : forall k,
             match Obj.lookup body k with
             | Some v =>
                 exists attr,
                   marshall_value v = Ok attr
                   /\ Obj.lookup (default [] bodyValues) (":" +:+ k) = Some attr
             | None => Obj.lookup (default [] bodyValues) (":" +:+ k) = None
             end)
    by (intros k; now apply values_of_defined).
  assert (Hmerged : forall k,
             Obj.lookup (spread_optional bodyValues filterValues) (":" +:+ k)
             = Obj.lookup (default [] bodyValues) (":" +:+ k))
    by (intros k; now apply (lookup_merged_values body filter)).
  exists pkSegments, skSegments, bodyValues, filterValues.
  split; [reflexivity | split; [reflexivity | split; [reflexivity | split;
    [reflexivity |]]]].
  split.
  { rewrite E. unfold index_value.
    rewrite (Hfields pk pkSegments Hpk), (Hfields sk skSegments Hsk).
    rewrite (getUpdateExpression_nonempty "#" ":" body "updatedAt" (JNum now))
      by assumption.
    reflexivity. }
  split; [unfold Obj.has; now rewrite Hbody_pk |].
  split; [unfold Obj.has; now rewrite Hbody_sk |].
  split.
  { unfold Obj.has. rewrite Hmerged. pose proof (Hvalues pk) as H.
    rewrite Hbody_pk in H. now rewrite H. }
  split.
  { unfold Obj.has. rewrite Hmerged. pose proof (Hvalues sk) as H.
    rewrite Hbody_sk in H. now rewrite H. }
  split.
  { intros k segments Hk Hkpk Hksk.
    assert (Hbk : Obj.lookup body k = Some (JStr (buildIndexValue self resource segments))).
    { unfold body. rewrite lookup_updateDataOf by assumption. fold pk. fold sk.
      apply String.eqb_neq in Hkpk, Hksk. rewrite Hkpk, Hksk. cbn [negb andb].
      now rewrite (Hfields k segments Hk). }
    split; [exact Hbk |].
    rewrite Hmerged. pose proof (Hvalues k) as H. rewrite Hbk in H.
    destruct H as (attr & Hattr & H). cbn in Hattr. injection Hattr as <-. exact H. }
  split; [exact Hbody_upd |].
  split.
  { change ":updatedAt" with (":" +:+ "updatedAt"). rewrite Hmerged.
    pose proof (Hvalues "updatedAt") as H. rewrite Hbody_upd in H.
    destruct H as (attr & Hattr & H).
    apply convertToAttr_number in Hattr. now rewrite <- Hattr. }
  split; [intros alias k; now apply names_lookup_inv |].
  split; [intros k; now apply names_has |].
  intros k. unfold Obj.has. pose proof (Hvalues k) as H.
  destruct (Obj.lookup body k) as [v |].
  - destruct H as (attr & _ & H). now rewrite H.
  - now rewrite H.
Qed.

Lemma update_body_witness :
  let baseData := updateBaseData 1700 [("email", JStr "new@b.com")] in
  let body :=
    updateDataOf Sample.users baseData
      (updateIndexFields Sample.users baseData Sample.entity) in
  let staged :=
    snd (trxUpdateOne Sample.users 1700000 [("email", JStr "new@b.com")] Sample.entity []
           emptyScratch) in
  exists bodyValues filterValues,
    Obj.has body "PK" = false
    /\ Obj.has body "SK" = false
    /\ Obj.has (spread_optional bodyValues filterValues) ":PK" = false
    /\ Obj.lookup (spread_optional bodyValues filterValues) ":GSI1SK"
       = Some (JStr "acme#User#new@b.com#")
    /\ Obj.lookup (spread_optional bodyValues filterValues) ":updatedAt"
       = Some (JNum 1700).
Proof.
  destruct (update_body_excludes_write_keys
              Sample.users 1700000 [("email", JStr "new@b.com")] Sample.entity []
              emptyScratch
              (snd (trxUpdateOne Sample.users 1700000 [("email", JStr "new@b.com")]
                      Sample.entity [] emptyScratch))
              eq_refl eq_refl eq_refl eq_refl eq_refl)
    as (pkSegments & skSegments & bodyValues & filterValues
        & _ & _ & _ & _ & _ & H1 & H2 & H3 & _ & H4 & _ & H5 & _).
  exists bodyValues, filterValues.
  refine (conj H1 (conj H2 (conj H3 (conj _ H5)))).
  refine (proj2 (H4 "GSI1SK" ["User"; "{email}"; "{nationalId}"] eq_refl _ _)); discriminate.
Defined.

(** C9 as stated fails. The payload is spread into the update data as it
    is: a payload that names the partition key attribute puts it into
    the [SET] expression and among its value placeholders. *)
Lemma update_body_counterexample : ~ update_body_statement.
Proof.
  intros H.
  destruct (H Sample.users 1700000 [("PK", JStr "evil")] Sample.entity [] emptyScratch
              (snd (trxUpdateOne Sample.users 1700000 [("PK", JStr "evil")] Sample.entity
                      [] emptyScratch))
              (mkUpdate "main"
                 [("PK", JStr "acme#User#7"); ("SK", JStr "acme#User")]
                 None
                 (Some "SET #PK = :PK, #updatedAt = :updatedAt, #GSI1PK = :GSI1PK, #GSI1SK = :GSI1SK")
                 [("#PK", "PK"); ("#updatedAt", "updatedAt"); ("#GSI1PK", "GSI1PK");
                  ("#GSI1SK", "GSI1SK")]
                 [(":PK", JStr "evil"); (":updatedAt", JNum 1700);
                  (":GSI1PK", JStr "acme#User"); (":GSI1SK", JStr "acme#User#a@b.com#")])
              eq_refl eq_refl eq_refl) as [H1 _].
  discriminate H1.
Qed.

(** ** Rows of unique constraints and of updates *)

Section RowFacts.

Import JsString.

Lemma concat_sep_inj (l1 : list string) :
  forall (l2 : list string) (x y : string),
    forallb (fun s => negb (includes_char "#" s)) (x :: l1) = true ->
    forallb (fun s => negb (includes_char "#" s)) (y :: l2) = true ->
    String.concat "#" (x :: l1) = String.concat "#" (y :: l2) ->
    x :: l1 = y :: l2.
Proof.
  induction l1 as [|a l1 IH]; intros l2 x y Hx Hy H; destruct l2 as [|b l2].
  - cbn [String.concat] in H. now subst.
  - exfalso. cbn [forallb] in Hx. apply andb_true_iff in Hx as [Hx _].
    apply negb_true_iff in Hx.
    change (String.concat "#" (y :: b :: l2))
      with (y +:+ String "#" (String.concat "#" (b :: l2))) in H.
    change (String.concat "#" [x]) with x in H.
    rewrite H, includes_char_app in Hx. simpl in Hx.
    now rewrite orb_true_r in Hx.
  - exfalso. cbn [forallb] in Hy. apply andb_true_iff in Hy as [Hy _].
    apply negb_true_iff in Hy.
    change (String.concat "#" (x :: a :: l1))
      with (x +:+ String "#" (String.concat "#" (a :: l1))) in H.
    change (String.concat "#" [y]) with y in H.
    rewrite <- H, includes_char_app in Hy. simpl in Hy.
    now rewrite orb_true_r in Hy.
  - change (String.concat "#" (x :: a :: l1))
      with (x +:+ String "#" (String.concat "#" (a :: l1))) in H.
    change (String.concat "#" (y :: b :: l2))
      with (y +:+ String "#" (String.concat "#" (b :: l2))) in H.
    cbn [forallb] in Hx, Hy.
    apply andb_true_iff in Hx as [Hx Hl1]. apply andb_true_iff in Hy as [Hy Hl2].
    apply negb_true_iff in Hx, Hy.
    assert (Hxy : x = y).
    { apply (f_equal (split_head "#")) in H.
      rewrite !split_head_app in H by assumption.
      simpl in H. now rewrite !app_empty_r_s in H. }
    subst y. apply append_inj_l in H. injection H as H.
    f_equal. now apply IH.
Qed.

Lemma concat_head_inj (t e : string) (l1 l2 : list string) :
  forallb (fun s => negb (includes_char "#" s)) l1 = true ->
  forallb (fun s => negb (includes_char "#" s)) l2 = true ->
  String.concat "#" (t :: e :: l1) = String.concat "#" (t :: e :: l2) ->
  l1 = l2.
Proof.
  intros H1 H2 H.
  change (String.concat "#" (t :: e :: l1))
    with (t +:+ String "#" (String.concat "#" (e :: l1))) in H.
  change (String.concat "#" (t :: e :: l2))
    with (t +:+ String "#" (String.concat "#" (e :: l2))) in H.
  apply append_inj_l in H. injection H as H.
  destruct l1 as [|a l1]; destruct l2 as [|b l2].
  - reflexivity.
  - exfalso. change (String.concat "#" [e]) with e in H.
    change (String.concat "#" (e :: b :: l2))
      with (e +:+ String "#" (String.concat "#" (b :: l2))) in H.
    rewrite <- (app_empty_r_s e) in H at 1. apply append_inj_l in H. discriminate H.
  - exfalso. change (String.concat "#" [e]) with e in H.
    change (String.concat "#" (e :: a :: l1))
      with (e +:+ String "#" (String.concat "#" (a :: l1))) in H.
    rewrite <- (app_empty_r_s e) in H at 2. apply append_inj_l in H. discriminate H.
  - change (String.concat "#" (e :: a :: l1))
      with (e +:+ String "#" (String.concat "#" (a :: l1))) in H.
    change (String.concat "#" (e :: b :: l2))
      with (e +:+ String "#" (String.concat "#" (b :: l2))) in H.
    apply append_inj_l in H. injection H as H.
    now apply concat_sep_inj.
Qed.

Lemma forallb_map_s {A B : Type} (f : A -> B) (P : B -> bool) (l : list A) :
  forallb P (map f l) = forallb (fun x => P (f x)) l.
Proof. induction l as [|x l IH]; simpl; [reflexivity | now rewrite IH]. Qed.

Lemma holes_wf (ps : list piece) (g : string) :
  forallb wf_piece ps = true -> In g (holes ps) -> wf_piece (Hole g) = true.
Proof.
  induction ps as [|p ps IH]; [contradiction |].
  cbn [forallb]. rewrite andb_true_iff. intros [Hp Hps].
  destruct p as [text | f]; cbn [holes flat_map app]; [now apply IH |].
  intros [<- | Hg]; [assumption | now apply IH].
Qed.

Lemma buildIndexValue_ext (self : DbModel) (r1 r2 : Document) (segments : list piece) :
  includes_char lbrace (tenantId self) = false ->
  forallb wf_piece segments = true ->
  forallb (plain_hole r1) segments = true ->
  (forall g, In g (holes segments) -> Obj.get r2 g = Obj.get r1 g) ->
  buildIndexValue self r2 (map render_piece segments)
  = buildIndexValue self r1 (map render_piece segments).
Proof.
  intros Ht Hwf Hplain Hget.
  rewrite !buildIndexValue_interpret; try assumption.
  - symmetry. apply interpret_ext. now rewrite holes_keyTemplate.
  - now apply (plain_hole_ext r1).
Qed.

Lemma updated_key_value (self : DbModel) (now : Z) (data old : Document)
    (attr : string) (segments : list piece) :
  Obj.wf (indexFieldsMap self) = true ->
  Obj.wf old = true ->
  Obj.lookup (indexFieldsMap self) attr = Some (map render_piece segments) ->
  includes_char lbrace (tenantId self) = false ->
  forallb wf_piece segments = true ->
  forallb (plain_hole old) segments = true ->
  forallb
    (fun g => negb (Obj.has (removeUndefined data) g) && negb (String.eqb g "updatedAt"))
    (holes segments) = true ->
  index_value (updateIndexFields self (updateBaseData now data) old) attr
  = JStr (buildIndexValue self old (map render_piece segments)).
Proof.
  intros Hcfg Hold Hattr Ht Hwf Hplain Hdata.
  unfold index_value, updateIndexFields.
  rewrite (buildIndexes_lookup _ _ _ _ attr _ Hcfg Hattr (selected_all false attr)).
  f_equal. apply buildIndexValue_ext; try assumption.
  intros g Hg.
  pose proof (proj1 (forallb_forall _ _) Hdata g Hg) as Hg'.
  apply andb_true_iff in Hg' as [Hg1 Hg2].
  apply negb_true_iff in Hg1, Hg2. apply String.eqb_neq in Hg2.
  apply get_merge_untouched; try assumption.
  apply wf_hole_inherits_nothing. now apply (holes_wf segments).
Qed.

End RowFacts.

(** X24. The row of a unique constraint. [trxInsertUniqueConstraint]
    and [trxRemoveUniqueConstraint] never fail and stage, for the same
    values, the same row, one as the item of a conditional put and the
    other as the key of a delete. When the two key attributes of the
    write index differ and no value has the separator in its text, two
    lists of values have the same row only when their texts are the
    same: the constraint tells every two such tuples apart. *)
Theorem constraint_rows_distinguish_values (self : DbModel) (values values' : list jsval) :
  (forall s,
      trxInsertUniqueConstraint self values s
      = (Ok tt,
         with_item s
           (Put (mkPut (tableName (writeIndex self)) (notExistsCondition (writeIndex self))
                   (constraintRow self values)))
           (UniqueContraintError values)))
  /\ (forall s,
        trxRemoveUniqueConstraint self values s
        = (Ok tt,
           with_item s
             (Delete (mkDelete (tableName (writeIndex self)) (constraintRow self values)
                        None None None))
             (Error_RemoveConstraintFailed (entityName self) values)))
  /\ (partitionKey (writeIndex self) <> sortKey (writeIndex self) ->
      forallb (fun v => negb (JsString.includes_char "#" (join_element v))) values = true ->
      forallb (fun v => negb (JsString.includes_char "#" (join_element v))) values' = true ->
      constraintRow self values = constraintRow self values' ->
      map join_element values = map join_element values').
Proof.
  split; [intros s; apply trxInsertUniqueConstraint_run | split].
  { intros s. apply trxRemoveUniqueConstraint_run. }
  intros Hne Hv Hv' H. unfold constraintRow in H. cbn [Obj.set] in H.
  apply String.eqb_neq in Hne. rewrite Hne in H. injection H as H.
  unfold JsString.join, indexValueSeparator in H.
  apply concat_head_inj in H; [exact H | |]; now rewrite forallb_map_s.
Qed.

Lemma constraint_rows_witness :
  map join_element [JStr "a@b.com"; JNum 7] = map join_element [JStr "a@b.com"; JStr "7"].
Proof.
  exact (proj2 (proj2 (constraint_rows_distinguish_values Sample.users
                         [JStr "a@b.com"; JNum 7] [JStr "a@b.com"; JStr "7"]))
           ltac:(discriminate) eq_refl eq_refl eq_refl).
Defined.

(** X25. An update whose data has no defined value for a field named in
    the templates of the two write key attributes either is refused by
    [marshall] on a value of the update data or of the filter, and then
    stages nothing, or addresses the row of the old resource: its key
    holds the two keys built from the old resource alone. The templates
    are well formed and do not name [updatedAt], the two attributes
    differ, and the truthy values of the old resource for the
    placeholders are plain. *)
Theorem update_addresses_row_of_old_resource (self : DbModel) (clock : Z)
    (data old filter : Document) (s : Scratch) (pkTemplate skTemplate : list piece) :
  Obj.wf (indexFieldsMap self) = true ->
  Obj.wf old = true ->
  partitionKey (writeIndex self) <> sortKey (writeIndex self) ->
  Obj.lookup (indexFieldsMap self) (partitionKey (writeIndex self))
  = Some (map render_piece pkTemplate) ->
  Obj.lookup (indexFieldsMap self) (sortKey (writeIndex self))
  = Some (map render_piece skTemplate) ->
  JsString.includes_char JsString.lbrace (tenantId self) = false ->
  forallb wf_piece (pkTemplate ++ skTemplate) = true ->
  forallb (plain_hole old) (pkTemplate ++ skTemplate) = true ->
  forallb
    (fun g => negb (Obj.has (removeUndefined data) g) && negb (String.eqb g "updatedAt"))
    (holes (pkTemplate ++ skTemplate)) = true ->
  match trxUpdateOne self clock data old filter s with
  | (Ok _, s') =>
      exists input,
        s' = with_item s (Update input) (Error_UpdateFailed (entityName self))
        /\ upd_Key input
           = [(partitionKey (writeIndex self),
               JStr (buildIndexValue self old (map render_piece pkTemplate)));
              (sortKey (writeIndex self),
               JStr (buildIndexValue self old (map render_piece skTemplate)))]
  | (Throw e, s') => s' = s /\ is_marshall_error e = true
  end.
Proof.
  intros Hcfg Hold Hne Hpk Hsk Ht Hwf Hplain Hdata.
  rewrite forallb_app in Hwf, Hplain. rewrite holes_app, forallb_app in Hdata.
  apply andb_true_iff in Hwf as [Hwf1 Hwf2].
  apply andb_true_iff in Hplain as [Hplain1 Hplain2].
  apply andb_true_iff in Hdata as [Hdata1 Hdata2].
  rewrite trxUpdateOne_run.
  destruct (getExpressionAttributeValues _ ":") as [updateValues | e] eqn:Eu;
    [| split; [reflexivity | now apply getExpressionAttributeValues_error in Eu]].
  destruct (getExpressionAttributeValues filter "fv") as [filterValues | e] eqn:Ef;
    [| split; [reflexivity | now apply getExpressionAttributeValues_error in Ef]].
  rewrite (updated_key_value self _ data old _ pkTemplate) by assumption.
  rewrite (updated_key_value self _ data old _ skTemplate) by assumption.
  cbn [Obj.set]. apply String.eqb_neq in Hne. rewrite Hne.
  rewrite marshall_flat by reflexivity.
  eexists. split; reflexivity.
Qed.

Lemma update_addresses_row_witness :
  exists input,
    snd (trxUpdateOne Sample.users 1700000 [("email", JStr "new@b.com")] Sample.entity []
           emptyScratch)
    = with_item emptyScratch (Update input) (Error_UpdateFailed "User")
    /\ upd_Key input
       = [("PK", JStr (buildIndexValue Sample.users Sample.entity
                         (map render_piece [Lit "User"; Hole "id"])));
          ("SK", JStr (buildIndexValue Sample.users Sample.entity
                         (map render_piece [Lit "User"])))].
Proof.
  pose proof (update_addresses_row_of_old_resource Sample.users 1700000
                [("email", JStr "new@b.com")] Sample.entity [] emptyScratch
                [Lit "User"; Hole "id"] [Lit "User"]
                eq_refl eq_refl ltac:(discriminate) eq_refl eq_refl eq_refl eq_refl eq_refl
                eq_refl) as H.
  destruct (trxUpdateOne Sample.users 1700000 [("email", JStr "new@b.com")] Sample.entity
              [] emptyScratch) as [[[] | e] s'] eqn:E.
  - exact H.
  - vm_compute in E. discriminate E.
Defined.

(** ** Aliases, and exceptions that are not reports *)

(** X26. With the prefixes the library uses, [#] and [fn], two fields
    whose names do not start with [reserved_] never get the same alias:
    the name map has one alias for each of them. *)
Theorem aliases_of_distinct_fields_differ (prefix k1 k2 : string) :
  prefix = "#" \/ prefix = "fn" ->
  JsString.startsWith "reserved_" k1 = false ->
  JsString.startsWith "reserved_" k2 = false ->
  k1 <> k2 ->
  mappedKey prefix k1 <> mappedKey prefix k2.
Proof.
  intros Hp H1 H2 Hne H. apply Hne.
  unfold mappedKey, RESERVED_KEYWORD_PREFIX, JsString.startsWith in *.
  destruct (isReservedKey k1), (isReservedKey k2).
  - now apply append_inj_l in H.
  - exfalso. destruct Hp as [-> | ->]; [| discriminate H].
    assert (E : k2 = "reserved_" +:+ k1) by (injection H as H; symmetry; exact H).
    rewrite E, prefix_app_s in H2. discriminate H2.
  - exfalso. destruct Hp as [-> | ->]; [| discriminate H].
    assert (E : k1 = "reserved_" +:+ k2) by (injection H as H; exact H).
    rewrite E, prefix_app_s in H1. discriminate H1.
  - now apply append_inj_l in H.
Qed.

Lemma aliases_differ_witness : mappedKey "#" "name" <> mappedKey "#" "age".
Proof.
  refine (aliases_of_distinct_fields_differ "#" "name" "age"
            (or_introl eq_refl) eq_refl eq_refl _).
  discriminate.
Defined.

(** X27. An exception of the client that is not a cancellation report
    with reasons (a network error, a cancellation without a report) is
    passed on by [trxExecute] as it is, whatever handlers are
    registered, and the transaction is emptied. *)
Theorem other_exceptions_pass_through (rt : Runtime) (s : Scratch) (e : exn) :
  (forall reasons, e <> TransactionCanceledException (Some reasons)) ->
  send_transact rt (items s) = Throw e ->
  trxExecute rt s = (Throw e, emptyScratch).
Proof.
  intros He Hsend. rewrite (trxExecute_client_throws rt s e Hsend).
  destruct e as [[reasons |] | | | | | | | | | | | | | |]; try reflexivity.
  now destruct (He reasons).
Qed.

Lemma other_exceptions_witness :
  trxExecute
    (mkRuntime (fun _ => Throw (SdkException "TimeoutError"))
       (fun _ => Throw (SdkException "TimeoutError"))
       (fun _ => "") (fun _ => Throw SyntaxError) (fun x => x) (fun x => x))
    Sample.staged
  = (Throw (SdkException "TimeoutError"), emptyScratch).
Proof.
  refine (other_exceptions_pass_through
            (mkRuntime (fun _ => Throw (SdkException "TimeoutError"))
               (fun _ => Throw (SdkException "TimeoutError"))
               (fun _ => "") (fun _ => Throw SyntaxError) (fun x => x) (fun x => x))
            Sample.staged (SdkException "TimeoutError") _ eq_refl).
  intros reasons H. discriminate H.
Defined.
